(** * nmap-to-drawio: a shallow embedding and its verified properties

    The development follows [network-maps/nmap-to-drawio.py]: the Host
    model, the three grammar parsers, the merge engine, the layout engine and
    the diagram builder.  Python [str] values are modelled as [string]
    (code points below 256), Python [int] as [Z], Python [float] as the
    binary64 instance of [spec_float], [Optional] as [option], and the
    insertion-ordered [dict] of [merge_hosts_by_ip] as an association list
    that keeps the order of first insertion. *)

From Stdlib Require Import List String Ascii ZArith Bool Lia Arith.
From Stdlib Require Import Floats.SpecFloat.
Import ListNotations.
Open Scope string_scope.
Open Scope list_scope.

(** ** Python truthiness and small helpers *)

(** [if s:] / [if not s:] on an [Optional[str]]: [None] and the empty string
    are falsy. *)
Definition truthy (o : option string) : bool :=
  match o with
  | Some s => negb (s =? "")
  | None => false
  end.

(** [p in xs] on a list of strings. *)
Fixpoint str_in (p : string) (xs : list string) : bool :=
  match xs with
  | [] => false
  | x :: xs' => (p =? x) || str_in p xs'
  end.

(** ** The Host model (dataclass [Host]) *)

Record Host : Type := mkHost
  { ip : string
  ; name : option string
  ; ports : list string
  ; os_guess : option string
  ; os_accuracy : option Z }.

Definition set_name (h : Host) (n : option string) : Host :=
  mkHost (ip h) n (ports h) (os_guess h) (os_accuracy h).

Definition set_ports (h : Host) (ps : list string) : Host :=
  mkHost (ip h) (name h) ps (os_guess h) (os_accuracy h).

Definition set_os (h : Host) (g : option string) (a : option Z) : Host :=
  mkHost (ip h) (name h) (ports h) g a.

(** [_maybe_set_os(current, guess, acc)]: the mutation of [current] is
    returned as the new record. *)
Definition _maybe_set_os (current : Host) (guess : option string)
    (acc : option Z) : Host :=
  if negb (truthy guess) then current
  else
    match os_guess current with
    | None => set_os current guess acc
    | Some _ =>
        match acc with
        | None => current
        | Some a =>
            match os_accuracy current with
            | None => set_os current guess acc
            | Some e => if (a >? e)%Z then set_os current guess acc
                        else current
            end
        end
    end.

(** A sequence of guess updates applied to one host, in order. *)
Definition apply_guesses (h : Host) (us : list (option string * option Z))
    : Host :=
  fold_left (fun cur u => _maybe_set_os cur (fst u) (snd u)) us h.

(** ** The insertion-ordered dictionary used by the merge engine *)

Module PyDict.

Definition t (V : Type) : Type := list (string * V).

Definition empty {V} : t V := [].

(** [d.get(k)] / [d[k]] *)
Fixpoint get {V} (k : string) (d : t V) : option V :=
  match d with
  | [] => None
  | (k', v) :: d' => if k =? k' then Some v else get k d'
  end.

(** [d[k] = v]: an existing key keeps its position, a new key goes last. *)
Fixpoint set {V} (k : string) (v : V) (d : t V) : t V :=
  match d with
  | [] => [(k, v)]
  | (k', v') :: d' =>
      if k =? k' then (k', v) :: d' else (k', v') :: set k v d'
  end.

Definition keys {V} (d : t V) : list string := map fst d.

(** [list(d.values())] *)
Definition values {V} (d : t V) : list V := map snd d.

End PyDict.

(** ** The merge engine *)

(** The [for p in h.ports] loop of the [else] branch. *)
Definition merge_ports (existing : Host) (ps : list string) : Host :=
  fold_left
    (fun e p => if str_in p (ports e) then e else set_ports e (ports e ++ [p]))
    ps existing.

(** One iteration of [for h in hosts]. *)
Definition merge_step (by_ip : PyDict.t Host) (h : Host) : PyDict.t Host :=
  match PyDict.get (ip h) by_ip with
  | None =>
      PyDict.set (ip h)
        (mkHost (ip h) (name h) (ports h) (os_guess h) (os_accuracy h)) by_ip
  | Some existing =>
      let existing :=
        if negb (truthy (name existing)) && truthy (name h)
        then set_name existing (name h) else existing in
      let existing :=
        if truthy (os_guess h) then
          match os_guess existing with
          | None => set_os existing (os_guess h) (os_accuracy h)
          | Some _ =>
              match os_accuracy h with
              | None => existing
              | Some a =>
                  match os_accuracy existing with
                  | None => set_os existing (os_guess h) (os_accuracy h)
                  | Some e =>
                      if (a >? e)%Z
                      then set_os existing (os_guess h) (os_accuracy h)
                      else existing
                  end
              end
          end
        else existing in
      let existing := merge_ports existing (ports h) in
      PyDict.set (ip h) existing by_ip
  end.

Definition merge_hosts_by_ip (hosts : list Host) : list Host :=
  PyDict.values (fold_left merge_step hosts PyDict.empty).

(** Addresses in order of first appearance. *)
Fixpoint first_seen (seen : list string) (l : list string) : list string :=
  match l with
  | [] => []
  | a :: l' =>
      if str_in a seen then first_seen seen l'
      else a :: first_seen (seen ++ [a]) l'
  end.

(** ** Characters and strings

    The character classes below are those of Python 3 restricted to code
    points below 256. *)

Definition code (c : ascii) : N := N_of_ascii c.

Definition in_range (lo hi : N) (c : ascii) : bool :=
  (lo <=? code c)%N && (code c <=? hi)%N.

Definition is_code (n : N) (c : ascii) : bool := (code c =? n)%N.

(** [str.isspace], the class [\s] of [re], and what [str.strip] removes. *)
Definition is_space (c : ascii) : bool :=
  in_range 9 13 c || in_range 28 32 c || is_code 133 c || is_code 160 c.

(** The class [\d] of [re]. *)
Definition is_digit (c : ascii) : bool := in_range 48 57 c.

Definition is_upper_ascii (c : ascii) : bool := in_range 65 90 c.
Definition is_lower_ascii (c : ascii) : bool := in_range 97 122 c.

(** The class [\w] of [re]. *)
Definition is_word (c : ascii) : bool :=
  is_digit c || is_upper_ascii c || is_lower_ascii c || is_code 95 c
  || is_code 170 c || is_code 178 c || is_code 179 c || is_code 181 c
  || is_code 185 c || is_code 186 c || in_range 188 190 c
  || in_range 192 214 c || in_range 216 246 c || in_range 248 255 c.

(** The line boundaries of [str.splitlines]. *)
Definition is_linebreak (c : ascii) : bool :=
  in_range 10 13 c || in_range 28 30 c || is_code 133 c.

Definition LF : ascii := ascii_of_N 10.
Definition CR : ascii := ascii_of_N 13.
Definition TAB : ascii := ascii_of_N 9.

(** [str.lower] on one character. *)
Definition lower_char (c : ascii) : ascii :=
  if is_upper_ascii c || in_range 192 214 c || in_range 216 222 c
  then ascii_of_N (code c + 32) else c.

Fixpoint lower (s : string) : string :=
  match s with
  | EmptyString => EmptyString
  | String c t => String (lower_char c) (lower t)
  end.

Fixpoint lstrip_by (p : ascii -> bool) (s : string) : string :=
  match s with
  | EmptyString => EmptyString
  | String c t => if p c then lstrip_by p t else s
  end.

Fixpoint rstrip_by (p : ascii -> bool) (s : string) : string :=
  match s with
  | EmptyString => EmptyString
  | String c t =>
      match rstrip_by p t with
      | EmptyString => if p c then EmptyString else String c EmptyString
      | r => String c r
      end
  end.

(** [s.lstrip()], [s.rstrip()], [s.strip()] *)
Definition lstrip (s : string) : string := lstrip_by is_space s.
Definition rstrip (s : string) : string := rstrip_by is_space s.
Definition strip (s : string) : string := lstrip (rstrip s).

(** [s.startswith(p)] *)
Definition startswith (p s : string) : bool := String.prefix p s.

(** [text.replace("\r\n", "\n")] *)
Fixpoint replace_crlf (s : string) : string :=
  match s with
  | EmptyString => EmptyString
  | String c t =>
      match t with
      | String d t' =>
          if is_code 13 c && is_code 10 d then String LF (replace_crlf t')
          else String c (replace_crlf t)
      | EmptyString => String c EmptyString
      end
  end.

(** [s.splitlines()]: [cur] is the line being read, reversed. *)
Fixpoint rev_string (acc s : string) : string :=
  match s with
  | EmptyString => acc
  | String c t => rev_string (String c acc) t
  end.

Fixpoint splitlines_aux (cur : string) (started : bool) (s : string)
    : list string :=
  match s with
  | EmptyString => if started then [rev_string "" cur] else []
  | String c t =>
      if is_linebreak c then
        match t with
        | String d t' =>
            if is_code 13 c && is_code 10 d
            then rev_string "" cur :: splitlines_aux "" false t'
            else rev_string "" cur :: splitlines_aux "" false t
        | EmptyString => [rev_string "" cur]
        end
      else splitlines_aux (String c cur) true t
  end.

Definition splitlines (s : string) : list string := splitlines_aux "" false s.

(** [s.split(sep)] for a one-character separator. *)
Fixpoint split_aux (sep : ascii) (cur : string) (s : string) : list string :=
  match s with
  | EmptyString => [rev_string "" cur]
  | String c t =>
      if Ascii.eqb c sep then rev_string "" cur :: split_aux sep "" t
      else split_aux sep (String c cur) t
  end.

Definition split (sep : ascii) (s : string) : list string :=
  split_aux sep "" s.

(** [s.rfind(c)] for a one-character needle: the last index, or -1. *)
Fixpoint rfind_aux (c : ascii) (i : Z) (found : Z) (s : string) : Z :=
  match s with
  | EmptyString => found
  | String d t => rfind_aux c (i + 1) (if Ascii.eqb d c then i else found) t
  end.

Definition rfind (c : ascii) (s : string) : Z := rfind_aux c 0 (-1) s.

Fixpoint take (n : nat) (s : string) : string :=
  match n, s with
  | S n', String c t => String c (take n' t)
  | _, _ => EmptyString
  end.

(** The slice [s[:k]], a negative [k] counting from the end. *)
Definition slice_to (k : Z) (s : string) : string :=
  let len := Z.of_nat (String.length s) in
  let k' := if (k <? 0)%Z then Z.max 0 (len + k) else k in
  take (Z.to_nat k') s.

(** [sep.join(xs)] *)
Fixpoint join (sep : string) (xs : list string) : string :=
  match xs with
  | [] => ""
  | [x] => x
  | x :: xs' => x ++ sep ++ join sep xs'
  end.

(** [a in s] for strings (substring test). *)
Fixpoint contains (a s : string) : bool :=
  String.prefix a s ||
  match s with
  | EmptyString => false
  | String _ t => contains a t
  end.

(** ** Integers and text: [int(s)] and [str(n)] *)

(** White space accepted around the digits by [int()]. *)
Definition is_int_space (c : ascii) : bool :=
  in_range 9 13 c || is_code 32 c || is_code 133 c || is_code 160 c.

Definition digit_val (c : ascii) : Z := Z.of_N (code c) - 48.

(** Digits with single underscores between them; [prev_digit] tells whether
    the previous character was a digit. *)
Fixpoint int_digits (acc : Z) (prev_digit : bool) (s : string) : option Z :=
  match s with
  | EmptyString => if prev_digit then Some acc else None
  | String c t =>
      if is_digit c then int_digits (10 * acc + digit_val c) true t
      else if is_code 95 c && prev_digit then
        match t with
        | String d _ => if is_digit d then int_digits acc false t else None
        | EmptyString => None
        end
      else None
  end.

(** The value of a decimal literal: white space around it, an optional sign
    and digits. *)
Definition int_literal (s : string) : option Z :=
  let s := lstrip_by is_int_space (rstrip_by is_int_space s) in
  match s with
  | String c t =>
      if is_code 45 c then option_map Z.opp (int_digits 0 false t)
      else if is_code 43 c then int_digits 0 false t
      else int_digits 0 false s
  | EmptyString => None
  end.

(** [sys.get_int_max_str_digits()]: CPython converts no text of more digits
    to an [int] and no [int] of more digits to text (4300 unless the
    interpreter is started with another limit). *)
Definition int_max_str_digits : nat := 4300.

(** The number of digits of a text; leading zeros count, signs, underscores
    and white space do not. *)
Fixpoint count_digits (s : string) : nat :=
  match s with
  | EmptyString => O
  | String c t => if is_digit c then S (count_digits t) else count_digits t
  end.

(** [int(s)] in base 10; [None] stands for [ValueError], raised on text that
    is no decimal literal and on text of more than [int_max_str_digits]
    digits. *)
Definition py_int (s : string) : option Z :=
  if Nat.ltb int_max_str_digits (count_digits s) then None
  else int_literal s.

(** [str(n)] for a natural number below one hundred. *)
Definition digit_char (n : nat) : ascii := ascii_of_nat (48 + n).

(** [str(n)] for a non-negative integer; [fuel] bounds the number of
    digits. *)
Fixpoint str_of_nat_aux (fuel : nat) (n : nat) (acc : string) : string :=
  match fuel with
  | O => acc
  | S f =>
      let acc' := String (digit_char (n mod 10)) acc in
      match n / 10 with
      | O => acc'
      | q => str_of_nat_aux f q acc'
      end
  end.

Definition str_of_nat (n : nat) : string := str_of_nat_aux (S n) n "".

(** The decimal text of an integer. *)
Definition str_of_Z (z : Z) : string :=
  match z with
  | Zneg p => "-" ++ str_of_nat (Pos.to_nat p)
  | _ => str_of_nat (Z.to_nat z)
  end.

(** [str(z)] and the formatting of [z] in an f-string; [None] stands for the
    [ValueError] raised on an integer of more than [int_max_str_digits]
    digits.  Where the program converts the number of hosts, the counter of
    cell identifiers or a coordinate obtained from a float, which has at most
    309 digits, [str_of_Z] is written directly. *)
Definition py_str (z : Z) : option string :=
  let s := str_of_Z z in
  if Nat.ltb int_max_str_digits (count_digits s) then None else Some s.

(** ** A backtracking matcher for the regular expressions of the source

    The constructors are the constructs that the patterns of the program
    use.  Alternatives are tried left to right, a greedy repetition tries
    one more iteration first and a lazy one tries to stop first, as in
    Python's [re]. *)

Inductive re : Type :=
  | Eps
  | Chr (p : ascii -> bool)
  | Seq (a b : re)
  | Alt (a b : re)
  | Star (greedy : bool) (a : re)
  | Group (i : nat) (a : re)
  | Bol (multiline : bool)
  | Eol
  | WordB.

(** The matcher's position: the character before it, the text after it and
    the groups captured so far (latest first). *)
Record mstate : Type := mkMstate
  { prev : option ascii
  ; rest : string
  ; caps : list (nat * string) }.

Definition is_word_opt (o : option ascii) : bool :=
  match o with Some c => is_word c | None => false end.

Definition next_char (s : string) : option ascii :=
  match s with String c _ => Some c | EmptyString => None end.

Fixpoint run {A : Type} (r : re) (s : mstate) (k : mstate -> option A)
    {struct r} : option A :=
  match r with
  | Eps => k s
  | Chr p =>
      match rest s with
      | String c t => if p c then k (mkMstate (Some c) t (caps s)) else None
      | EmptyString => None
      end
  | Seq a b => run a s (fun s' => run b s' k)
  | Alt a b =>
      match run a s k with
      | Some x => Some x
      | None => run b s k
      end
  | Star greedy a =>
      (fix loop (fuel : nat) (s : mstate) {struct fuel} : option A :=
         match fuel with
         | O => k s
         | S f =>
             let again (_ : unit) :=
               run a s (fun s' =>
                 if Nat.ltb (String.length (rest s')) (String.length (rest s))
                 then loop f s' else None) in
             if greedy then
               match again tt with
               | Some x => Some x
               | None => k s
               end
             else
               match k s with
               | Some x => Some x
               | None => again tt
               end
         end) (S (String.length (rest s))) s
  | Group i a =>
      run a s (fun s' =>
        let n := String.length (rest s) - String.length (rest s') in
        k (mkMstate (prev s') (rest s') ((i, take n (rest s)) :: caps s')))
  | Bol multiline =>
      match prev s with
      | None => k s
      | Some c => if multiline && is_code 10 c then k s else None
      end
  | Eol =>
      match rest s with
      | EmptyString => k s
      | String c EmptyString => if is_code 10 c then k s else None
      | _ => None
      end
  | WordB =>
      if xorb (is_word_opt (prev s)) (is_word_opt (next_char (rest s)))
      then k s else None
  end.

(** [m.group(i)] *)
Fixpoint group (i : nat) (cs : list (nat * string)) : option string :=
  match cs with
  | [] => None
  | (j, v) :: cs' => if Nat.eqb i j then Some v else group i cs'
  end.

(** [pattern.match(s)]: the groups of a match at the start of [s]. *)
Definition re_match (r : re) (s : string) : option (list (nat * string)) :=
  run r (mkMstate None s []) (fun st => Some (caps st)).

(** [re.search(pattern, s)]: the leftmost match; the result gives the text
    before the match, the groups and the text after the match. *)
Fixpoint search_from (r : re) (before : string) (p : option ascii)
    (s : string) : option (string * list (nat * string) * string) :=
  match run r (mkMstate p s []) (fun st => Some (caps st, rest st)) with
  | Some (cs, after) => Some (rev_string "" before, cs, after)
  | None =>
      match s with
      | EmptyString => None
      | String c t => search_from r (String c before) (Some c) t
      end
  end.

Definition re_search (r : re) (s : string) : option (list (nat * string)) :=
  match search_from r "" None s with
  | Some (_, cs, _) => Some cs
  | None => None
  end.

(** [re.sub(pattern, "", s)] for a pattern that matches no empty text:
    every match, left to right, is removed. *)
Fixpoint re_remove (r : re) (fuel : nat) (p : option ascii) (s : string)
    : string :=
  match fuel with
  | O => s
  | S f =>
      match run r (mkMstate p s []) (fun st => Some (prev st, rest st)) with
      | Some (p', after) =>
          if Nat.ltb (String.length after) (String.length s)
          then re_remove r f p' after
          else match s with
               | EmptyString => EmptyString
               | String c t => String c (re_remove r f (Some c) t)
               end
      | None =>
          match s with
          | EmptyString => EmptyString
          | String c t => String c (re_remove r f (Some c) t)
          end
      end
  end.

Definition re_sub_empty (r : re) (s : string) : string :=
  re_remove r (S (String.length s)) None s.

(** *** Pattern combinators *)

Definition plus (a : re) : re := Seq a (Star true a).
Definition opt (a : re) : re := Alt a Eps.

Fixpoint seqs (rs : list re) : re :=
  match rs with
  | [] => Eps
  | [r] => r
  | r :: rs' => Seq r (seqs rs')
  end.

(** [a{n}] *)
Fixpoint times (n : nat) (a : re) : re :=
  match n with
  | O => Eps
  | S n' => Seq a (times n' a)
  end.

(** [a{0,n}], greedy *)
Fixpoint upto (n : nat) (a : re) : re :=
  match n with
  | O => Eps
  | S n' => opt (Seq a (upto n' a))
  end.

(** A literal character, and one matched without regard to case
    ([re.IGNORECASE]); the patterns of the program hold ASCII letters only. *)
Definition ch (c : ascii) : re := Chr (Ascii.eqb c).

Definition fold_case (c : ascii) : ascii :=
  if is_upper_ascii c then ascii_of_N (code c + 32) else c.

Definition ch_ci (c : ascii) : re :=
  Chr (fun d => Ascii.eqb (fold_case d) (fold_case c)).

Fixpoint lit (s : string) : re :=
  match s with
  | EmptyString => Eps
  | String c EmptyString => ch c
  | String c t => Seq (ch c) (lit t)
  end.

Fixpoint lit_ci (s : string) : re :=
  match s with
  | EmptyString => Eps
  | String c EmptyString => ch_ci c
  | String c t => Seq (ch_ci c) (lit_ci t)
  end.

Definition any_char : re := Chr (fun c => negb (is_code 10 c)).  (* [.] *)
Definition space : re := Chr is_space.                           (* [\s] *)
Definition nonspace : re := Chr (fun c => negb (is_space c)).    (* [\S] *)
Definition digit : re := Chr is_digit.                           (* [\d] *)
Definition not_char (c : ascii) : re :=
  Chr (fun d => negb (Ascii.eqb d c)).                           (* [[^c]] *)

(** ** The patterns of the program

    Named groups are numbered in the order in which they open. *)

(** "^Nmap scan report for (.+)$" *)
Definition _RE_NORMAL_HOST : re :=
  seqs [Bol false; lit "Nmap scan report for "; Group 1 (plus any_char); Eol].

(** "^(?P<port>\d+)\/(?P<proto>tcp|udp)\s+open\s+(?P<service>\S+)(?P<rest>.* )$",
    IGNORECASE, written here with a blank before the last parenthesis;
    port = 1, proto = 2, service = 3, rest = 4 *)
Definition _RE_PORT_LINE : re :=
  seqs [Bol false; Group 1 (plus digit); ch "/";
        Group 2 (Alt (lit_ci "tcp") (lit_ci "udp"));
        plus space; lit_ci "open"; plus space;
        Group 3 (plus nonspace); Group 4 (Star true any_char); Eol].

(** "^Host:\s+(?P<ip>\S+)\s+\((?P<name>.*?)\)\s+Ports:\s+(?P<ports>.* )$",
    written here with a blank before the last parenthesis;
    ip = 1, name = 2, ports = 3 *)
Definition _RE_GREPPABLE_HOST : re :=
  seqs [Bol false; lit "Host:"; plus space; Group 1 (plus nonspace);
        plus space; ch "("; Group 2 (Star false any_char); ch ")";
        plus space; lit "Ports:"; plus space;
        Group 3 (Star true any_char); Eol].

(** "^(Aggressive OS guesses|OS guesses):\s*(.+)$", IGNORECASE *)
Definition _RE_OS_GUESSES : re :=
  seqs [Bol false;
        Group 1 (Alt (lit_ci "Aggressive OS guesses") (lit_ci "OS guesses"));
        ch ":"; Star true space; Group 2 (plus any_char); Eol].

(** "^OS details:\s*(.+)$", IGNORECASE *)
Definition _RE_OS_DETAILS : re :=
  seqs [Bol false; lit_ci "OS details:"; Star true space;
        Group 1 (plus any_char); Eol].

(** "^Running:\s*(.+)$", IGNORECASE *)
Definition _RE_RUNNING : re :=
  seqs [Bol false; lit_ci "Running:"; Star true space;
        Group 1 (plus any_char); Eol].

(** "^Service Info:\s*(.+)$", IGNORECASE *)
Definition _RE_SERVICE_INFO : re :=
  seqs [Bol false; lit_ci "Service Info:"; Star true space;
        Group 1 (plus any_char); Eol].

(** "\((\d+)%\)" *)
Definition RE_ACCURACY : re :=
  seqs [ch "("; Group 1 (plus digit); ch "%"; ch ")"].

(** "\s*\(\d+%\)\s*" *)
Definition RE_ACCURACY_PADDED : re :=
  seqs [Star true space; ch "("; plus digit; ch "%"; ch ")";
        Star true space].

(** "\(([^)]+)\)$" *)
Definition RE_PAREN_TAIL : re :=
  seqs [ch "("; Group 1 (plus (not_char ")")); ch ")"; Eol].

(** "^\d{1,3}(\.\d{1,3}){3}$" *)
Definition RE_DOTTED_QUAD : re :=
  seqs [Bol false; digit; upto 2 digit;
        times 3 (Group 1 (seqs [ch "."; digit; upto 2 digit])); Eol].

(** "\bOS:\s*([^;]+)", IGNORECASE *)
Definition RE_SERVICE_OS : re :=
  seqs [WordB; lit_ci "OS:"; Star true space; Group 1 (plus (not_char ";"))].

(** "\bOS:\s*([^\t]+)$", IGNORECASE *)
Definition RE_GREPABLE_OS : re :=
  seqs [WordB; lit_ci "OS:"; Star true space;
        Group 1 (plus (not_char TAB)); Eol].

(** "^Host:\s+\S+", MULTILINE *)
Definition RE_LOOKS_GREPABLE : re :=
  seqs [Bol true; lit "Host:"; plus space; plus nonspace].

(** [m.group(i)] of a group that takes part in every match. *)
Definition group_str (i : nat) (cs : list (nat * string)) : string :=
  match group i cs with Some v => v | None => "" end.

(** [s or None] *)
Definition or_none (s : string) : option string :=
  if s =? "" then None else Some s.

(** ** Exceptions

    A computation that may raise returns an [option]; [None] stands for the
    exception, which ends the computation around it. *)

Definition bind {A B : Type} (o : option A) (f : A -> option B) : option B :=
  match o with
  | Some a => f a
  | None => None
  end.

Notation "x <- c ;; k" := (bind c (fun x => k))
  (at level 61, c at next level, right associativity).

(** [for x in xs: s = body(s, x)], any exception ending the loop. *)
Definition for_each {S A : Type} (xs : list A) (body : S -> A -> option S)
    (s : S) : option S :=
  fold_left (fun acc x => bind acc (fun st => body st x)) xs (Some s).

(** ** Parsing *)

(** Lines 87-103; [None] stands for the [ValueError] that [int()] raises at
    line 99 on an accuracy of more than [int_max_str_digits] digits. *)
Definition _parse_first_guess_with_accuracy (s : string)
    : option (option string * option Z) :=
  if s =? "" then Some (None, None)
  else
    let first := strip (hd "" (split "," s)) in
    acc <- match re_search RE_ACCURACY first with
           | Some cs => option_map Some (py_int (group_str 1 cs))
           | None => Some None
           end ;;
    let guess := strip (re_sub_empty RE_ACCURACY_PADDED first) in
    Some (or_none guess, acc).

Definition _looks_like_xml (text : string) : bool :=
  let s := lstrip text in
  startswith "<?xml" s || startswith "<nmaprun" s.

Definition _looks_like_grepable (text : string) : bool :=
  match re_search RE_LOOKS_GREPABLE text with
  | Some _ => true
  | None => false
  end.

(** *** The line-oriented parser *)

(** Lines 187-197: the record started by a host announcement whose captured
    text is [g1]. *)
Definition announced_host (g1 : string) : Host :=
  let raw := strip g1 in
  match re_search RE_PAREN_TAIL raw with
  | Some cs =>
      mkHost (strip (group_str 1 cs))
             (Some (strip (slice_to (rfind "(" raw) raw))) [] None None
  | None =>
      match re_match RE_DOTTED_QUAD raw with
      | Some _ => mkHost raw None [] None None
      | None => mkHost raw (Some raw) [] None None
      end
  end.

(** The descriptor appended for a port line. *)
Definition port_entry (cs : list (nat * string)) : string :=
  let port := group_str 1 cs in
  let proto := group_str 2 cs in
  let service := group_str 3 cs in
  let rest := strip (group_str 4 cs) in
  (port ++ "/" ++ proto ++ " " ++ service
        ++ (if rest =? "" then "" else " " ++ rest))%string.

(** One iteration of the loop over lines; the state is the list [hosts] and
    the host [current].  The iteration raises where
    [_parse_first_guess_with_accuracy] does. *)
Definition normal_step (st : list Host * option Host) (line0 : string)
    : option (list Host * option Host) :=
  let (hosts, current) := st in
  let line := rstrip_by (is_code 10) line0 in
  match re_match _RE_NORMAL_HOST line with
  | Some cs =>
      let hosts' :=
        match current with
        | Some cur => hosts ++ [cur]
        | None => hosts
        end in
      Some (hosts', Some (announced_host (group_str 1 cs)))
  | None =>
      match current with
      | None => Some st
      | Some cur =>
          let m_port := re_match _RE_PORT_LINE line in
          match re_match _RE_OS_GUESSES line with
          | Some cs =>
              ga <- _parse_first_guess_with_accuracy (group_str 2 cs) ;;
              Some (hosts, Some (_maybe_set_os cur (fst ga) (snd ga)))
          | None =>
          match re_match _RE_OS_DETAILS line with
          | Some cs =>
              Some (hosts,
                    Some (_maybe_set_os cur (Some (strip (group_str 1 cs)))
                                        None))
          | None =>
          match re_match _RE_RUNNING line with
          | Some cs =>
              Some (hosts,
                    Some (_maybe_set_os cur (Some (strip (group_str 1 cs)))
                                        None))
          | None =>
              let cur :=
                match re_match _RE_SERVICE_INFO line with
                | Some cs =>
                    match re_search RE_SERVICE_OS (group_str 1 cs) with
                    | Some cs2 =>
                        _maybe_set_os cur (Some (strip (group_str 1 cs2)))
                                      None
                    | None => cur
                    end
                | None => cur
                end in
              match m_port with
              | Some cs =>
                  Some (hosts,
                        Some (set_ports cur (ports cur ++ [port_entry cs])))
              | None => Some (hosts, Some cur)
              end
          end end end
      end
  end.

(** Lines 243-249: the ports of one host without repeated strings, first
    occurrences kept. *)
Definition uniq_ports (ps : list string) : list string :=
  fold_left (fun uniq p => if str_in p uniq then uniq else uniq ++ [p]) ps [].

(** [parse_nmap_normal]; [None] stands for the [ValueError] raised in the
    loop over lines. *)
Definition parse_nmap_normal (text : string) : option (list Host) :=
  st <- for_each (splitlines text) normal_step ([], None) ;;
  let (hosts, current) := st in
  let hosts :=
    match current with
    | Some cur => hosts ++ [cur]
    | None => hosts
    end in
  let hosts := map (fun h => set_ports h (uniq_ports (ports h))) hosts in
  Some (merge_hosts_by_ip hosts).

(** *** The grepable parser *)

(** Lines 275-287: the descriptors of the open ports of a [Ports:] field. *)
Definition grepable_chunk (chunk0 : string) : list string :=
  let chunk := strip chunk0 in
  if chunk =? "" then []
  else
    let parts := split "/" chunk in
    if Nat.ltb (List.length parts) 5 then []
    else
      let port := nth 0 parts "" in
      let state := nth 1 parts "" in
      let proto := nth 2 parts "" in
      let service :=
        if nth 4 parts "" =? "" then "unknown" else nth 4 parts "" in
      if negb (state =? "open") then []
      else [(port ++ "/" ++ proto ++ " " ++ service)%string].

Definition grepable_ports (ports_blob : string) : list string :=
  flat_map grepable_chunk (split "," ports_blob).

(** The body of the loop over lines: the host of a matching line, no host
    for another line; the body raises where
    [_parse_first_guess_with_accuracy] does. *)
Definition grepable_line (line0 : string) : option (option Host) :=
  let line := strip line0 in
  match re_match _RE_GREPPABLE_HOST line with
  | None => Some None
  | Some cs =>
      let ip := strip (group_str 1 cs) in
      let name := or_none (strip (group_str 2 cs)) in
      let ports_blob := strip (group_str 3 cs) in
      os <- match re_search RE_GREPABLE_OS line with
            | Some cs2 =>
                _parse_first_guess_with_accuracy (strip (group_str 1 cs2))
            | None => Some (None, None)
            end ;;
      Some (Some (mkHost ip name (grepable_ports ports_blob)
                         (fst os) (snd os)))
  end.

(** One iteration: the host of the line, if any, is appended to [hosts]. *)
Definition grepable_step (hosts : list Host) (line : string)
    : option (list Host) :=
  h <- grepable_line line ;;
  Some (match h with
        | Some r => hosts ++ [r]
        | None => hosts
        end).

Fixpoint filter_map {A B : Type} (f : A -> option B) (l : list A) : list B :=
  match l with
  | [] => []
  | x :: l' =>
      match f x with
      | Some y => y :: filter_map f l'
      | None => filter_map f l'
      end
  end.

(** [parse_nmap_grepable]; [None] stands for the [ValueError] raised in the
    loop over lines. *)
Definition parse_nmap_grepable (text : string) : option (list Host) :=
  hosts <- for_each (splitlines text) grepable_step [] ;;
  Some (merge_hosts_by_ip hosts).

(** *** Element trees ([xml.etree.ElementTree])

    An element has a tag, its attributes in document order and its child
    elements; the program reads no element text. *)

Local Unset Elimination Schemes.

Inductive Element : Type :=
  | Elem (tag : string) (attrib : list (string * string))
         (children : list Element).

Local Set Elimination Schemes.

Definition tag_of (e : Element) : string :=
  match e with Elem t _ _ => t end.

Definition attrib_of (e : Element) : list (string * string) :=
  match e with Elem _ a _ => a end.

Definition children_of (e : Element) : list Element :=
  match e with Elem _ _ c => c end.

(** [e.get(k)] *)
Definition attr (k : string) (e : Element) : option string :=
  PyDict.get k (attrib_of e).

(** [e.get(k, default)] *)
Definition attr_default (k default : string) (e : Element) : string :=
  match attr k e with Some v => v | None => default end.

(** [e.get(k) or default] *)
Definition attr_or (k default : string) (e : Element) : string :=
  match attr k e with
  | Some v => if v =? "" then default else v
  | None => default
  end.

(** [e.findall(t)]: the direct children with tag [t], in document order. *)
Definition findall (t : string) (e : Element) : list Element :=
  filter (fun c => tag_of c =? t) (children_of e).

(** [e.find(t)] *)
Definition find (t : string) (e : Element) : option Element :=
  hd_error (findall t e).

(** *** The XML parser *)

(** Lines 298-300: the host is skipped when its status is present and its
    state is neither absent nor "up". *)
Definition xml_host_down (h : Element) : bool :=
  match find "status" h with
  | Some status =>
      match attr "state" status with
      | None => false
      | Some s => negb (s =? "up")
      end
  | None => false
  end.

(** Lines 302-306: the [addr] attribute of the first address of type ipv4
    or ipv6. *)
Fixpoint xml_host_ip_in (addrs : list Element) : option string :=
  match addrs with
  | [] => None
  | addr :: addrs' =>
      match attr "addrtype" addr with
      | Some t =>
          if (t =? "ipv4") || (t =? "ipv6") then attr "addr" addr
          else xml_host_ip_in addrs'
      | None => xml_host_ip_in addrs'
      end
  end.

Definition xml_host_ip (h : Element) : option string :=
  xml_host_ip_in (findall "address" h).

(** Lines 310-315 *)
Definition xml_host_name (h : Element) : option string :=
  match find "hostnames" h with
  | Some hn =>
      match findall "hostname" hn with
      | first :: _ => attr "name" first
      | [] => None
      end
  | None => None
  end.

(** Lines 325-329: the accuracy of one osmatch candidate. *)
Definition osmatch_accuracy (m : Element) : Z :=
  match py_int (attr_default "accuracy" "0" m) with
  | Some acc => acc
  | None => 0%Z
  end.

(** Lines 322-332: the loop over the candidates, from [best = None] and
    [best_acc = -1]. *)
Definition best_osmatch (ms : list Element) : option Element * Z :=
  fold_left
    (fun (st : option Element * Z) m =>
       let acc := osmatch_accuracy m in
       if (acc >? snd st)%Z then (Some m, acc) else st)
    ms (None, (-1)%Z).

(** Lines 318-335 *)
Definition xml_host_os (h : Element) : option string * option Z :=
  match find "os" h with
  | Some os_el =>
      match best_osmatch (findall "osmatch" os_el) with
      | (Some best, best_acc) =>
          (or_none (strip (match attr "name" best with
                           | Some n => n
                           | None => ""
                           end)),
           if (best_acc >=? 0)%Z then Some best_acc else None)
      | (None, _) => (None, None)
      end
  | None => (None, None)
  end.

(** Lines 341-355: the descriptor of one port element, if it is open. *)
Definition xml_port (p : Element) : option string :=
  let proto := attr_or "protocol" "tcp" p in
  let portid := attr_or "portid" "?" p in
  match find "state" p with
  | None => None
  | Some st =>
      match attr "state" st with
      | Some "open" =>
          let svc := find "service" p in
          let svc_name :=
            match svc with
            | Some s => attr_or "name" "unknown" s
            | None => "unknown"
            end in
          let extra :=
            match svc with
            | Some s =>
                flat_map
                  (fun k => match attr k s with
                            | Some v => if v =? "" then [] else [v]
                            | None => []
                            end)
                  ["product"; "version"; "extrainfo"]
            | None => []
            end in
          let tail :=
            match extra with
            | [] => ""
            | _ => (" " ++ join " " extra)%string
            end in
          Some (strip (portid ++ "/" ++ proto ++ " " ++ svc_name ++ tail)%string)
      | _ => None
      end
  end.

Definition xml_host_ports (h : Element) : list string :=
  match find "ports" h with
  | Some ports_el => filter_map xml_port (findall "port" ports_el)
  | None => []
  end.

(** One iteration of [for h in root.findall("host")]: the record appended
    to [hosts], or [None] where the loop body ends in [continue]. *)
Definition xml_host (h : Element) : option Host :=
  if xml_host_down h then None
  else
    match xml_host_ip h with
    | None => None
    | Some ip =>
        if ip =? "" then None
        else
          let (os_guess, os_accuracy) := xml_host_os h in
          Some (mkHost ip (xml_host_name h) (xml_host_ports h)
                       os_guess os_accuracy)
    end.

(** [parse_nmap_xml] from the parsed document on. *)
Definition parse_nmap_xml_tree (root : Element) : list Host :=
  merge_hosts_by_ip (filter_map xml_host (findall "host" root)).

(** *** Format detection *)

Inductive Grammar : Type := XmlGrammar | GrepableGrammar | NormalGrammar.

Section TopLevel.

(** [ET.fromstring]; [None] stands for the exception raised on malformed
    XML. *)
Variable ET_fromstring : string -> option Element.

Definition parse_nmap_xml (text : string) : option (list Host) :=
  option_map parse_nmap_xml_tree (ET_fromstring text).

(** [parse_nmap]; [None] is the exception raised by the parser that
    runs. *)
Definition parse_nmap (text0 : string) : option (list Host) :=
  let text := replace_crlf text0 in
  if _looks_like_xml text then parse_nmap_xml text
  else if _looks_like_grepable text then
    hosts <- parse_nmap_grepable text ;;
    match hosts with
    | [] => parse_nmap_normal text
    | _ => Some hosts
    end
  else parse_nmap_normal text.

End TopLevel.

(** The grammar parsers that [parse_nmap] calls, in call order; the
    line-oriented parser follows the grepable one when that one returns no
    host. *)
Definition parse_nmap_attempts (text0 : string) : list Grammar :=
  let text := replace_crlf text0 in
  if _looks_like_xml text then [XmlGrammar]
  else if _looks_like_grepable text then
    match parse_nmap_grepable text with
    | Some [] => [GrepableGrammar; NormalGrammar]
    | _ => [GrepableGrammar]
    end
  else [NormalGrammar].

(** Some line of the text, as the grepable parser reads it, matches
    [_RE_GREPPABLE_HOST]. *)
Definition has_strict_grepable_line (text : string) : bool :=
  existsb
    (fun line =>
       match re_match _RE_GREPPABLE_HOST (strip line) with
       | Some _ => true
       | None => false
       end)
    (splitlines text).

(** ** Host properties *)

Definition NL : string := String LF "".

Definition display_label (h : Host) : string :=
  match name h with
  | Some n =>
      if negb (n =? "") && negb (n =? ip h) then (n ++ NL ++ ip h)%string
      else ip h
  | None => ip h
  end.

(** Lines 137-151; [None] stands for the [ValueError] raised when the
    accuracy formatted at line 141 has more than [int_max_str_digits]
    digits. *)
Definition tooltip_text (h : Host) : option string :=
  os_line <-
    match os_guess h with
    | Some g =>
        if g =? "" then Some "OS: Unknown"
        else
          acc <- match os_accuracy h with
                 | Some a =>
                     digits <- py_str a ;;
                     Some (" (" ++ digits ++ "%)")%string
                 | None => Some ""
                 end ;;
          Some ("OS: " ++ g ++ acc)%string
    | None => Some "OS: Unknown"
    end ;;
  let port_lines :=
    match ports h with
    | [] => ["No open ports parsed"]
    | ps => "Open ports:" :: ps
    end in
  Some (join NL (os_line :: port_lines)).

(** ** Shape mapping and device inference *)

(** "^(\d+)/" *)
Definition RE_PORT_PREFIX : re :=
  seqs [Bol false; Group 1 (plus digit); ch "/"].

(** "printer|ipp", "\bsip\b", "\brtsp\b", "\brdp\b", "\bsmb\b", all
    IGNORECASE *)
Definition RE_PRINTER : re := Alt (lit_ci "printer") (lit_ci "ipp").
Definition RE_SIP : re := seqs [WordB; lit_ci "sip"; WordB].
Definition RE_RTSP : re := seqs [WordB; lit_ci "rtsp"; WordB].
Definition RE_RDP : re := seqs [WordB; lit_ci "rdp"; WordB].
Definition RE_SMB : re := seqs [WordB; lit_ci "smb"; WordB].

(** Lines 419-423: the loop over the port descriptors [es]; [None] stands
    for the [ValueError] that [int()] raises at line 421 on a port number of
    more than [int_max_str_digits] digits, when no earlier descriptor has
    port [p]. *)
Fixpoint has_port_in (es : list string) (p : Z) : option bool :=
  match es with
  | [] => Some false
  | e :: es' =>
      match re_match RE_PORT_PREFIX e with
      | Some cs =>
          v <- py_int (group_str 1 cs) ;;
          if (v =? p)%Z then Some true else has_port_in es' p
      | None => has_port_in es' p
      end
  end.

Definition has_port (host : Host) (p : Z) : option bool :=
  has_port_in (ports host) p.

(** [a or b] on two tests that may raise: [b] is evaluated when [a] is
    false. *)
Definition or_else (a b : option bool) : option bool :=
  x <- a ;; if x then Some true else b.

Definition has_service (host : Host) (rx : re) : bool :=
  existsb
    (fun e => match re_search rx e with Some _ => true | None => false end)
    (ports host).

(** Lines 415-460; [None] stands for the [ValueError] raised by
    [has_port]. *)
Definition infer_device_type (host : Host) : option string :=
  let osn := lower (match os_guess host with Some g => g | None => "" end) in
  let by_os_family :=
    if contains "windows" osn then "workstation"
    else if contains "linux" osn || contains "unix" osn then "server"
    else "unknown" in
  if contains "firewall" osn then Some "firewall"
  else if contains "router" osn || contains "cisco ios" osn
          || contains "juniper" osn then Some "router"
  else if contains "switch" osn then Some "switch"
  else if contains "wireless" osn || contains "access point" osn
  then Some "wireless_ap"
  else
    printer <- or_else (has_port host 9100)
                 (or_else (has_port host 631)
                    (or_else (has_port host 515)
                       (Some (has_service host RE_PRINTER)))) ;;
    if printer then Some "printer"
    else
    ip_phone <- or_else (has_port host 5060)
                  (or_else (has_port host 5061)
                     (Some (has_service host RE_SIP))) ;;
    if ip_phone then Some "ip_phone"
    else
    camera <- or_else (has_port host 554) (Some (has_service host RE_RTSP)) ;;
    if camera then Some "camera"
    else
    rdp <- or_else (has_port host 3389) (Some (has_service host RE_RDP)) ;;
    if rdp then
      Some (if contains "server" osn then "server" else "workstation")
    else
    smb <- or_else (has_port host 445) (Some (has_service host RE_SMB)) ;;
    if smb then
      Some (if contains "server" osn then "server"
            else if contains "windows" osn then "workstation"
            else by_os_family)
    else Some by_os_family.

Definition SHAPES : PyDict.t string :=
  [ ("network", "mxgraph.mscae.enterprise.internet")
  ; ("router", "mxgraph.mscae.enterprise.router")
  ; ("switch", "mxgraph.mscae.enterprise.device")
  ; ("firewall", "mxgraph.cisco_safe.security_icons.firewall")
  ; ("wireless_ap", "mxgraph.ios7.icons.wifi")
  ; ("server", "mxgraph.mscae.enterprise.server_generic")
  ; ("workstation", "mxgraph.mscae.enterprise.workstation_client")
  ; ("printer", "mxgraph.cisco19.printer")
  ; ("ip_phone", "mxgraph.cisco19.ip_phone")
  ; ("camera", "mxgraph.aws4.camera2")
  ; ("unknown", "mxgraph.mscae.enterprise.device") ].

Definition style_for_device (device_type : string) : string :=
  let shape :=
    match PyDict.get device_type SHAPES with
    | Some s => s
    | None => "mxgraph.mscae.enterprise.device"
    end in
  ("shape=" ++ shape ++ ";" ++ "html=1;" ++ "whiteSpace=wrap;"
   ++ "align=center;" ++ "verticalAlign=middle;" ++ "strokeWidth=1;")%string.

(** ** Floating point: binary64, rounding to nearest even

    Python floats are the binary64 numbers of [SpecFloat].  An operation
    that raises in Python ([OverflowError], [ValueError]) yields [None]. *)

Definition float : Type := spec_float.
Definition prec : Z := 53.
Definition emax : Z := 1024.

Definition fmul : float -> float -> float := SFmul prec emax.
Definition fadd : float -> float -> float := SFadd prec emax.
Definition fsub : float -> float -> float := SFsub prec emax.
Definition fdiv : float -> float -> float := SFdiv prec emax.
Definition fsqrt : float -> float := SFsqrt prec emax.

Definition is_finite (x : float) : bool :=
  match x with
  | S754_zero _ | S754_finite _ _ _ => true
  | _ => false
  end.

(** The number nearest to an integer; exact below 2^53. *)
Definition round_int (z : Z) : float := binary_normalize prec emax z 0 false.

(** [float(z)] as the arithmetic of [int] with [float] performs it;
    [OverflowError] when the integer is too large. *)
Definition float_of_int (z : Z) : option float :=
  let x := round_int z in if is_finite x then Some x else None.

(** [a / b] on two integers, [b] positive and [a] not negative: the quotient
    rounded once. *)
Definition int_truediv (a b : Z) : option float :=
  match a, b with
  | Z0, Zpos _ => Some (S754_zero false)
  | Zpos ma, Zpos mb =>
      let q := SFdiv prec emax (S754_finite false ma 0)
                     (S754_finite false mb 0) in
      if is_finite q then Some q else None
  | _, _ => None
  end.

(** The integer value [m * 2^e] divided with [div]. *)
Definition scaled (div : Z -> Z -> Z) (v e : Z) : Z :=
  match e with
  | Z0 => v
  | Zpos p => (v * 2 ^ Zpos p)%Z
  | Zneg p => div v (2 ^ Zpos p)%Z
  end.

(** [math.ceil(x)] *)
Definition fceil (x : float) : option Z :=
  match x with
  | S754_zero _ => Some 0%Z
  | S754_finite s m e =>
      let v := if s then Zneg m else Zpos m in
      Some (scaled (fun a d => (- ((- a) / d))%Z) v e)
  | _ => None
  end.

(** [int(x)]: truncation toward zero. *)
Definition ftrunc (x : float) : option Z :=
  match x with
  | S754_zero _ => Some 0%Z
  | S754_finite s m e =>
      let v := if s then Zneg m else Zpos m in
      Some (scaled Z.quot v e)
  | _ => None
  end.

(** The literals [1.0], [0.85], [0.7] and [0.6]. *)
Definition f_1_0 : float := S754_finite false 4503599627370496 (-52).
Definition f_0_85 : float := S754_finite false 7656119366529843 (-53).
Definition f_0_7 : float := S754_finite false 6305039478318694 (-53).
Definition f_0_6 : float := S754_finite false 5404319552844595 (-53).

(** ** The layout engine *)

Record Layout : Type := mkLayout
  { cols : Z
  ; rows : Z
  ; node_w : float
  ; node_h : float
  ; h_gap : float
  ; v_gap : float }.

(** The scale chosen by the three tests on [n], each overriding the
    previous one. *)
Definition layout_scale (n : Z) : float :=
  let scale := f_1_0 in
  let scale := if (n >? 30)%Z then f_0_85 else scale in
  let scale := if (n >? 80)%Z then f_0_7 else scale in
  let scale := if (n >? 150)%Z then f_0_6 else scale in
  scale.

(** [compute_layout]; the integer sizes of the [n <= 0] case are given as
    the floats equal to them. *)
Definition compute_layout (n : Z) : option Layout :=
  if (n <=? 0)%Z then
    Some (mkLayout 1 1 (round_int 160) (round_int 70) (round_int 40)
                   (round_int 40))
  else
    fn <- float_of_int n ;;
    c <- fceil (fsqrt fn) ;;
    let cols := Z.max 1 c in
    q <- int_truediv n cols ;;
    r <- fceil q ;;
    let rows := Z.max 1 r in
    let scale := layout_scale n in
    Some (mkLayout cols rows (fmul (round_int 160) scale)
                   (fmul (round_int 70) scale) (fmul (round_int 40) scale)
                   (fmul (round_int 40) scale)).

(** ** Draw.io document generation *)

Definition DQ : string := String (ascii_of_N 34) "".

(** [html.escape(s)] *)
Fixpoint html_escape (s : string) : string :=
  match s with
  | EmptyString => EmptyString
  | String c t =>
      let t' := html_escape t in
      if is_code 38 c then ("&amp;" ++ t')%string
      else if is_code 60 c then ("&lt;" ++ t')%string
      else if is_code 62 c then ("&gt;" ++ t')%string
      else if is_code 34 c then ("&quot;" ++ t')%string
      else if is_code 39 c then ("&#x27;" ++ t')%string
      else String c t'
  end.

(** [s.replace("\n", r)] *)
Fixpoint replace_newlines (r : string) (s : string) : string :=
  match s with
  | EmptyString => EmptyString
  | String c t =>
      if is_code 10 c then (r ++ replace_newlines r t)%string
      else String c (replace_newlines r t)
  end.

Definition html_label_with_tooltip (label_text tooltip : string) : string :=
  let safe_label := replace_newlines "<br/>" (html_escape label_text) in
  let safe_tip := replace_newlines "&#10;" (html_escape tooltip) in
  ("<div title=" ++ DQ ++ safe_tip ++ DQ ++ " style=" ++ DQ
   ++ "text-align:center;" ++ DQ ++ ">"
   ++ "<span style=" ++ DQ ++ "display:inline-block;"
   ++ "background:#000000;" ++ "color:#00CC66;" ++ "padding:3px 8px;"
   ++ "border-radius:6px;" ++ "font-size:18px;" ++ "font-weight:600;"
   ++ "line-height:1.2;" ++ DQ ++ ">" ++ safe_label ++ "</span>"
   ++ "</div>")%string.

(** The registered sign is code point 174. *)
Definition BRANDING_TEXT : string :=
  ("Network Maps: nmap to draw.io by CompSec Direct"
   ++ String (ascii_of_N 174) " CompSecDirect.com")%string.

Definition branding_html (text : string) : string :=
  let safe_text := html_escape text in
  ("<div style=" ++ DQ ++ "text-align:left;" ++ DQ ++ ">"
   ++ "<span style=" ++ DQ ++ "display:inline-block;"
   ++ "background:#000000;" ++ "color:#0197FF;" ++ "padding:0px 0px;"
   ++ "border-radius:6px;" ++ "font-size:10px;" ++ "font-weight:600;"
   ++ "line-height:1.2;" ++ DQ ++ ">" ++ safe_text
   ++ "</span></div>")%string.

(** [enumerate(xs)] *)
Definition enumerate {A : Type} (xs : list A) : list (Z * A) :=
  combine (map Z.of_nat (seq 0 (List.length xs))) xs.

(** [range(n)] *)
Definition range (n : nat) : list Z := map Z.of_nat (seq 0 n).

(** [z * x] and [z + x] for an integer [z] and a float [x]. *)
Definition int_mul_float (z : Z) (x : float) : option float :=
  fz <- float_of_int z ;; Some (fmul fz x).

Definition int_add_float (z : Z) (x : float) : option float :=
  fz <- float_of_int z ;; Some (fadd fz x).

(** The state of [build_drawio]: the counter, the two maps keyed by the
    position of a host, and the children of [root] in emission order. *)
Record Builder : Type := mkBuilder
  { next_id : Z
  ; host_id_map : list string
  ; host_geom_map : list (Z * Z)
  ; root : list Element }.

(** [ET.SubElement(root, tag, attrib)] followed by the creation of its
    geometry child. *)
Definition emit (b : Builder) (cell : Element) : Builder :=
  mkBuilder (next_id b) (host_id_map b) (host_geom_map b) (root b ++ [cell]).

Definition mxCell (attrib geometry : list (string * string)) : Element :=
  Elem "mxCell" attrib [Elem "mxGeometry" geometry []].

Definition EDGE_STYLE : string :=
  "edgeStyle=orthogonalEdgeStyle;rounded=0;orthogonalLoop=1;jettySize=auto;html=1;endArrow=none;".

Section Builder.

(** The logo constant, and the result of [str(uuid.uuid4())]. *)
Variable LOGO_PNG_B64 : string.
Variable diagram_id : string.

Definition LOGO_DATA_URI : string := ("data:image/png," ++ LOGO_PNG_B64)%string.

Definition branding_style : string :=
  ("shape=image;image=" ++ LOGO_DATA_URI ++ ";aspect=fixed;imageAspect=0;"
   ++ "html=1;whiteSpace=wrap;"
   ++ "labelPosition=right;verticalLabelPosition=middle;"
   ++ "align=left;verticalAlign=middle;" ++ "spacingLeft=0;"
   ++ "strokeColor=none;fillColor=none;")%string.

(** The first loop over the hosts: ids and positions. *)
Definition allocate (lay : Layout) (margin start_y : Z) (b : Builder)
    (ih : Z * Host) : option Builder :=
  let i := fst ih in
  let r := (i / cols lay)%Z in
  let c := (i mod cols lay)%Z in
  cx <- int_mul_float c (fadd (node_w lay) (h_gap lay)) ;;
  x <- int_add_float margin cx ;;
  ry <- int_mul_float r (fadd (node_h lay) (v_gap lay)) ;;
  y <- int_add_float start_y ry ;;
  xi <- ftrunc x ;;
  yi <- ftrunc y ;;
  Some (mkBuilder (next_id b + 1)
                  (host_id_map b ++ [str_of_Z (next_id b)])
                  (host_geom_map b ++ [(xi, yi)])
                  (root b)).

(** The loop that writes the edges. *)
Definition edge_cell (edge_id network_id target : string) : Element :=
  mxCell
    [ ("id", edge_id); ("value", ""); ("style", EDGE_STYLE); ("edge", "1")
    ; ("parent", "1"); ("source", network_id); ("target", target) ]
    [ ("relative", "1"); ("as", "geometry") ].

Definition add_edge (network_id : string) (b : Builder) (i : Z)
    : option Builder :=
  target <- nth_error (host_id_map b) (Z.to_nat i) ;;
  let edge_id := str_of_Z (next_id b) in
  let b := mkBuilder (next_id b + 1) (host_id_map b) (host_geom_map b)
                     (root b) in
  Some (emit b (edge_cell edge_id network_id target)).

Definition brand_cell (branding_id : string) : Element :=
  mxCell
    [ ("id", branding_id); ("value", branding_html BRANDING_TEXT)
    ; ("style", branding_style); ("vertex", "1"); ("parent", "1") ]
    [ ("x", "10"); ("y", "10"); ("width", "180"); ("height", "101")
    ; ("as", "geometry") ].

Definition net_cell (network_id : string) (n margin hub_x : Z) : Element :=
  mxCell
    [ ("id", network_id)
    ; ("value",
       html_label_with_tooltip "Network" (str_of_Z n ++ " host(s)")%string)
    ; ("style", (style_for_device "network" ++ "aspect=fixed;")%string)
    ; ("vertex", "1"); ("parent", "1") ]
    [ ("x", str_of_Z hub_x); ("y", str_of_Z margin); ("width", "90")
    ; ("height", "60"); ("as", "geometry") ].

(** Lines 678-704: the vertex of host [h]; [None] stands for the
    [ValueError] raised by [infer_device_type] or by [tooltip_text]. *)
Definition host_cell (cell_id : string) (h : Host) (x y w ht : Z)
    : option Element :=
  dev_type <- infer_device_type h ;;
  tooltip <- tooltip_text h ;;
  Some
    (mxCell
       [ ("id", cell_id)
       ; ("value", html_label_with_tooltip (display_label h) tooltip)
       ; ("style", style_for_device dev_type)
       ; ("vertex", "1"); ("parent", "1") ]
       [ ("x", str_of_Z x); ("y", str_of_Z y); ("width", str_of_Z w)
       ; ("height", str_of_Z ht); ("as", "geometry") ]).

(** The last loop: one vertex per host. *)
Definition add_host (lay : Layout) (b : Builder) (ih : Z * Host)
    : option Builder :=
  let i := Z.to_nat (fst ih) in
  cell_id <- nth_error (host_id_map b) i ;;
  xy <- nth_error (host_geom_map b) i ;;
  w <- ftrunc (node_w lay) ;;
  ht <- ftrunc (node_h lay) ;;
  cell <- host_cell cell_id (snd ih) (fst xy) (snd xy) w ht ;;
  Some (emit b cell).

Definition build_drawio (hosts : list Host) (page_name : string)
    (add_network_node : bool) : option Element :=
  let n := Z.of_nat (List.length hosts) in
  lay <- compute_layout n ;;
  let margin := 50%Z in
  let top_extra := if add_network_node then 130%Z else 40%Z in
  cw <- int_mul_float (cols lay) (node_w lay) ;;
  cg <- int_mul_float (cols lay - 1) (h_gap lay) ;;
  let width := fadd (fadd (round_int (margin * 2)) cw) cg in
  rh <- int_mul_float (rows lay) (node_h lay) ;;
  rg <- int_mul_float (rows lay - 1) (v_gap lay) ;;
  let height := fadd (fadd (round_int (margin * 2 + top_extra)) rh) rg in
  page_w <- fceil width ;;
  page_h <- fceil height ;;
  let b :=
    mkBuilder 2 [] []
      [ Elem "mxCell" [("id", "0")] []
      ; Elem "mxCell" [("id", "1"); ("parent", "0")] [] ] in
  let branding_id := str_of_Z (next_id b) in
  let b := mkBuilder (next_id b + 1) [] [] (root b) in
  let network_id :=
    if add_network_node then Some (str_of_Z (next_id b)) else None in
  let b :=
    if add_network_node then mkBuilder (next_id b + 1) [] [] (root b)
    else b in
  let start_y :=
    (margin + (if add_network_node then 90 else 0) + 40)%Z in
  b <- for_each (enumerate hosts) (allocate lay margin start_y) b ;;
  b <- match network_id with
       | Some nid =>
           if add_network_node
           then for_each (range (List.length hosts)) (add_edge nid) b
           else Some b
       | None => Some b
       end ;;
  let b := emit b (brand_cell branding_id) in
  b <- match network_id with
       | Some nid =>
           if add_network_node then
             hub_x <- ftrunc (fsub (fdiv width (round_int 2))
                                   (round_int 45)) ;;
             Some (emit b (net_cell nid n margin hub_x))
           else Some b
       | None => Some b
       end ;;
  b <- for_each (enumerate hosts) (add_host lay) b ;;
  Some
    (Elem "mxfile"
       [ ("host", "app.diagrams.net"); ("modified", "")
       ; ("agent", "nmap2drawio.py"); ("version", "22.0.8")
       ; ("type", "device") ]
       [ Elem "diagram" [("id", diagram_id); ("name", page_name)]
           [ Elem "mxGraphModel"
               [ ("dx", "1200"); ("dy", "800"); ("grid", "1")
               ; ("gridSize", "10"); ("guides", "1"); ("tooltips", "1")
               ; ("connect", "1"); ("arrows", "1"); ("fold", "1")
               ; ("page", "1"); ("pageScale", "1")
               ; ("pageWidth", str_of_Z (Z.max 850 page_w))
               ; ("pageHeight", str_of_Z (Z.max 1100 page_h))
               ; ("math", "0"); ("shadow", "0") ]
               [ Elem "root" [] (root b) ] ] ]).

End Builder.

(** The children of the [root] element of a document, in emission order. *)
Definition emitted (doc : Element) : list Element :=
  match doc with
  | Elem _ _ [Elem _ _ [Elem _ _ [Elem _ _ cells]]] => cells
  | _ => []
  end.

(** * Verified properties *)

(** ** Loops that may raise *)

Lemma bind_some {A B : Type} (o : option A) (f : A -> option B) (b : B) :
  bind o f = Some b -> exists a, o = Some a /\ f a = Some b.
Proof. destruct o as [a|]; simpl; [eauto | discriminate]. Qed.

Lemma for_each_none {S A : Type} (xs : list A) (body : S -> A -> option S) :
  fold_left (fun acc x => bind acc (fun st => body st x)) xs None = None.
Proof. induction xs as [|x xs IH]; simpl; [reflexivity | exact IH]. Qed.

Lemma for_each_cons {S A : Type} (x : A) (xs : list A)
    (body : S -> A -> option S) (s : S) :
  for_each (x :: xs) body s = bind (body s x) (fun s' => for_each xs body s').
Proof.
  unfold for_each. simpl. destruct (body s x) as [s'|]; simpl;
    [reflexivity | apply for_each_none].
Qed.

(** ** Strings as keys *)

Lemma str_in_In (p : string) (xs : list string) :
  str_in p xs = true <-> In p xs.
Proof.
  induction xs as [|x xs IH]; simpl.
  - split; [discriminate | tauto].
  - rewrite orb_true_iff, IH, String.eqb_eq. split; intros [H|H]; auto.
Qed.

Lemma str_in_not_In (p : string) (xs : list string) :
  str_in p xs = false <-> ~ In p xs.
Proof.
  rewrite <- str_in_In. destruct (str_in p xs); split; congruence.
Qed.

Lemma str_in_app (p : string) (xs ys : list string) :
  str_in p (xs ++ ys) = str_in p xs || str_in p ys.
Proof.
  induction xs as [|x xs IH]; simpl; [reflexivity|].
  now rewrite IH, orb_assoc.
Qed.

(** ** The OS-guess update rule (C3) *)

(** The acceptance condition in the words of the specification: the new
    accuracy is known, and the existing accuracy is unknown or strictly
    smaller.  A candidate without a usable guess is never applied. *)
Definition guess_accepted_spec (current : Host) (guess : option string)
    (acc : option Z) : bool :=
  truthy guess &&
  match acc with
  | None => false
  | Some a =>
      match os_accuracy current with
      | None => true
      | Some e => (e <? a)%Z
      end
  end.

Lemma maybe_set_os_accepts (h : Host) (guess : option string)
    (acc : option Z) :
  os_guess h <> None ->
  _maybe_set_os h guess acc =
    if guess_accepted_spec h guess acc then set_os h guess acc else h.
Proof.
  intros Hg. unfold _maybe_set_os, guess_accepted_spec.
  destruct (truthy guess); simpl; [|reflexivity].
  destruct (os_guess h) as [g|]; [|congruence].
  destruct acc as [a|]; [|reflexivity].
  destruct (os_accuracy h) as [e|]; [|reflexivity].
  now rewrite Z.gtb_ltb.
Qed.

Lemma maybe_set_os_keeps_guess (h : Host) (guess : option string)
    (acc : option Z) :
  os_guess h <> None -> os_guess (_maybe_set_os h guess acc) <> None.
Proof.
  intros Hg. rewrite maybe_set_os_accepts by assumption.
  unfold guess_accepted_spec.
  destruct guess as [g|]; simpl; [|assumption].
  destruct (negb (g =? "")); simpl; [|assumption].
  destruct acc as [a|]; [|assumption].
  destruct (os_accuracy h) as [e|]; [destruct (e <? a)%Z|];
    simpl; try assumption; discriminate.
Qed.

Lemma maybe_set_os_accuracy_grows (h : Host) (guess : option string)
    (acc : option Z) (a : Z) :
  os_guess h <> None -> os_accuracy h = Some a ->
  exists b, os_accuracy (_maybe_set_os h guess acc) = Some b /\ (a <= b)%Z.
Proof.
  intros Hg Ha. rewrite maybe_set_os_accepts by assumption.
  unfold guess_accepted_spec. rewrite Ha.
  destruct (truthy guess); simpl; [|exists a; split; [assumption|lia]].
  destruct acc as [n|]; [|exists a; split; [assumption|lia]].
  destruct (Z.ltb_spec a n); simpl.
  - exists n. split; [reflexivity|lia].
  - exists a. split; [assumption|lia].
Qed.

Lemma apply_guesses_accuracy_grows (us : list (option string * option Z)) :
  forall (h : Host) (a : Z),
    os_guess h <> None -> os_accuracy h = Some a ->
    exists b, os_accuracy (apply_guesses h us) = Some b /\ (a <= b)%Z.
Proof.
  induction us as [|[g c] us IH]; intros h a Hg Ha; simpl.
  - exists a. split; [assumption|lia].
  - destruct (maybe_set_os_accuracy_grows h g c a Hg Ha) as (b & Hb & Hab).
    destruct (IH (_maybe_set_os h g c) b
                 (maybe_set_os_keeps_guess h g c Hg) Hb) as (b' & Hb' & Hbb').
    exists b'. split; [exact Hb'|lia].
Qed.

(** C3: on a host that holds a guess, [_maybe_set_os] applies a candidate
    exactly when its accuracy is known and the existing accuracy is unknown
    or strictly smaller (the record is left as it is otherwise); hence, once
    the host holds a guess with an accuracy, the accuracy recorded after any
    further sequence of updates is at least as large. *)
Theorem maybe_set_os_rule_and_monotone (h : Host) :
  os_guess h <> None ->
  (forall guess acc,
      _maybe_set_os h guess acc =
        if guess_accepted_spec h guess acc then set_os h guess acc else h)
  /\
  (forall a us,
      os_accuracy h = Some a ->
      exists b, os_accuracy (apply_guesses h us) = Some b /\ (a <= b)%Z).
Proof.
  intros Hg. split.
  - intros guess acc. now apply maybe_set_os_accepts.
  - intros a us Ha. now apply apply_guesses_accuracy_grows.
Qed.

Definition host_linux_90 : Host :=
  mkHost "10.0.0.1" None [] (Some "Linux 5.4") (Some 90%Z).

Lemma maybe_set_os_rule_and_monotone_witness :
  os_guess host_linux_90 <> None /\
  (forall guess acc,
      _maybe_set_os host_linux_90 guess acc =
        if guess_accepted_spec host_linux_90 guess acc
        then set_os host_linux_90 guess acc else host_linux_90)
  /\
  (forall a us,
      os_accuracy host_linux_90 = Some a ->
      exists b, os_accuracy (apply_guesses host_linux_90 us) = Some b
                /\ (a <= b)%Z).
Proof.
  split; [discriminate|].
  apply (maybe_set_os_rule_and_monotone host_linux_90). discriminate.
Defined.

(** ** The dictionary *)

Lemma dict_get_none {V : Type} (k : string) (d : PyDict.t V) :
  PyDict.get k d = None <-> str_in k (PyDict.keys d) = false.
Proof.
  induction d as [|[k' v] d IH]; simpl; [tauto|].
  destruct (k =? k'); simpl; [split; discriminate | exact IH].
Qed.

Lemma dict_get_some_in {V : Type} (k : string) (v : V) (d : PyDict.t V) :
  PyDict.get k d = Some v -> In (k, v) d.
Proof.
  induction d as [|[k' v'] d IH]; simpl; [discriminate|].
  destruct (String.eqb_spec k k') as [->|Hne].
  - intros [= ->]. now left.
  - intros H. right. now apply IH.
Qed.

Lemma dict_set_absent {V : Type} (k : string) (v : V) (d : PyDict.t V) :
  str_in k (PyDict.keys d) = false -> PyDict.set k v d = d ++ [(k, v)].
Proof.
  induction d as [|[k' v'] d IH]; simpl; [reflexivity|].
  destruct (k =? k'); simpl; [discriminate|].
  intros H. now rewrite IH.
Qed.

Lemma dict_set_present_keys {V : Type} (k : string) (v : V)
    (d : PyDict.t V) :
  str_in k (PyDict.keys d) = true ->
  PyDict.keys (PyDict.set k v d) = PyDict.keys d.
Proof.
  induction d as [|[k' v'] d IH]; simpl; [discriminate|].
  destruct (k =? k'); simpl; [reflexivity|].
  intros H. now rewrite IH.
Qed.

Lemma dict_set_in {V : Type} (k : string) (v : V) (d : PyDict.t V)
    (kv : string * V) :
  In kv (PyDict.set k v d) -> In kv d \/ snd kv = v.
Proof.
  induction d as [|[k' v'] d IH]; simpl.
  - intros [<-|[]]. now right.
  - destruct (k =? k'); simpl.
    + intros [<-|H]; [now right | left; now right].
    + intros [<-|H]; [left; now left|].
      destruct (IH H) as [H'|H']; [left; now right | now right].
Qed.

Lemma dict_set_in_key {V : Type} (k : string) (v : V) (d : PyDict.t V)
    (kv : string * V) :
  In kv (PyDict.set k v d) -> In kv d \/ kv = (k, v).
Proof.
  induction d as [|[k' v'] d IH]; simpl.
  - intros [<-|[]]. now right.
  - destruct (String.eqb_spec k k') as [->|Hne]; simpl.
    + intros [<-|H]; [now right | left; now right].
    + intros [<-|H]; [left; now left|].
      destruct (IH H) as [H'|H']; [left; now right | now right].
Qed.

(** ** The merge engine (C1, C6) *)

(** Every entry of the dictionary is filed under its own address. *)
Definition keyed_by_ip (d : PyDict.t Host) : Prop :=
  forall kv, In kv d -> fst kv = ip (snd kv).

Lemma merge_ports_ip (ps : list string) :
  forall e, ip (merge_ports e ps) = ip e.
Proof.
  unfold merge_ports.
  induction ps as [|p ps IH]; intros e; simpl; [reflexivity|].
  rewrite IH. now destruct (str_in p (ports e)).
Qed.

(** The record written back for a repeated address keeps that address. *)
Lemma merge_step_keys (d : PyDict.t Host) (h : Host) :
  PyDict.keys (merge_step d h) =
    if str_in (ip h) (PyDict.keys d) then PyDict.keys d
    else PyDict.keys d ++ [ip h].
Proof.
  unfold merge_step.
  destruct (PyDict.get (ip h) d) as [existing|] eqn:Hget.
  - assert (Hin : str_in (ip h) (PyDict.keys d) = true).
    { destruct (str_in (ip h) (PyDict.keys d)) eqn:E; [reflexivity|].
      apply dict_get_none in E. congruence. }
    rewrite Hin. now apply dict_set_present_keys.
  - apply dict_get_none in Hget. rewrite Hget.
    rewrite dict_set_absent by assumption.
    unfold PyDict.keys. now rewrite map_app.
Qed.

Lemma merge_step_keyed (d : PyDict.t Host) (h : Host) :
  keyed_by_ip d -> keyed_by_ip (merge_step d h).
Proof.
  intros Hd kv Hin. unfold merge_step in Hin.
  destruct (PyDict.get (ip h) d) as [existing|] eqn:Hget.
  - apply dict_set_in_key in Hin. destruct Hin as [Hin| ->]; [now apply Hd|].
    simpl. rewrite merge_ports_ip.
    pose proof (Hd _ (dict_get_some_in _ _ _ Hget)) as He. simpl in He.
    destruct (negb (truthy (name existing)) && truthy (name h));
      destruct (truthy (os_guess h)); simpl; try assumption;
      destruct (os_guess existing); simpl; try assumption;
      destruct (os_accuracy h); simpl; try assumption;
      destruct (os_accuracy existing); simpl; try assumption;
      match goal with |- context [if ?b then _ else _] => destruct b end;
      simpl; assumption.
  - apply dict_set_in_key in Hin. destruct Hin as [Hin| ->]; [now apply Hd|].
    reflexivity.
Qed.

Lemma merge_fold_keys (hosts : list Host) :
  forall d,
    PyDict.keys (fold_left merge_step hosts d) =
      PyDict.keys d ++ first_seen (PyDict.keys d) (map ip hosts).
Proof.
  induction hosts as [|h hosts IH]; intros d; simpl.
  - now rewrite app_nil_r.
  - rewrite IH, merge_step_keys.
    destruct (str_in (ip h) (PyDict.keys d)); [reflexivity|].
    now rewrite <- app_assoc.
Qed.

Lemma merge_fold_keyed (hosts : list Host) :
  forall d, keyed_by_ip d -> keyed_by_ip (fold_left merge_step hosts d).
Proof.
  induction hosts as [|h hosts IH]; intros d Hd; simpl; [assumption|].
  apply IH. now apply merge_step_keyed.
Qed.

Lemma keyed_values_ip (d : PyDict.t Host) :
  keyed_by_ip d -> map ip (PyDict.values d) = PyDict.keys d.
Proof.
  unfold PyDict.values, PyDict.keys. intros Hd. rewrite map_map.
  apply map_ext_in. intros kv Hin. symmetry. now apply Hd.
Qed.

Lemma first_seen_in (l : list string) :
  forall seen a, In a (first_seen seen l) <-> In a l /\ ~ In a seen.
Proof.
  induction l as [|x l IH]; intros seen a; simpl; [tauto|].
  destruct (str_in x seen) eqn:E.
  - apply str_in_In in E. rewrite IH. split.
    + intros [H1 H2]. tauto.
    + intros [[->|H1] H2]; [contradiction | tauto].
  - apply str_in_not_In in E. simpl. rewrite IH, in_app_iff. simpl.
    split.
    + intros [->|[H1 H2]]; [tauto|]. tauto.
    + intros [[->|H1] H2]; [now left|].
      destruct (string_dec x a) as [->|Hne]; [now left|]. right. tauto.
Qed.

Lemma first_seen_nodup (l : list string) :
  forall seen, NoDup seen -> NoDup (seen ++ first_seen seen l).
Proof.
  induction l as [|x l IH]; intros seen Hs; simpl.
  - now rewrite app_nil_r.
  - destruct (str_in x seen) eqn:E; [now apply IH|].
    apply str_in_not_In in E.
    replace (seen ++ x :: first_seen (seen ++ [x]) l)
      with ((seen ++ [x]) ++ first_seen (seen ++ [x]) l)
      by now rewrite <- app_assoc.
    apply IH. apply NoDup_app; [assumption | constructor; [tauto|constructor] |].
    intros a Ha [<-|[]]. contradiction.
Qed.

Lemma merge_addresses (hosts : list Host) :
  map ip (merge_hosts_by_ip hosts) = first_seen [] (map ip hosts).
Proof.
  unfold merge_hosts_by_ip.
  rewrite keyed_values_ip.
  - now rewrite merge_fold_keys.
  - apply merge_fold_keyed. intros kv [].
Qed.

Lemma merge_addresses_nodup (hosts : list Host) :
  NoDup (map ip (merge_hosts_by_ip hosts)).
Proof.
  rewrite merge_addresses.
  apply (first_seen_nodup (map ip hosts) []). constructor.
Qed.

(** C1: the list returned by [merge_hosts_by_ip] holds no address twice,
    holds exactly the addresses of the input, and lists them in the order
    in which the input first shows them. *)
Theorem merge_unique_addresses_first_seen_order (hosts : list Host) :
  NoDup (map ip (merge_hosts_by_ip hosts))
  /\ (forall a, In a (map ip (merge_hosts_by_ip hosts))
                <-> In a (map ip hosts))
  /\ map ip (merge_hosts_by_ip hosts) = first_seen [] (map ip hosts).
Proof.
  split; [apply merge_addresses_nodup|].
  rewrite merge_addresses. repeat split.
  - intros H. now apply first_seen_in in H.
  - intros H. apply first_seen_in. tauto.
Qed.

(** A list without repeated addresses is returned as it is. *)
Lemma merge_fold_fresh (hosts : list Host) :
  forall d,
    NoDup (PyDict.keys d ++ map ip hosts) ->
    fold_left merge_step hosts d = d ++ map (fun h => (ip h, h)) hosts.
Proof.
  induction hosts as [|h hosts IH]; intros d Hnd; simpl.
  - now rewrite app_nil_r.
  - assert (Hfresh : str_in (ip h) (PyDict.keys d) = false).
    { apply str_in_not_In. intros Hin.
      apply NoDup_remove_2 in Hnd. apply Hnd.
      apply in_or_app. now left. }
    assert (Hstep : merge_step d h = d ++ [(ip h, h)]).
    { unfold merge_step.
      apply dict_get_none in Hfresh as Hget. rewrite Hget.
      rewrite dict_set_absent by assumption. now destruct h. }
    rewrite Hstep, IH.
    + now rewrite <- app_assoc.
    + unfold PyDict.keys. rewrite map_app. simpl.
      rewrite <- app_assoc. exact Hnd.
Qed.

Lemma merge_nodup_identity (hosts : list Host) :
  NoDup (map ip hosts) -> merge_hosts_by_ip hosts = hosts.
Proof.
  intros Hnd. unfold merge_hosts_by_ip.
  rewrite merge_fold_fresh by exact Hnd.
  unfold PyDict.values. simpl. rewrite map_map. simpl. apply map_id.
Qed.

(** C6: merging the output of [merge_hosts_by_ip] again returns that
    output, record for record and in the same order. *)
Theorem merge_idempotent (hosts : list Host) :
  merge_hosts_by_ip (merge_hosts_by_ip hosts) = merge_hosts_by_ip hosts.
Proof.
  apply merge_nodup_identity, merge_addresses_nodup.
Qed.

(** ** Port lists (C7) *)

Lemma uniq_ports_fold_nodup (ps : list string) :
  forall acc, NoDup acc ->
    NoDup (fold_left
             (fun uniq p => if str_in p uniq then uniq else uniq ++ [p])
             ps acc).
Proof.
  induction ps as [|p ps IH]; intros acc Hacc; simpl; [assumption|].
  apply IH. destruct (str_in p acc) eqn:E; [assumption|].
  apply str_in_not_In in E.
  apply NoDup_app; [assumption | constructor; [tauto|constructor] |].
  intros a Ha [<-|[]]. contradiction.
Qed.

(** The pass of lines 243-249 leaves no repeated descriptor. *)
Lemma uniq_ports_nodup (ps : list string) : NoDup (uniq_ports ps).
Proof. apply uniq_ports_fold_nodup. constructor. Qed.

Lemma merge_ports_nodup (ps : list string) :
  forall e, NoDup (ports e) -> NoDup (ports (merge_ports e ps)).
Proof.
  unfold merge_ports.
  induction ps as [|p ps IH]; intros e He; simpl; [assumption|].
  apply IH. destruct (str_in p (ports e)) eqn:E; [assumption|].
  apply str_in_not_In in E. simpl.
  apply NoDup_app; [assumption | constructor; [tauto|constructor] |].
  intros a Ha [<-|[]]. contradiction.
Qed.

Definition ports_distinct (h : Host) : Prop := NoDup (ports h).

Lemma merge_step_ports_distinct (d : PyDict.t Host) (h : Host) :
  (forall kv, In kv d -> ports_distinct (snd kv)) ->
  ports_distinct h ->
  forall kv, In kv (merge_step d h) -> ports_distinct (snd kv).
Proof.
  intros Hd Hh kv Hin. unfold merge_step in Hin.
  destruct (PyDict.get (ip h) d) as [existing|] eqn:Hget.
  - apply dict_set_in_key in Hin. destruct Hin as [Hin | ->]; [now apply Hd|].
    simpl. apply merge_ports_nodup.
    pose proof (Hd _ (dict_get_some_in _ _ _ Hget)) as He.
    unfold ports_distinct in He. simpl in He.
    destruct (negb (truthy (name existing)) && truthy (name h));
      destruct (truthy (os_guess h)); simpl; try assumption;
      destruct (os_guess existing); simpl; try assumption;
      destruct (os_accuracy h); simpl; try assumption;
      destruct (os_accuracy existing); simpl; try assumption;
      match goal with |- context [if ?b then _ else _] => destruct b end;
      simpl; assumption.
  - apply dict_set_in_key in Hin. destruct Hin as [Hin | ->]; [now apply Hd|].
    exact Hh.
Qed.

(** Merging keeps port lists free of repetitions when every incoming list
    is. *)
Lemma merge_ports_distinct (hosts : list Host) :
  (forall h, In h hosts -> ports_distinct h) ->
  forall h, In h (merge_hosts_by_ip hosts) -> ports_distinct h.
Proof.
  unfold merge_hosts_by_ip.
  assert (Hgen : forall d,
    (forall kv, In kv d -> ports_distinct (snd kv)) ->
    (forall h, In h hosts -> ports_distinct h) ->
    forall kv, In kv (fold_left merge_step hosts d) ->
               ports_distinct (snd kv)).
  { induction hosts as [|h0 hosts IH]; intros d Hd Hh; simpl; [exact Hd|].
    apply IH.
    - apply merge_step_ports_distinct; [exact Hd|]. apply Hh. now left.
    - intros h Hin. apply Hh. now right. }
  intros Hh h Hin. unfold PyDict.values in Hin.
  apply in_map_iff in Hin. destruct Hin as (kv & <- & Hkv).
  apply (Hgen PyDict.empty); [intros ? [] | exact Hh | exact Hkv].
Qed.

(** The line-oriented parser returns hosts whose port lists hold no string
    twice. *)
Lemma parse_nmap_normal_ports_distinct (text : string) (hosts : list Host)
    (h : Host) :
  parse_nmap_normal text = Some hosts -> In h hosts -> NoDup (ports h).
Proof.
  unfold parse_nmap_normal.
  destruct (for_each (splitlines text) normal_step ([], None))
    as [[hs current]|]; simpl; [|discriminate].
  intros [= <-]. apply merge_ports_distinct. intros h' Hin.
  apply in_map_iff in Hin. destruct Hin as (h0 & <- & _).
  apply uniq_ports_nodup.
Qed.

Definition grepable_repeated_port_line : string :=
  "Host: 10.0.0.5 () Ports: 80/open/tcp//http///,80/open/tcp//http///".

(** C7, at a grepable line that lists the same open port twice: the record
    that [parse_nmap] returns after merging holds the descriptor
    "80/tcp http" twice, whatever the XML library is. *)
Theorem grepable_repeated_port_kept :
  forall ET_fromstring,
    parse_nmap ET_fromstring grepable_repeated_port_line =
      Some [mkHost "10.0.0.5" None ["80/tcp http"; "80/tcp http"] None None]
    /\ ~ NoDup ["80/tcp http"; "80/tcp http"].
Proof.
  intros ET_fromstring. split; [reflexivity|].
  intros H. inversion H as [|x l Hnotin _]; subst.
  apply Hnotin. now left.
Qed.

(** The merge engine alone keeps a repetition that its first record for an
    address brings along. *)
Lemma merge_keeps_repeated_port :
  merge_hosts_by_ip
    [mkHost "10.0.0.5" None ["80/tcp http"; "80/tcp http"] None None] =
  [mkHost "10.0.0.5" None ["80/tcp http"; "80/tcp http"] None None].
Proof. reflexivity. Qed.

(** ** Hosts without an IP address in the XML parser (C10) *)

Lemma xml_host_ip_in_none (addrs : list Element) :
  (forall a, In a addrs ->
             attr "addrtype" a <> Some "ipv4"
             /\ attr "addrtype" a <> Some "ipv6") ->
  xml_host_ip_in addrs = None.
Proof.
  induction addrs as [|a addrs IH]; intros H; simpl; [reflexivity|].
  destruct (H a (or_introl eq_refl)) as [H4 H6].
  destruct (attr "addrtype" a) as [t|].
  - destruct (String.eqb_spec t "ipv4") as [->|_]; [congruence|].
    destruct (String.eqb_spec t "ipv6") as [->|_]; [congruence|].
    simpl. apply IH. intros b Hb. apply H. now right.
  - apply IH. intros b Hb. apply H. now right.
Qed.

Lemma filter_map_app {A B : Type} (f : A -> option B) (l1 l2 : list A) :
  filter_map f (l1 ++ l2) = filter_map f l1 ++ filter_map f l2.
Proof.
  induction l1 as [|x l1 IH]; simpl; [reflexivity|].
  destruct (f x); simpl; now rewrite IH.
Qed.

(** C10: a host element none of whose address children has the type ipv4
    or ipv6 yields no record, whatever else it carries; the parse of a
    document is the parse of the document without that element. *)
Theorem xml_host_without_ip_skipped (h : Element) :
  (forall a, In a (findall "address" h) ->
             attr "addrtype" a <> Some "ipv4"
             /\ attr "addrtype" a <> Some "ipv6") ->
  xml_host h = None
  /\ forall t attrs before after,
       parse_nmap_xml_tree (Elem t attrs (before ++ h :: after)) =
       parse_nmap_xml_tree (Elem t attrs (before ++ after)).
Proof.
  intros Hno.
  assert (Hnone : xml_host h = None).
  { unfold xml_host. destruct (xml_host_down h); [reflexivity|].
    unfold xml_host_ip. now rewrite xml_host_ip_in_none. }
  split; [exact Hnone|].
  intros t attrs before after. unfold parse_nmap_xml_tree, findall. simpl.
  rewrite !filter_app, !filter_map_app. simpl.
  destruct (tag_of h =? "host"); [|reflexivity].
  simpl. now rewrite Hnone.
Qed.

(** A host that is up, with a name, an open port and an OS match, but only
    a MAC address. *)
Definition xml_host_mac_only : Element :=
  Elem "host" []
    [ Elem "status" [("state", "up")] []
    ; Elem "address" [("addr", "00:11:22:33:44:55"); ("addrtype", "mac")] []
    ; Elem "hostnames" [] [Elem "hostname" [("name", "printer.lan")] []]
    ; Elem "ports" []
        [Elem "port" [("protocol", "tcp"); ("portid", "9100")]
           [ Elem "state" [("state", "open")] []
           ; Elem "service" [("name", "jetdirect")] [] ]]
    ; Elem "os" []
        [Elem "osmatch" [("name", "HP JetDirect"); ("accuracy", "95")] []] ].

Lemma xml_host_without_ip_skipped_witness :
  (forall a, In a (findall "address" xml_host_mac_only) ->
             attr "addrtype" a <> Some "ipv4"
             /\ attr "addrtype" a <> Some "ipv6")
  /\ xml_host xml_host_mac_only = None
  /\ forall t attrs before after,
       parse_nmap_xml_tree
         (Elem t attrs (before ++ xml_host_mac_only :: after)) =
       parse_nmap_xml_tree (Elem t attrs (before ++ after)).
Proof.
  assert (H : forall a, In a (findall "address" xml_host_mac_only) ->
             attr "addrtype" a <> Some "ipv4"
             /\ attr "addrtype" a <> Some "ipv6").
  { intros a [<-|[]]. split; discriminate. }
  split; [exact H|].
  exact (xml_host_without_ip_skipped xml_host_mac_only H).
Defined.

(** ** Helpers on texts *)

Lemma or_none_some (s n : string) : or_none s = Some n -> (n =? "") = false.
Proof.
  unfold or_none. destruct (s =? "") eqn:E; [discriminate|].
  now intros [= <-].
Qed.

Lemma string_app_assoc (a b c : string) :
  ((a ++ b) ++ c = a ++ (b ++ c))%string.
Proof. induction a as [|x a IH]; simpl; [reflexivity | now rewrite IH]. Qed.

(** ** Format detection (C5) *)

Lemma filter_map_nil_iff {A B : Type} (f : A -> option B) (l : list A) :
  filter_map f l = [] <-> forall x, In x l -> f x = None.
Proof.
  induction l as [|x l IH]; simpl.
  - split; [intros _ y [] | reflexivity].
  - destruct (f x) eqn:E.
    + split; [discriminate|]. intros H.
      specialize (H x (or_introl eq_refl)). congruence.
    + rewrite IH. split.
      * intros H y [<-|Hy]; auto.
      * intros H y Hy. apply H. now right.
Qed.

Lemma merge_nil_iff (hosts : list Host) :
  merge_hosts_by_ip hosts = [] <-> hosts = [].
Proof.
  split; [|now intros ->].
  intros H. apply (f_equal (map ip)) in H.
  rewrite merge_addresses in H.
  destruct hosts as [|h hosts]; [reflexivity | discriminate H].
Qed.

Lemma grepable_line_matches (line : string) :
  grepable_line line = Some None <->
  re_match _RE_GREPPABLE_HOST (strip line) = None.
Proof.
  unfold grepable_line.
  destruct (re_match _RE_GREPPABLE_HOST (strip line)) as [cs|];
    [|tauto].
  destruct (match re_search RE_GREPABLE_OS (strip line) with
            | Some cs2 =>
                _parse_first_guess_with_accuracy (strip (group_str 1 cs2))
            | None => Some (None, None)
            end); simpl; split; discriminate.
Qed.

(** The loop over lines only appends to [hosts], and appends nothing exactly
    when no line, trimmed, matches the strict pattern. *)
Lemma grepable_loop_appends (lines : list string) :
  forall acc hosts,
    for_each lines grepable_step acc = Some hosts ->
    exists new,
      hosts = acc ++ new
      /\ (new = [] ->
          forall line, In line lines ->
                       re_match _RE_GREPPABLE_HOST (strip line) = None).
Proof.
  induction lines as [|l lines IH]; intros acc hosts H.
  - injection H as <-. exists []. split; [now rewrite app_nil_r|].
    intros _ line [].
  - rewrite for_each_cons in H.
    destruct (grepable_step acc l) as [acc'|] eqn:E; simpl in H;
      [|discriminate].
    destruct (IH acc' hosts H) as (new & -> & Hnew).
    unfold grepable_step in E.
    destruct (grepable_line l) as [[r|]|] eqn:El; simpl in E;
      [| |discriminate]; injection E as <-.
    + exists (r :: new). split; [now rewrite <- app_assoc|]. discriminate.
    + exists new. split; [reflexivity|].
      intros Hn line [<-|Hin]; [now apply grepable_line_matches | auto].
Qed.

Lemma grepable_loop_no_match (lines : list string) (acc : list Host) :
  (forall line, In line lines ->
                re_match _RE_GREPPABLE_HOST (strip line) = None) ->
  for_each lines grepable_step acc = Some acc.
Proof.
  induction lines as [|l lines IH]; intros H; [reflexivity|].
  rewrite for_each_cons. unfold grepable_step.
  assert (Hl : grepable_line l = Some None)
    by (apply grepable_line_matches, H; now left).
  rewrite Hl. simpl. apply IH. intros line Hin. apply H. now right.
Qed.

(** The grepable parse returns no host exactly when no line, trimmed,
    matches the strict pattern. *)
Lemma parse_nmap_grepable_empty (text : string) :
  parse_nmap_grepable text = Some []
  <-> has_strict_grepable_line text = false.
Proof.
  unfold parse_nmap_grepable, has_strict_grepable_line. split.
  - intros H.
    destruct (for_each (splitlines text) grepable_step []) as [hosts|] eqn:E;
      [|discriminate].
    simpl in H. injection H as H.
    apply (proj1 (merge_nil_iff hosts)) in H. subst hosts.
    destruct (grepable_loop_appends _ _ _ E) as (new & Hnew & Hnone).
    destruct new; [|discriminate].
    destruct (existsb _ (splitlines text)) eqn:Ex; [|reflexivity].
    apply existsb_exists in Ex. destruct Ex as (line & Hin & Hm).
    now rewrite (Hnone eq_refl line Hin) in Hm.
  - intros H. rewrite grepable_loop_no_match; [reflexivity|].
    intros line Hin.
    destruct (re_match _RE_GREPPABLE_HOST (strip line)) eqn:E;
      [|reflexivity].
    assert (Hex : existsb
              (fun line => match re_match _RE_GREPPABLE_HOST (strip line) with
                           | Some _ => true
                           | None => false
                           end) (splitlines text) = true).
    { apply existsb_exists. exists line. split; [exact Hin|]. now rewrite E. }
    congruence.
Qed.

(** The claim as the specification states it, for one text: on a non-XML
    text the grepable parser is called, and called first, exactly when some
    line matches the strict pattern; the result is the grepable parse when
    that parse is not empty and the line-oriented parse otherwise. *)
Definition strict_pattern_decides (ET_fromstring : string -> option Element)
    (text : string) : Prop :=
  _looks_like_xml (replace_crlf text) = false ->
  (hd_error (parse_nmap_attempts text) = Some GrepableGrammar
   <-> has_strict_grepable_line (replace_crlf text) = true)
  /\ parse_nmap ET_fromstring text =
       match parse_nmap_grepable (replace_crlf text) with
       | Some [] => parse_nmap_normal (replace_crlf text)
       | result => result
       end.

(** A status line of a grepable report: it starts with "Host:" but has no
    "Ports:" field. *)
Definition grepable_status_line : string :=
  ("Host: 10.0.0.5 ()" ++ String TAB "Status: Up")%string.

(** A grepable host line behind two blanks. *)
Definition grepable_indented_line : string :=
  "  Host: 10.0.0.5 () Ports: 80/open/tcp//http///".

Lemma strict_pattern_decides_fails :
  ~ strict_pattern_decides (fun _ => None) grepable_status_line.
Proof.
  intros H. destruct (H eq_refl) as [[Hattempt _] _].
  specialize (Hattempt eq_refl). discriminate Hattempt.
Qed.

(** The second half of the claim fails as well: the indented line is parsed
    by the grepable grammar, yet [parse_nmap] never tries that grammar and
    returns the empty line-oriented parse. *)
Lemma strict_pattern_decides_fails_on_result :
  ~ strict_pattern_decides (fun _ => None) grepable_indented_line.
Proof.
  intros H. destruct (H eq_refl) as [_ Hres]. discriminate Hres.
Qed.

(** C5, amended: on a non-XML text [parse_nmap] calls the grepable parser,
    and calls it first, exactly when the detector pattern finds a line that
    starts with "Host:", white space and a further character; it then calls
    the line-oriented parser exactly when the grepable parse is empty, which
    is the case exactly when no line, trimmed, matches the strict pattern.
    The result is the grepable parse when the detector matches and that
    parse is not empty, and the line-oriented parse otherwise. *)
Theorem parse_nmap_detector_decides
    (ET_fromstring : string -> option Element) (text : string) :
  _looks_like_xml (replace_crlf text) = false ->
  (hd_error (parse_nmap_attempts text) = Some GrepableGrammar
   <-> _looks_like_grepable (replace_crlf text) = true)
  /\ (parse_nmap_attempts text = [GrepableGrammar; NormalGrammar]
      <-> _looks_like_grepable (replace_crlf text) = true
          /\ has_strict_grepable_line (replace_crlf text) = false)
  /\ (parse_nmap_attempts text = [GrepableGrammar]
      <-> _looks_like_grepable (replace_crlf text) = true
          /\ has_strict_grepable_line (replace_crlf text) = true)
  /\ parse_nmap ET_fromstring text =
       if _looks_like_grepable (replace_crlf text)
          && has_strict_grepable_line (replace_crlf text)
       then parse_nmap_grepable (replace_crlf text)
       else parse_nmap_normal (replace_crlf text).
Proof.
  intros Hxml. unfold parse_nmap_attempts, parse_nmap. rewrite Hxml.
  pose proof (parse_nmap_grepable_empty (replace_crlf text)) as Hempty.
  destruct (_looks_like_grepable (replace_crlf text)); simpl.
  - destruct (parse_nmap_grepable (replace_crlf text)) as [[|h hs]|] eqn:Hg.
    + assert (Hs : has_strict_grepable_line (replace_crlf text) = false)
        by now apply Hempty.
      rewrite Hs. simpl. repeat split; auto; try discriminate.
      intros [_ Habs]. discriminate Habs.
    + assert (Hs : has_strict_grepable_line (replace_crlf text) = true).
      { destruct (has_strict_grepable_line (replace_crlf text));
          [reflexivity|].
        assert (Habs : Some (h :: hs) = Some []) by now apply Hempty.
        discriminate Habs. }
      rewrite Hs. simpl. repeat split; auto; try discriminate.
      intros [_ Habs]. discriminate Habs.
    + assert (Hs : has_strict_grepable_line (replace_crlf text) = true).
      { destruct (has_strict_grepable_line (replace_crlf text));
          [reflexivity|].
        assert (Habs : @None (list Host) = Some []) by now apply Hempty.
        discriminate Habs. }
      rewrite Hs. simpl. repeat split; auto; try discriminate.
      intros [_ Habs]. discriminate Habs.
  - repeat split; auto; try discriminate.
    + intros [Habs _]. discriminate Habs.
    + intros [Habs _]. discriminate Habs.
Qed.

Lemma parse_nmap_detector_decides_witness :
  _looks_like_xml (replace_crlf grepable_status_line) = false
  /\ parse_nmap_attempts grepable_status_line
     = [GrepableGrammar; NormalGrammar]
  /\ parse_nmap (fun _ => None) grepable_status_line = Some [].
Proof.
  split; [reflexivity|].
  destruct (parse_nmap_detector_decides (fun _ => None) grepable_status_line
              eq_refl) as (_ & [_ H2] & _ & H4).
  split; [apply H2; split; reflexivity | exact H4].
Defined.

(** ** The emission order of the diagram builder (C2) *)

(** The identifiers [str(start)], [str(start + 1)], ... *)
Fixpoint ids_from (start : Z) (n : nat) : list string :=
  match n with
  | O => []
  | S n' => str_of_Z start :: ids_from (start + 1) n'
  end.

(** The edges to the targets, numbered from [edge_id]. *)
Fixpoint edge_cells (network_id : string) (edge_id : Z)
    (targets : list string) : list Element :=
  match targets with
  | [] => []
  | t :: ts =>
      edge_cell (str_of_Z edge_id) network_id t
        :: edge_cells network_id (edge_id + 1) ts
  end.

(** The vertices of the hosts, each with its identifier and position;
    [None] when [host_cell] raises for one of them. *)
Fixpoint host_cells (w ht : Z) (ids : list string) (geoms : list (Z * Z))
    (hosts : list Host) : option (list Element) :=
  match ids, geoms, hosts with
  | id :: ids', (x, y) :: geoms', h :: hosts' =>
      cell <- host_cell id h x y w ht ;;
      cells <- host_cells w ht ids' geoms' hosts' ;;
      Some (cell :: cells)
  | _, _, _ => Some []
  end.

Lemma ids_from_length (n : nat) : forall s, List.length (ids_from s n) = n.
Proof. induction n as [|n IH]; intros s; simpl; [reflexivity | now rewrite IH]. Qed.

Lemma skipn_nth_error {A : Type} (l : list A) :
  forall k a, nth_error l k = Some a -> skipn k l = a :: skipn (S k) l.
Proof.
  induction l as [|x l IH]; intros [|k] a H; simpl in *; try discriminate.
  - now injection H as ->.
  - now apply IH.
Qed.

Lemma allocate_loop (lay : Layout) (margin start_y : Z)
    (l : list (Z * Host)) :
  forall b b',
    for_each l (allocate lay margin start_y) b = Some b' ->
    exists geoms,
      List.length geoms = List.length l
      /\ b' = mkBuilder (next_id b + Z.of_nat (List.length l))
                (host_id_map b ++ ids_from (next_id b) (List.length l))
                (host_geom_map b ++ geoms) (root b).
Proof.
  induction l as [|ih l IH]; intros b b' H.
  - unfold for_each in H. simpl in H. injection H as <-.
    exists []. split; [reflexivity|]. simpl.
    rewrite Z.add_0_r, !app_nil_r. now destruct b.
  - rewrite for_each_cons in H. apply bind_some in H.
    destruct H as (b1 & Hstep & Hrest).
    unfold allocate in Hstep.
    repeat (apply bind_some in Hstep; destruct Hstep as (? & _ & Hstep)).
    injection Hstep as <-.
    apply IH in Hrest. destruct Hrest as (geoms & Hlen & ->). simpl.
    match goal with
    | |- context [host_geom_map b ++ [?g]] => exists (g :: geoms)
    end.
    split; [simpl; now rewrite Hlen|].
    rewrite <- !app_assoc. simpl. f_equal. lia.
Qed.

Lemma add_edge_loop (network_id : string) (n : nat) :
  forall k b,
    k + n <= List.length (host_id_map b) ->
    for_each (map Z.of_nat (seq k n)) (add_edge network_id) b =
      Some (mkBuilder (next_id b + Z.of_nat n) (host_id_map b)
              (host_geom_map b)
              (root b ++ edge_cells network_id (next_id b)
                           (firstn n (skipn k (host_id_map b))))).
Proof.
  induction n as [|n IH]; intros k b Hlen.
  - unfold for_each. simpl. rewrite Z.add_0_r, app_nil_r. now destruct b.
  - simpl seq. simpl map. rewrite for_each_cons.
    unfold add_edge at 1. rewrite Nat2Z.id.
    destruct (nth_error (host_id_map b) k) as [t|] eqn:Ht.
    + simpl bind. unfold emit. simpl.
      rewrite IH by (simpl; lia). simpl.
      rewrite (skipn_nth_error _ _ _ Ht). simpl.
      rewrite <- app_assoc. simpl. do 2 f_equal. lia.
    + apply nth_error_None in Ht. lia.
Qed.

Lemma host_cells_nil (w ht : Z) (ids : list string) (geoms : list (Z * Z)) :
  host_cells w ht ids geoms [] = Some [].
Proof. destruct ids as [|? ?]; destruct geoms as [|[? ?] ?]; reflexivity. Qed.

Lemma add_host_loop_sized (lay : Layout) (w ht : Z) (hosts : list Host) :
  ftrunc (node_w lay) = Some w -> ftrunc (node_h lay) = Some ht ->
  forall k b b',
    for_each (combine (map Z.of_nat (seq k (List.length hosts))) hosts)
             (add_host lay) b = Some b' ->
    exists cells,
      host_cells w ht (skipn k (host_id_map b)) (skipn k (host_geom_map b))
                 hosts = Some cells
      /\ b' = mkBuilder (next_id b) (host_id_map b) (host_geom_map b)
                (root b ++ cells)
      /\ List.length cells = List.length hosts.
Proof.
  intros Hw Hht. induction hosts as [|h hosts IH]; intros k b b' H.
  - unfold for_each in H. simpl in H. injection H as <-.
    exists []. rewrite host_cells_nil, app_nil_r.
    split; [reflexivity|]. split; [now destruct b | reflexivity].
  - simpl List.length in H. simpl seq in H. simpl map in H.
    simpl combine in H. rewrite for_each_cons in H.
    apply bind_some in H. destruct H as (b1 & Hstep & Hrest).
    unfold add_host in Hstep. simpl fst in Hstep. simpl snd in Hstep.
    rewrite Nat2Z.id, Hw, Hht in Hstep.
    apply bind_some in Hstep. destruct Hstep as (cell_id & Hid & Hstep).
    apply bind_some in Hstep. destruct Hstep as ([x y] & Hxy & Hstep).
    simpl in Hstep.
    apply bind_some in Hstep. destruct Hstep as (cell & Hcell & Hstep).
    injection Hstep as <-.
    apply IH in Hrest. destruct Hrest as (cells & Hcells & -> & Hlen').
    unfold emit in *. simpl in *.
    exists (cell :: cells).
    rewrite (skipn_nth_error _ _ _ Hid), (skipn_nth_error _ _ _ Hxy).
    simpl. rewrite Hcell, Hcells. simpl. rewrite <- app_assoc. simpl.
    split; [reflexivity|]. split; [reflexivity | now rewrite Hlen'].
Qed.

Lemma add_host_loop (lay : Layout) (hosts : list Host) (b b' : Builder) :
  for_each (enumerate hosts) (add_host lay) b = Some b' ->
  exists w ht cells,
    host_cells w ht (host_id_map b) (host_geom_map b) hosts = Some cells
    /\ b' = mkBuilder (next_id b) (host_id_map b) (host_geom_map b)
              (root b ++ cells)
    /\ List.length cells = List.length hosts.
Proof.
  unfold enumerate. intros H.
  destruct hosts as [|h hosts].
  - unfold for_each in H. simpl in H. injection H as <-.
    exists 0%Z, 0%Z, []. rewrite host_cells_nil, app_nil_r.
    split; [reflexivity|]. split; [now destruct b | reflexivity].
  - assert (Hsizes : exists w ht, ftrunc (node_w lay) = Some w
                                  /\ ftrunc (node_h lay) = Some ht).
    { simpl List.length in H. simpl seq in H. simpl map in H.
      simpl combine in H. rewrite for_each_cons in H.
      apply bind_some in H. destruct H as (b1 & Hstep & _).
      unfold add_host in Hstep.
      apply bind_some in Hstep. destruct Hstep as (? & _ & Hstep).
      apply bind_some in Hstep. destruct Hstep as (? & _ & Hstep).
      apply bind_some in Hstep. destruct Hstep as (w & Hw & Hstep).
      apply bind_some in Hstep. destruct Hstep as (ht & Hht & _).
      now exists w, ht. }
    destruct Hsizes as (w & ht & Hw & Hht). exists w, ht.
    exact (add_host_loop_sized lay w ht (h :: hosts) Hw Hht 0 b b' H).
Qed.

Lemma enumerate_length {A : Type} (xs : list A) :
  List.length (enumerate xs) = List.length xs.
Proof.
  unfold enumerate.
  rewrite length_combine, length_map, length_seq. apply Nat.min_id.
Qed.

Lemma firstn_ids_from (n : nat) (s : Z) :
  firstn n (ids_from s n) = ids_from s n.
Proof.
  set (l := ids_from s n).
  replace n with (List.length l) by apply ids_from_length.
  apply firstn_all.
Qed.

Lemma some_inj {A : Type} (a b : A) : Some a = Some b -> a = b.
Proof. now intros [= ->]. Qed.

(** The cells under [root] when the hub is enabled. *)
Lemma build_drawio_emitted (logo did : string) (hosts : list Host)
    (page : string) (doc : Element) :
  build_drawio logo did hosts page true = Some doc ->
  exists hub_x w ht geoms cells,
    List.length geoms = List.length hosts
    /\ host_cells w ht (ids_from 4 (List.length hosts)) geoms hosts
       = Some cells
    /\ List.length cells = List.length hosts
    /\ emitted doc =
         [ Elem "mxCell" [("id", "0")] []
         ; Elem "mxCell" [("id", "1"); ("parent", "0")] [] ]
         ++ edge_cells "3" (4 + Z.of_nat (List.length hosts))
              (ids_from 4 (List.length hosts))
         ++ [brand_cell logo "2"]
         ++ [net_cell "3" (Z.of_nat (List.length hosts)) 50 hub_x]
         ++ cells.
Proof.
  intros H. unfold build_drawio in H. cbv zeta in H.
  do 7 (apply bind_some in H; destruct H as (? & _ & H)).
  cbv beta iota delta [next_id root host_id_map host_geom_map] in H.
  apply bind_some in H. destruct H as (b1 & Hb1 & H).
  apply allocate_loop in Hb1. destruct Hb1 as (geoms & Hlen & ->).
  rewrite enumerate_length in *.
  change (2 + 1 + 1)%Z with 4%Z in H.
  change (str_of_Z (2 + 1)) with "3" in H.
  change (str_of_Z 2) with "2" in H.
  cbv beta iota delta [next_id root host_id_map host_geom_map] in H.
  rewrite !app_nil_l in H.
  apply bind_some in H. destruct H as (b2 & Hb2 & H).
  unfold range in Hb2.
  rewrite add_edge_loop in Hb2
    by (cbv beta iota delta [host_id_map]; rewrite ids_from_length; lia).
  cbv beta iota delta [next_id root host_id_map host_geom_map] in Hb2.
  rewrite skipn_O in Hb2.
  rewrite firstn_ids_from in Hb2.
  apply some_inj in Hb2. subst b2.
  apply bind_some in H. destruct H as (b3 & Hb3 & H).
  apply bind_some in Hb3. destruct Hb3 as (hub_x & _ & Hb3).
  apply some_inj in Hb3. subst b3.
  apply bind_some in H. destruct H as (b4 & Hb4 & H).
  apply add_host_loop in Hb4.
  destruct Hb4 as (w & ht & cells & Hcells & -> & Hclen).
  unfold emit in H, Hcells.
  cbv beta iota delta [next_id root host_id_map host_geom_map] in H, Hcells.
  apply some_inj in H. subst doc.
  exists hub_x, w, ht, geoms, cells. split; [exact Hlen|].
  split; [exact Hcells|]. split; [exact Hclen|].
  cbv beta iota delta [emitted]. now rewrite <- !app_assoc.
Qed.

Lemma nth_error_app_plus {A : Type} (l1 l2 : list A) (i : nat) :
  nth_error (l1 ++ l2) (List.length l1 + i) = nth_error l2 i.
Proof. induction l1 as [|x l1 IH]; simpl; [reflexivity | exact IH]. Qed.

Lemma ids_from_nth (n : nat) :
  forall s i, i < n ->
    nth_error (ids_from s n) i = Some (str_of_Z (s + Z.of_nat i)).
Proof.
  induction n as [|n IH]; intros s i Hi; [lia|].
  destruct i as [|i]; simpl.
  - now rewrite Z.add_0_r.
  - rewrite IH by lia. do 2 f_equal. lia.
Qed.

Lemma edge_cells_length (nid : string) (targets : list string) :
  forall eid, List.length (edge_cells nid eid targets) = List.length targets.
Proof.
  induction targets as [|t ts IH]; intros eid; simpl;
    [reflexivity | now rewrite IH].
Qed.

Lemma edge_cells_nth (nid : string) (targets : list string) :
  forall eid i t,
    nth_error targets i = Some t ->
    nth_error (edge_cells nid eid targets) i =
      Some (edge_cell (str_of_Z (eid + Z.of_nat i)) nid t).
Proof.
  induction targets as [|t0 ts IH]; intros eid i t Ht.
  - destruct i; discriminate.
  - destruct i as [|i]; simpl in *.
    + injection Ht as ->. now rewrite Z.add_0_r.
    + rewrite (IH _ _ _ Ht). do 3 f_equal. lia.
Qed.

Lemma host_cells_nth (w ht : Z) (ids : list string) :
  forall geoms hosts cells j id g h,
    host_cells w ht ids geoms hosts = Some cells ->
    nth_error ids j = Some id -> nth_error geoms j = Some g ->
    nth_error hosts j = Some h ->
    exists cell,
      host_cell id h (fst g) (snd g) w ht = Some cell
      /\ nth_error cells j = Some cell.
Proof.
  induction ids as [|id0 ids IH];
    intros geoms hosts cells j id g h Hcells Hid Hg Hh.
  - destruct j; discriminate.
  - destruct geoms as [|[x y] geoms]; [destruct j; discriminate|].
    destruct hosts as [|h0 hosts]; [destruct j; discriminate|].
    simpl in Hcells.
    apply bind_some in Hcells. destruct Hcells as (c0 & Hc0 & Hcells).
    apply bind_some in Hcells. destruct Hcells as (cs & Hcs & Hcells).
    injection Hcells as <-.
    destruct j as [|j]; simpl in *.
    + injection Hid as <-. injection Hg as <-. injection Hh as <-.
      now exists c0.
    + now apply (IH geoms hosts cs j id g h).
Qed.

(** C2: in a document that [build_drawio] produces with the hub enabled,
    the children of [root] are, after the two layer cells "0" and "1":
    one edge per host from the hub "3" to that host, in host order; then
    the branding cell; then the hub; then one vertex per host, in the order
    of the host list, each labelled from its host.  Every edge thus comes
    before the hub, and the hub before every host vertex. *)
Theorem build_drawio_emission_order (logo did : string)
    (hosts : list Host) (page : string) (doc : Element) :
  build_drawio logo did hosts page true = Some doc ->
  let n := List.length hosts in
  let cells := emitted doc in
  List.length cells = n + n + 4
  /\ nth_error cells 0 = Some (Elem "mxCell" [("id", "0")] [])
  /\ nth_error cells 1 = Some (Elem "mxCell" [("id", "1"); ("parent", "0")] [])
  /\ (forall i, i < n ->
        nth_error cells (2 + i) =
          Some (edge_cell (str_of_Z (4 + Z.of_nat n + Z.of_nat i)) "3"
                          (str_of_Z (4 + Z.of_nat i))))
  /\ nth_error cells (2 + n) = Some (brand_cell logo "2")
  /\ (exists hub_x,
        nth_error cells (3 + n) = Some (net_cell "3" (Z.of_nat n) 50 hub_x))
  /\ (forall j h,
        nth_error hosts j = Some h ->
        exists x y w ht cell,
          host_cell (str_of_Z (4 + Z.of_nat j)) h x y w ht = Some cell
          /\ nth_error cells (4 + n + j) = Some cell).
Proof.
  intros H n cells.
  destruct (build_drawio_emitted logo did hosts page doc H)
    as (hub_x & w & ht & geoms & V & Hgeoms & HV & Hcells & Heq).
  fold n in Hgeoms, HV, Hcells, Heq. fold cells in Heq.
  set (P := [ Elem "mxCell" [("id", "0")] []
            ; Elem "mxCell" [("id", "1"); ("parent", "0")] [] ]) in *.
  set (E := edge_cells "3" (4 + Z.of_nat n) (ids_from 4 n)) in *.
  set (B := [brand_cell logo "2"]) in *.
  set (N := [net_cell "3" (Z.of_nat n) 50 hub_x]) in *.
  assert (HP : List.length P = 2) by reflexivity.
  assert (HB : List.length B = 1) by reflexivity.
  assert (HN : List.length N = 1) by reflexivity.
  assert (HE : List.length E = n).
  { subst E. now rewrite edge_cells_length, ids_from_length. }
  rewrite Heq. repeat split.
  - rewrite !length_app. lia.
  - intros i Hi.
    replace (2 + i) with (List.length P + i) by lia.
    rewrite nth_error_app_plus, nth_error_app1 by lia.
    subst E. apply edge_cells_nth. now apply ids_from_nth.
  - replace (2 + n) with (List.length P + (List.length E + 0)) by lia.
    now rewrite !nth_error_app_plus.
  - exists hub_x.
    replace (3 + n)
      with (List.length P + (List.length E + (List.length B + 0))) by lia.
    now rewrite !nth_error_app_plus.
  - intros j h Hh.
    assert (Hj : j < n) by (apply nth_error_Some; congruence).
    destruct (nth_error geoms j) as [g|] eqn:Hg;
      [|apply nth_error_None in Hg; lia].
    destruct (host_cells_nth w ht (ids_from 4 n) geoms hosts V j
                (str_of_Z (4 + Z.of_nat j)) g h HV
                (ids_from_nth n 4 j Hj) Hg Hh) as (cell & Hcell & Hnth).
    exists (fst g), (snd g), w, ht, cell. split; [exact Hcell|].
    replace (4 + n + j)
      with (List.length P
            + (List.length E + (List.length B + (List.length N + j))))
      by lia.
    now rewrite !nth_error_app_plus.
Qed.

Definition two_hosts : list Host :=
  [ mkHost "10.0.0.1" (Some "gw") ["80/tcp http"] (Some "Linux 5.4")
           (Some 92%Z)
  ; mkHost "10.0.0.2" None [] None None ].

Lemma build_drawio_emission_order_witness :
  exists doc,
    build_drawio "LOGO" "diagram-1" two_hosts "Page-1" true = Some doc
    /\ List.length (emitted doc) = 8
    /\ nth_error (emitted doc) 2 = Some (edge_cell "6" "3" "4")
    /\ nth_error (emitted doc) 3 = Some (edge_cell "7" "3" "5")
    /\ nth_error (emitted doc) 4 = Some (brand_cell "LOGO" "2")
    /\ (exists hub_x,
          nth_error (emitted doc) 5 = Some (net_cell "3" 2 50 hub_x)).
Proof.
  destruct (build_drawio "LOGO" "diagram-1" two_hosts "Page-1" true)
    as [doc|] eqn:Hdoc; [|vm_compute in Hdoc; discriminate Hdoc].
  exists doc. split; [reflexivity|].
  destruct (build_drawio_emission_order "LOGO" "diagram-1" two_hosts
              "Page-1" doc Hdoc)
    as (Hlen & _ & _ & Hedges & Hbrand & Hhub & _).
  split; [exact Hlen|].
  split; [exact (Hedges 0 (Nat.lt_0_succ 1))|].
  split; [exact (Hedges 1 (Nat.lt_succ_diag_r 1))|].
  split; [exact Hbrand | exact Hhub].
Defined.

(** ** The layout engine (C4) *)

(** The scale factor in the words of the specification. *)
Definition scale_spec (n : Z) : float :=
  if (n <=? 30)%Z then f_1_0
  else if (n <=? 80)%Z then f_0_85
  else if (n <=? 150)%Z then f_0_7
  else f_0_6.

Lemma layout_scale_is_spec (n : Z) : layout_scale n = scale_spec n.
Proof.
  unfold layout_scale, scale_spec.
  destruct (Z.gtb_spec n 30), (Z.gtb_spec n 80), (Z.gtb_spec n 150),
    (Z.leb_spec n 30), (Z.leb_spec n 80), (Z.leb_spec n 150);
    try reflexivity; lia.
Qed.

(** The literals are the doubles nearest to 85/100, 7/10 and 6/10, and the
    products of the base sizes with them are the doubles that Python
    prints as 136.0, 59.5, 34.0; 112.0, 49.0, 28.0; 96.0, 42.0, 24.0. *)
Lemma scale_literals :
  f_1_0 = round_int 1
  /\ f_0_85 = fdiv (round_int 85) (round_int 100)
  /\ f_0_7 = fdiv (round_int 7) (round_int 10)
  /\ f_0_6 = fdiv (round_int 6) (round_int 10).
Proof. repeat split; reflexivity. Qed.

Lemma scaled_sizes :
  fmul (round_int 160) f_1_0 = round_int 160
  /\ fmul (round_int 70) f_1_0 = round_int 70
  /\ fmul (round_int 40) f_1_0 = round_int 40
  /\ fmul (round_int 160) f_0_85 = round_int 136
  /\ fmul (round_int 70) f_0_85 = fdiv (round_int 119) (round_int 2)
  /\ fmul (round_int 40) f_0_85 = round_int 34
  /\ fmul (round_int 160) f_0_7 = round_int 112
  /\ fmul (round_int 70) f_0_7 = round_int 49
  /\ fmul (round_int 40) f_0_7 = round_int 28
  /\ fmul (round_int 160) f_0_6 = round_int 96
  /\ fmul (round_int 70) f_0_6 = round_int 42
  /\ fmul (round_int 40) f_0_6 = round_int 24.
Proof. repeat split; reflexivity. Qed.

(** The sizes returned for a positive count, whenever a layout is
    returned. *)
Lemma compute_layout_sizes (n : Z) (lay : Layout) :
  (1 <= n)%Z -> compute_layout n = Some lay ->
  node_w lay = fmul (round_int 160) (scale_spec n)
  /\ node_h lay = fmul (round_int 70) (scale_spec n)
  /\ h_gap lay = fmul (round_int 40) (scale_spec n)
  /\ v_gap lay = fmul (round_int 40) (scale_spec n).
Proof.
  intros Hn H. unfold compute_layout in H.
  destruct (Z.leb_spec n 0); [lia|].
  repeat (apply bind_some in H; destruct H as (? & _ & H)).
  apply some_inj in H. subst lay.
  rewrite layout_scale_is_spec. repeat split; reflexivity.
Qed.

(** [columns = ceil(sqrt(n))] and [rows = ceil(n / columns)], stated on
    integers. *)
Definition grid_exact (n : Z) (lay : Layout) : Prop :=
  (1 <= cols lay)%Z /\ (1 <= rows lay)%Z
  /\ ((cols lay - 1) * (cols lay - 1) < n <= cols lay * cols lay)%Z
  /\ ((rows lay - 1) * cols lay < n <= rows lay * cols lay)%Z.

Definition grid_exactb (n : Z) : bool :=
  match compute_layout n with
  | Some lay =>
      (1 <=? cols lay)%Z && (1 <=? rows lay)%Z
      && ((cols lay - 1) * (cols lay - 1) <? n)%Z
      && (n <=? cols lay * cols lay)%Z
      && ((rows lay - 1) * cols lay <? n)%Z
      && (n <=? rows lay * cols lay)%Z
  | None => false
  end.

Lemma grid_exactb_sound (n : Z) :
  grid_exactb n = true ->
  exists lay, compute_layout n = Some lay /\ grid_exact n lay.
Proof.
  unfold grid_exactb, grid_exact.
  destruct (compute_layout n) as [lay|]; [|discriminate].
  intros H. exists lay. split; [reflexivity|].
  repeat (apply andb_prop in H; destruct H as [H ?]).
  repeat match goal with
         | H : (_ <=? _)%Z = true |- _ => apply Z.leb_le in H
         | H : (_ <? _)%Z = true |- _ => apply Z.ltb_lt in H
         end.
  lia.
Qed.

(** [f] holds on [start], [start + 1], ..., [count] numbers in all. *)
Fixpoint holds_from (f : Z -> bool) (start : Z) (count : nat) : bool :=
  match count with
  | O => true
  | S c => f start && holds_from f (start + 1) c
  end.

Lemma holds_from_sound (f : Z -> bool) (count : nat) :
  forall start,
    holds_from f start count = true ->
    forall z, (start <= z < start + Z.of_nat count)%Z -> f z = true.
Proof.
  induction count as [|c IH]; intros start H z Hz; [lia|].
  simpl in H. apply andb_prop in H. destruct H as [H0 H1].
  destruct (Z.eq_dec z start) as [->|Hne]; [exact H0|].
  apply (IH (start + 1)%Z H1). lia.
Qed.

(** *** Binary64 arithmetic on counts below 2^52 *)

Section Binary64.

Local Open Scope Z_scope.

(** The number of binary digits of a positive number. *)
Lemma digits2_pos_log2 (p : positive) :
  Zpos (digits2_pos p) = Z.log2 (Zpos p) + 1.
Proof.
  induction p as [p IH|p IH|]; cbn [digits2_pos].
  - rewrite Pos2Z.inj_succ, IH.
    change (Zpos p~1) with (2 * Zpos p + 1).
    rewrite Z.log2_succ_double by lia. lia.
  - rewrite Pos2Z.inj_succ, IH.
    change (Zpos p~0) with (2 * Zpos p).
    rewrite Z.log2_double by lia. lia.
  - reflexivity.
Qed.

Lemma digits2_pos_bounds (p : positive) (k : Z) :
  1 <= k -> 2 ^ (k - 1) <= Zpos p < 2 ^ k -> Zpos (digits2_pos p) = k.
Proof.
  intros Hk Hp. rewrite digits2_pos_log2.
  rewrite (Z.log2_unique (Zpos p) (k - 1)); [lia | lia |].
  now replace (Z.succ (k - 1)) with k by lia.
Qed.

Lemma iter_xO_pow2 (p d : positive) :
  Zpos (Pos.iter xO p d) = Zpos p * 2 ^ Zpos d.
Proof.
  induction d as [|d IH] using Pos.peano_ind.
  - cbn [Pos.iter]. lia.
  - rewrite Pos.iter_succ, Pos2Z.inj_succ, Z.pow_succ_r by lia.
    change (Zpos (Pos.iter xO p d)~0) with (2 * Zpos (Pos.iter xO p d)).
    rewrite IH. lia.
Qed.

Lemma record_of_loc (m : Z) (l : location) :
  shr_m (shr_record_of_loc m l) = m
  /\ loc_of_shr_record (shr_record_of_loc m l) = l.
Proof. destruct l as [|[]]; split; reflexivity. Qed.

(** Rounding to nearest even moves a mantissa up by at most one, and not at
    all when the location is exact. *)
Lemma round_nearest_even_bounds (m : Z) (l : location) :
  m <= round_nearest_even m l <= m + 1
  /\ (l = loc_Exact -> round_nearest_even m l = m).
Proof.
  destruct l as [|[]]; cbn [round_nearest_even];
    try destruct (Z.even m); split; try lia; try reflexivity;
    intros H; discriminate H.
Qed.

(** A mantissa of 53 digits is not shifted. *)
Lemma shr_fexp_53 (m : positive) (e : Z) (l : location) :
  2 ^ 52 <= Zpos m < 2 ^ 53 -> -1074 <= e ->
  shr_fexp prec emax (Zpos m) e l = (shr_record_of_loc (Zpos m) l, e).
Proof.
  intros Hm He. unfold shr_fexp, fexp, emin, Zdigits2, prec, emax.
  rewrite (digits2_pos_bounds m 53) by (try lia; exact Hm).
  replace (Z.max (53 + e - 53) (3 - 1024 - 53) - e) with 0 by lia.
  reflexivity.
Qed.

(** The last step of [binary_round_aux]: a rounded mantissa of 53 digits
    is kept, the mantissa 2^53 becomes 2^52 with the next exponent. *)
Lemma round_renormalized (r0 e : Z) :
  2 ^ 52 <= r0 <= 2 ^ 53 -> -1074 <= e <= 970 ->
  exists R E,
    (let '(mrs, e'') := shr_fexp prec emax r0 e loc_Exact in
     match shr_m mrs with
     | Z0 => S754_zero false
     | Zpos m =>
         if e'' <=? emax - prec then S754_finite false m e''
         else S754_infinity false
     | Zneg _ => S754_nan
     end) = S754_finite false R E
    /\ (E = e \/ E = e + 1)
    /\ Zpos R * 2 ^ (E - e) = r0.
Proof.
  intros Hr He.
  destruct (Z.eq_dec r0 (2 ^ 53)) as [->|Hne].
  - exists 4503599627370496%positive, (e + 1).
    unfold shr_fexp, fexp, emin, prec, emax.
    change (Zdigits2 (2 ^ 53)) with 54.
    replace (Z.max (54 + e - 53) (3 - 1024 - 53) - e) with 1 by lia.
    cbn [shr shr_record_of_loc iter_pos shr_1 shr_m].
    change (2 ^ 53) with (Zpos 9007199254740992).
    cbn [shr_1 shr_m].
    destruct (Z.leb_spec (e + 1) (1024 - 53)); [|lia].
    split; [reflexivity|]. split; [now right|].
    replace (e + 1 - e) with 1 by lia. reflexivity.
  - destruct r0 as [|r|r]; try (exfalso; lia).
    exists r, e. rewrite shr_fexp_53 by lia.
    cbn [shr_record_of_loc shr_m]. unfold prec, emax.
    destruct (Z.leb_spec e (1024 - 53)); [|lia].
    split; [reflexivity|]. split; [now left|].
    replace (e - e) with 0 by lia. lia.
Qed.

(** [binary_round_aux] on a mantissa of 53 digits. *)
Lemma binary_round_aux_53 (m : positive) (e : Z) (l : location) :
  2 ^ 52 <= Zpos m < 2 ^ 53 -> -1074 <= e <= 970 ->
  exists R E,
    binary_round_aux prec emax false (Zpos m) e l = S754_finite false R E
    /\ (E = e \/ E = e + 1)
    /\ Zpos R * 2 ^ (E - e) = round_nearest_even (Zpos m) l.
Proof.
  intros Hm He. unfold binary_round_aux.
  rewrite shr_fexp_53 by lia.
  destruct (record_of_loc (Zpos m) l) as (-> & ->).
  apply round_renormalized; [|exact He].
  pose proof (round_nearest_even_bounds (Zpos m) l). lia.
Qed.

Lemma binary_round_aux_exact (m : positive) (e : Z) :
  2 ^ 52 <= Zpos m < 2 ^ 53 -> -1074 <= e <= 970 ->
  binary_round_aux prec emax false (Zpos m) e loc_Exact
  = S754_finite false m e.
Proof.
  intros Hm He. unfold binary_round_aux.
  rewrite shr_fexp_53 by lia.
  cbn [shr_record_of_loc shr_m loc_of_shr_record round_nearest_even].
  rewrite shr_fexp_53 by lia.
  cbn [shr_record_of_loc shr_m]. unfold prec, emax.
  destruct (Z.leb_spec e (1024 - 53)); [reflexivity | lia].
Qed.

(** [binary_round_aux] on a mantissa of 54 digits: one digit is shifted
    out before the rounding. *)
Lemma binary_round_aux_54 (m : positive) (e : Z) (l : location) :
  2 ^ 53 <= Zpos m < 2 ^ 54 -> -1074 <= e <= 969 ->
  exists R E V,
    binary_round_aux prec emax false (Zpos m) e l = S754_finite false R E
    /\ (E = e + 1 \/ E = e + 1 + 1)
    /\ Zpos R * 2 ^ (E - (e + 1)) = V
    /\ Zpos m / 2 <= V <= Zpos m / 2 + 1
    /\ (l = loc_Exact -> forall h, Zpos m = 2 * h -> V = h).
Proof.
  intros Hm He. unfold binary_round_aux.
  assert (Hshift : shr_fexp prec emax (Zpos m) e l
                   = (shr_1 (shr_record_of_loc (Zpos m) l), e + 1)).
  { unfold shr_fexp, fexp, emin, Zdigits2, prec, emax.
    rewrite (digits2_pos_bounds m 54) by (try lia; exact Hm).
    replace (Z.max (54 + e - 53) (3 - 1024 - 53) - e) with 1 by lia.
    reflexivity. }
  rewrite Hshift.
  set (rec := shr_1 (shr_record_of_loc (Zpos m) l)).
  assert (Hrec : shr_m rec = Zpos m / 2
                 /\ (l = loc_Exact -> forall h, Zpos m = 2 * h ->
                     loc_of_shr_record rec = loc_Exact)).
  { subst rec. destruct m as [p|p|]; [| |exfalso; change (2 ^ 53) with 9007199254740992 in Hm; lia].
    - split.
      + destruct l as [|[]]; cbn [shr_record_of_loc shr_1 shr_m];
          change (Zpos p~1) with (2 * Zpos p + 1);
          apply Z.div_unique with (r := 1); lia.
      + intros _ h Hh. exfalso. change (Zpos p~1) with (2 * Zpos p + 1) in Hh.
        lia.
    - split.
      + destruct l as [|[]]; cbn [shr_record_of_loc shr_1 shr_m];
          change (Zpos p~0) with (2 * Zpos p);
          apply Z.div_unique with (r := 0); lia.
      + intros -> h _. reflexivity. }
  destruct Hrec as (Hrm & Hexact).
  set (r0 := round_nearest_even (shr_m rec) (loc_of_shr_record rec)).
  pose proof (round_nearest_even_bounds (shr_m rec) (loc_of_shr_record rec))
    as (Hb & Hbe).
  fold r0 in Hb, Hbe. rewrite Hrm in Hb.
  assert (Hhalf : 2 ^ 52 <= Zpos m / 2 < 2 ^ 53).
  { change (2 ^ 53) with (2 * 2 ^ 52) in Hm.
    change (2 ^ 54) with (2 * 2 ^ 53) in Hm.
    split; [apply Z.div_le_lower_bound | apply Z.div_lt_upper_bound]; lia. }
  destruct (round_renormalized r0 (e + 1)) as (R & E & Heq & HE & HV);
    [lia | lia |].
  exists R, E, r0. split; [exact Heq|]. split; [exact HE|].
  split; [exact HV|]. split; [exact Hb|].
  intros Hl h Hh. rewrite (Hbe (Hexact Hl h Hh)), Hrm.
  rewrite Hh. symmetry. apply Z.div_unique with (r := 0); lia.
Qed.

(** [math.ceil] of a positive float that has an exponent below 1. *)
Lemma fceil_finite (R : positive) (E : Z) :
  E <= 0 ->
  exists c,
    fceil (S754_finite false R E) = Some c
    /\ (c - 1) * 2 ^ (- E) < Zpos R <= c * 2 ^ (- E).
Proof.
  intros HE. unfold fceil, scaled.
  destruct E as [|p|p]; [| lia |].
  - exists (Zpos R). split; [reflexivity|]. change (2 ^ (- 0)) with 1. lia.
  - eexists. split; [reflexivity|].
    change (- Zneg p) with (Zpos p).
    set (K := 2 ^ Zpos p).
    assert (HK : 0 < K) by (apply Z.pow_pos_nonneg; lia).
    pose proof (Z.mul_div_le (- Zpos R) K HK).
    pose proof (Z.mul_succ_div_gt (- Zpos R) K HK).
    nia.
Qed.

(** The ceiling in the unit [2^u] of a value that is given in that unit. *)
Lemma fceil_in_unit (R : positive) (E u V : Z) :
  E = u \/ E = u + 1 -> E <= 0 ->
  Zpos R * 2 ^ (E - u) = V ->
  exists c,
    fceil (S754_finite false R E) = Some c
    /\ (c - 1) * 2 ^ (- u) < V <= c * 2 ^ (- u).
Proof.
  intros HE H0 HV.
  destruct (fceil_finite R E H0) as (c & Hc & Hb).
  exists c. split; [exact Hc|].
  destruct HE as [->| ->].
  - replace (u - u) with 0 in HV by lia. change (2 ^ 0) with 1 in HV. lia.
  - replace (u + 1 - u) with 1 in HV by lia. change (2 ^ 1) with 2 in HV.
    replace (- u) with (Z.succ (- (u + 1))) by lia.
    rewrite Z.pow_succ_r by lia.
    set (K := 2 ^ (- (u + 1))) in *. lia.
Qed.

(** The integer facts behind the two ceilings. *)

Lemma ceil_sqrt_of_rounded (n K J q r r0 c : Z) :
  0 < J -> 2 * J <= K ->
  n * (K * K) = q * q + r -> 0 <= r <= 2 * q ->
  0 < q < K * J ->
  q <= r0 <= q + 1 -> (r = 0 -> r0 = q) ->
  (c - 1) * K < r0 <= c * K ->
  1 <= c /\ (c - 1) * (c - 1) < n <= c * c.
Proof.
  intros HJ HK HM Hr Hq Hr0 Hexact Hc.
  assert (H1 : 1 <= c) by nia.
  split; [exact H1|]. split.
  - assert (Hle : (c - 1) * K <= q) by lia.
    destruct (Z.eq_dec ((c - 1) * K) q) as [Heq|Hne].
    + destruct (Z.eq_dec r 0) as [Hr00|Hrn].
      * rewrite (Hexact Hr00) in Hc. lia.
      * assert (Hsq : ((c - 1) * (c - 1)) * (K * K) < n * (K * K)) by nia.
        apply Z.mul_lt_mono_pos_r in Hsq; [exact Hsq | nia].
    + assert (Hlt : (c - 1) * K < q) by lia.
      assert (Hsq : ((c - 1) * (c - 1)) * (K * K) < n * (K * K)).
      { rewrite HM.
        pose proof (Z.square_lt_mono_nonneg ((c - 1) * K) q
                      ltac:(apply Z.mul_nonneg_nonneg; lia) Hlt).
        nia. }
      apply Z.mul_lt_mono_pos_r in Hsq; [exact Hsq | nia].
  - destruct (Z.eq_dec q (c * K)) as [Heq|Hne].
    + destruct (Z_le_gt_dec n (c * c)) as [Hle|Hgt]; [exact Hle|exfalso].
      assert (HKK : K * K <= r).
      { assert ((c * c + 1) * (K * K) <= n * (K * K)) by nia. nia. }
      assert (c < J) by nia.
      nia.
    + assert (Hlt : q + 1 <= c * K) by lia.
      assert (Hsq : n * (K * K) < (c * c) * (K * K)).
      { rewrite HM.
        pose proof (Z.square_le_mono_nonneg (q + 1) (c * K) ltac:(lia) Hlt).
        nia. }
      apply Z.mul_lt_mono_pos_r in Hsq; [lia | nia].
Qed.

Lemma ceil_div_of_rounded (n c S q r r0 k : Z) :
  0 < c <= S ->
  n * S = c * q + r -> 0 <= r < c -> 0 < q ->
  q <= r0 <= q + 1 -> (r = 0 -> r0 = q) ->
  (k - 1) * S < r0 <= k * S ->
  1 <= k /\ (k - 1) * c < n <= k * c.
Proof.
  intros HcS HM Hr Hq Hr0 Hexact Hk.
  assert (H1 : 1 <= k) by nia.
  split; [exact H1|]. split.
  - assert (Hle : (k - 1) * S <= q) by lia.
    destruct (Z.eq_dec ((k - 1) * S) q) as [Heq|Hne].
    + destruct (Z.eq_dec r 0) as [Hr00|Hrn].
      * rewrite (Hexact Hr00) in Hk. lia.
      * assert (Hs : ((k - 1) * c) * S < n * S) by nia.
        apply Z.mul_lt_mono_pos_r in Hs; [exact Hs | lia].
    + assert (Hs : ((k - 1) * c) * S < n * S) by nia.
      apply Z.mul_lt_mono_pos_r in Hs; [exact Hs | lia].
  - destruct (Z.eq_dec q (k * S)) as [Heq|Hne].
    + assert (Hs : (n - k * c) * S < 1 * S) by nia.
      apply Z.mul_lt_mono_pos_r in Hs; lia.
    + assert (Hs : n * S < (k * c) * S) by nia.
      apply Z.mul_lt_mono_pos_r in Hs; lia.
Qed.

Lemma ceil_div_of_halved (n c S' q r v k : Z) :
  0 < c <= S' ->
  n * (2 * S') = c * q + r -> 0 <= r < c -> 2 <= q ->
  q / 2 <= v <= q / 2 + 1 -> (r = 0 -> forall h, q = 2 * h -> v = h) ->
  (k - 1) * S' < v <= k * S' ->
  1 <= k /\ (k - 1) * c < n <= k * c.
Proof.
  intros HcS HM Hr Hq Hv Hexact Hk.
  pose proof (Z.div_mod q 2 ltac:(lia)) as Hdiv.
  pose proof (Z.mod_pos_bound q 2 ltac:(lia)) as Hmod.
  set (h := q / 2) in *. set (b := q mod 2) in *.
  assert (Hh : 1 <= h) by lia.
  assert (H1 : 1 <= k) by nia.
  split; [exact H1|]. split.
  - assert (Hle : (k - 1) * S' <= h) by lia.
    assert (Hle2 : (k - 1) * (2 * S') <= q) by lia.
    destruct (Z.eq_dec ((k - 1) * (2 * S')) q) as [Heq|Hne].
    + destruct (Z.eq_dec r 0) as [Hr00|Hrn].
      * rewrite (Hexact Hr00 ((k - 1) * S')) in Hk by lia. lia.
      * assert (Hs : ((k - 1) * c) * (2 * S') < n * (2 * S')) by nia.
        apply Z.mul_lt_mono_pos_r in Hs; [exact Hs | lia].
    + assert (Hs : ((k - 1) * c) * (2 * S') < n * (2 * S')) by nia.
      apply Z.mul_lt_mono_pos_r in Hs; [exact Hs | lia].
  - destruct (Z.eq_dec h (k * S')) as [Heq|Hne].
    + assert (Hs : (n - k * c) * (2 * S') < 1 * (2 * S')) by nia.
      apply Z.mul_lt_mono_pos_r in Hs; lia.
    + assert (Hq1 : q + 1 <= k * (2 * S')) by lia.
      assert (Hs : n * (2 * S') < (k * c) * (2 * S')) by nia.
      apply Z.mul_lt_mono_pos_r in Hs; lia.
Qed.

(** The logarithm of a count below 2^52. *)
Lemma log2_below_52 (n : Z) :
  1 <= n < 2 ^ 52 ->
  0 <= Z.log2 n <= 51
  /\ 2 ^ Z.log2 n <= n < 2 * 2 ^ Z.log2 n.
Proof.
  intros Hn. pose proof (Z.log2_nonneg n) as H0.
  pose proof (Z.log2_spec n ltac:(lia)) as Hs.
  rewrite Z.pow_succ_r in Hs by exact H0.
  assert (Z.log2 n < 52) by (apply Z.log2_lt_pow2; lia).
  lia.
Qed.

(** [float(n)] is exact below 2^52: the count shifted to 53 digits. *)
Lemma round_int_exact (n : Z) :
  1 <= n < 2 ^ 52 ->
  exists mz,
    round_int n = S754_finite false mz (Z.log2 n - 52)
    /\ Zpos mz = n * 2 ^ (52 - Z.log2 n)
    /\ 2 ^ 52 <= Zpos mz < 2 ^ 53.
Proof.
  intros Hn. destruct (log2_below_52 n Hn) as (HL & Hpow).
  destruct n as [|p|p]; try lia.
  unfold round_int, binary_normalize, binary_round.
  rewrite digits2_pos_log2.
  set (L := Z.log2 (Zpos p)) in *.
  unfold fexp, emin, prec, emax.
  replace (Z.max (L + 1 + 0 - 53) (3 - 1024 - 53)) with (L - 52) by lia.
  unfold shl_align.
  destruct (L - 52 - 0) as [|d|d] eqn:Hd; try lia.
  assert (Hmz : Zpos (Pos.iter xO p d) = Zpos p * 2 ^ (52 - L)).
  { rewrite iter_xO_pow2. f_equal. f_equal. lia. }
  assert (Hb : 2 ^ 52 <= Zpos (Pos.iter xO p d) < 2 ^ 53).
  { rewrite Hmz.
    assert (HP : 2 ^ L * 2 ^ (52 - L) = 2 ^ 52).
    { rewrite <- Z.pow_add_r by lia. f_equal. lia. }
    assert (0 < 2 ^ (52 - L)) by (apply Z.pow_pos_nonneg; lia).
    change (2 ^ 53) with (2 * 2 ^ 52). rewrite <- HP.
    set (A := 2 ^ L) in *. set (B := 2 ^ (52 - L)) in *. nia. }
  exists (Pos.iter xO p d).
  split; [|split; [exact Hmz | exact Hb]].
  apply (binary_round_aux_exact (Pos.iter xO p d) (L - 52)); [exact Hb | lia].
Qed.

(** [math.ceil(math.sqrt(n))] is the ceiling of the square root. *)
Lemma fceil_fsqrt_exact (n : Z) :
  1 <= n < 2 ^ 52 ->
  exists fn c,
    float_of_int n = Some fn
    /\ fceil (fsqrt fn) = Some c
    /\ 1 <= c /\ (c - 1) * (c - 1) < n <= c * c.
Proof.
  intros Hn. destruct (log2_below_52 n Hn) as (HL & Hpow).
  destruct (round_int_exact n Hn) as (mz & Hround & Hmz & Hmzb).
  set (L := Z.log2 n) in *.
  exists (S754_finite false mz (L - 52)).
  assert (Hfloat : float_of_int n = Some (S754_finite false mz (L - 52))).
  { unfold float_of_int. rewrite Hround. reflexivity. }
  set (j := (L + 2) / 2).
  assert (Hj : 2 * j <= L + 2 <= 2 * j + 1).
  { unfold j. pose proof (Z.div_mod (L + 2) 2 ltac:(lia)).
    pose proof (Z.mod_pos_bound (L + 2) 2 ltac:(lia)). lia. }
  set (K := 2 ^ (53 - j)). set (J := 2 ^ j).
  assert (HJ0 : 0 < J) by (apply Z.pow_pos_nonneg; lia).
  assert (HK0 : 0 < K) by (apply Z.pow_pos_nonneg; lia).
  assert (HKJ : K * J = 2 ^ 53).
  { unfold K, J. rewrite <- Z.pow_add_r by lia. f_equal. lia. }
  assert (HJ26 : J <= 2 ^ 26) by (apply Z.pow_le_mono_r; lia).
  assert (HK27 : 2 ^ 27 <= K) by (apply Z.pow_le_mono_r; lia).
  assert (HJJ : J * J = 2 ^ (2 * j)).
  { unfold J. rewrite <- Z.pow_add_r by lia. f_equal. lia. }
  assert (HnJ : n < J * J).
  { rewrite HJJ.
    assert (2 ^ (L + 1) <= 2 ^ (2 * j)) by (apply Z.pow_le_mono_r; lia).
    replace (L + 1) with (Z.succ L) in H by lia.
    rewrite Z.pow_succ_r in H by lia. lia. }
  assert (HJn : J * J <= 4 * n).
  { rewrite HJJ.
    assert (2 ^ (2 * j) <= 2 ^ (L + 2)) by (apply Z.pow_le_mono_r; lia).
    replace (L + 2) with (Z.succ (Z.succ L)) in H by lia.
    rewrite !Z.pow_succ_r in H by lia. lia. }
  unfold fsqrt, SFsqrt, SFsqrt_core_binary.
  unfold Zdigits2. rewrite (digits2_pos_bounds mz 53) by (try lia; exact Hmzb).
  rewrite !Z.div2_div.
  assert (He : Z.min (fexp prec emax ((53 + (L - 52) + 1) / 2))
                     ((L - 52) / 2) = j - 53).
  { unfold fexp, emin, prec, emax.
    replace (53 + (L - 52) + 1) with (L + 2) by lia. fold j.
    pose proof (Z.div_mod (L - 52) 2 ltac:(lia)).
    pose proof (Z.mod_pos_bound (L - 52) 2 ltac:(lia)). lia. }
  rewrite He.
  destruct (L - 52 - 2 * (j - 53)) as [|s|s] eqn:Hs; try lia.
  rewrite Z.shiftl_mul_pow2 by lia.
  assert (HM : Zpos mz * 2 ^ Zpos s = n * (K * K)).
  { rewrite Hmz, <- Z.mul_assoc. f_equal. unfold K.
    rewrite <- !Z.pow_add_r by lia. f_equal. lia. }
  rewrite HM.
  pose proof (Z.sqrtrem_spec (n * (K * K)) ltac:(nia)) as Hspec.
  destruct (Z.sqrtrem (n * (K * K))) as [q r].
  destruct Hspec as (Hqr & Hr).
  assert (Hqb : 2 ^ 52 <= q < 2 ^ 53).
  { assert (Hup : n * (K * K) < 2 ^ 53 * 2 ^ 53).
    { rewrite <- HKJ.
      assert (n * (K * K) < (J * J) * (K * K)) by nia. nia. }
    assert (Hlo : 2 ^ 52 * 2 ^ 52 <= n * (K * K)).
    { assert (4 * (2 ^ 52 * 2 ^ 52) = (K * J) * (K * J))
        by (rewrite HKJ; reflexivity).
      nia. }
    split; nia. }
  destruct q as [|qp|qp]; try lia.
  set (l := if r =? 0 then loc_Exact
            else loc_Inexact (if r <=? Zpos qp then Lt else Gt)).
  destruct (binary_round_aux_53 qp (j - 53) l Hqb ltac:(lia))
    as (R & E & Hres & HE & HV).
  rewrite Hres.
  destruct (fceil_in_unit R E (j - 53) _ HE ltac:(lia) HV) as (c & Hc & Hcb).
  exists c. split; [exact Hfloat|]. split; [exact Hc|].
  replace (- (j - 53)) with (53 - j) in Hcb by lia. fold K in Hcb.
  pose proof (round_nearest_even_bounds (Zpos qp) l) as (Hr0 & Hexact).
  apply (ceil_sqrt_of_rounded n K J (Zpos qp) r
           (round_nearest_even (Zpos qp) l) c); try assumption; try lia.
  intros Hr00. apply Hexact. unfold l. now rewrite Hr00.
Qed.

Lemma new_location_exact (c : Z) : new_location c 0 = loc_Exact.
Proof.
  unfold new_location, new_location_even, new_location_odd.
  now destruct (Z.even c).
Qed.

(** [math.ceil(n / c)] is the ceiling of the quotient. *)
Lemma fceil_int_truediv_exact (n c : Z) :
  1 <= n < 2 ^ 52 -> 1 <= c <= n ->
  exists x k,
    int_truediv n c = Some x
    /\ fceil x = Some k
    /\ 1 <= k /\ (k - 1) * c < n <= k * c.
Proof.
  intros Hn Hc.
  destruct (log2_below_52 n Hn) as (HL1 & Hpow1).
  destruct (log2_below_52 c ltac:(lia)) as (HL2 & Hpow2).
  assert (HL : Z.log2 c <= Z.log2 n) by (apply Z.log2_le_mono; lia).
  destruct n as [|pn|pn]; try lia. destruct c as [|pc|pc]; try lia.
  set (L1 := Z.log2 (Zpos pn)) in *. set (L2 := Z.log2 (Zpos pc)) in *.
  set (e := L1 - L2 - 53).
  set (S := 2 ^ (- e)).
  set (A := 2 ^ L2) in *. set (B := 2 ^ L1) in *.
  assert (HA0 : 0 < A) by (apply Z.pow_pos_nonneg; lia).
  assert (HBS : B * S = 2 ^ 53 * A).
  { unfold B, S, A, e. rewrite <- !Z.pow_add_r by lia. f_equal. lia. }
  assert (HS4 : 4 * A <= S).
  { unfold S, A, e. change 4 with (2 ^ 2). rewrite <- Z.pow_add_r by lia.
    apply Z.pow_le_mono_r; lia. }
  unfold int_truediv, SFdiv, SFdiv_core_binary. cbn [xorb].
  unfold Zdigits2. rewrite !digits2_pos_log2. fold L1 L2.
  assert (He : Z.min (fexp prec emax (L1 + 1 + 0 - (L2 + 1 + 0))) (0 - 0) = e).
  { unfold fexp, emin, prec, emax, e. lia. }
  rewrite He.
  destruct (0 - 0 - e) as [|s|s] eqn:Hs; try lia.
  rewrite Z.shiftl_mul_pow2 by lia.
  replace (Zpos s) with (- e) by lia. fold S.
  pose proof (Z_div_mod (Zpos pn * S) (Zpos pc) ltac:(lia)) as Hspec.
  destruct (Z.div_eucl (Zpos pn * S) (Zpos pc)) as [q r].
  destruct Hspec as (Hqr & Hr).
  assert (Hqb : 2 ^ 52 <= q < 2 ^ 54).
  { change (2 ^ 54) with (2 * 2 ^ 53). change (2 ^ 53) with (2 * 2 ^ 52) in *.
    split; nia. }
  set (l := new_location (Zpos pc) r).
  assert (Hl : r = 0 -> l = loc_Exact).
  { intros ->. apply new_location_exact. }
  destruct q as [|qp|qp]; try lia.
  destruct (Z_lt_le_dec (Zpos qp) (2 ^ 53)) as [H53|H54].
  - destruct (binary_round_aux_53 qp e l ltac:(lia) ltac:(unfold e; lia))
      as (R & E & Hres & HE & HV).
    rewrite Hres. cbn [is_finite].
    destruct (fceil_in_unit R E e _ HE ltac:(unfold e in *; lia) HV)
      as (k & Hk & Hkb).
    fold S in Hkb.
    exists (S754_finite false R E), k.
    split; [reflexivity|]. split; [exact Hk|].
    pose proof (round_nearest_even_bounds (Zpos qp) l) as (Hr0 & Hexact).
    apply (ceil_div_of_rounded (Zpos pn) (Zpos pc) S (Zpos qp) r
             (round_nearest_even (Zpos qp) l) k);
      try assumption; try lia.
    intros Hr00. apply Hexact, Hl, Hr00.
  - destruct (binary_round_aux_54 qp e l ltac:(lia) ltac:(unfold e; lia))
      as (R & E & V & Hres & HE & HV & HVb & HVe).
    rewrite Hres. cbn [is_finite].
    destruct (fceil_in_unit R E (e + 1) V HE ltac:(unfold e in *; lia) HV)
      as (k & Hk & Hkb).
    set (S' := 2 ^ (- (e + 1))) in *.
    assert (HS' : S = 2 * S').
    { unfold S, S'. replace (- e) with (Z.succ (- (e + 1))) by lia.
      rewrite Z.pow_succ_r by (unfold e; lia). reflexivity. }
    exists (S754_finite false R E), k.
    split; [reflexivity|]. split; [exact Hk|].
    apply (ceil_div_of_halved (Zpos pn) (Zpos pc) S' (Zpos qp) r V k);
      try assumption; try lia.
    intros Hr00. apply HVe, Hl, Hr00.
Qed.

End Binary64.

(** Up to 2^52 the two ceilings are computed exactly: below 2^52 by the
    arithmetic above, at 2^52 by evaluation. *)
Lemma compute_layout_grid (n : Z) :
  (1 <= n <= 2 ^ 52)%Z ->
  exists lay, compute_layout n = Some lay /\ grid_exact n lay.
Proof.
  intros Hn. destruct (Z.eq_dec n (2 ^ 52)) as [->|Hne].
  - apply grid_exactb_sound. vm_compute. reflexivity.
  - destruct (fceil_fsqrt_exact n ltac:(lia))
      as (fn & c & Hfn & Hc & Hc1 & Hcb).
    destruct (fceil_int_truediv_exact n c ltac:(lia) ltac:(nia))
      as (x & k & Hx & Hk & Hk1 & Hkb).
    unfold compute_layout. destruct (Z.leb_spec n 0); [lia|].
    rewrite Hfn. cbn [bind]. rewrite Hc. cbn [bind].
    rewrite (Z.max_r 1 c) by lia. rewrite Hx. cbn [bind].
    rewrite Hk. cbn [bind]. rewrite (Z.max_r 1 k) by lia.
    eexists. split; [reflexivity|].
    unfold grid_exact. cbn [cols rows]. lia.
Qed.





(** Scenario D of the specification: 200 hosts give 15 columns, 14 rows and
    the scale 0.6. *)
Lemma compute_layout_200 :
  compute_layout 200 =
    Some (mkLayout 15 14 (round_int 96) (round_int 42) (round_int 24)
                   (round_int 24))
  /\ scale_spec 200 = f_0_6.
Proof. split; reflexivity. Qed.

(** * Further properties of the program *)

(** ** The OS-guess update rule, continued *)

(** The OS fields of a record are well formed when an accuracy is held only
    together with a guess, and the guess held is not the empty string. *)
Definition os_wellformed (h : Host) : Prop :=
  match os_guess h with
  | None => os_accuracy h = None
  | Some g => g <> ""
  end.

Lemma maybe_set_os_wellformed (h : Host) (guess : option string)
    (acc : option Z) :
  os_wellformed h -> os_wellformed (_maybe_set_os h guess acc).
Proof.
  unfold os_wellformed, _maybe_set_os. intros Hh.
  destruct guess as [g|]; simpl; [|exact Hh].
  destruct (String.eqb_spec g "") as [->|Hg]; simpl; [exact Hh|].
  destruct (os_guess h) as [g0|] eqn:Hg0; simpl; [|exact Hg].
  destruct acc as [a|]; [|now rewrite Hg0].
  destruct (os_accuracy h) as [e|]; [|exact Hg].
  destruct (a >? e)%Z; simpl; [exact Hg | now rewrite Hg0].
Qed.

Lemma maybe_set_os_other_fields (h : Host) (guess : option string)
    (acc : option Z) :
  ip (_maybe_set_os h guess acc) = ip h
  /\ name (_maybe_set_os h guess acc) = name h
  /\ ports (_maybe_set_os h guess acc) = ports h.
Proof.
  unfold _maybe_set_os.
  destruct (negb (truthy guess)); [now repeat split|].
  destruct (os_guess h); [|now repeat split].
  destruct acc as [a|]; [|now repeat split].
  destruct (os_accuracy h) as [e|]; [|now repeat split].
  destruct (a >? e)%Z; now repeat split.
Qed.

(** X1: [_maybe_set_os] keeps the OS fields well formed: after any sequence
    of updates on a record that holds no accuracy without a guess and no
    empty guess, the record still holds no accuracy without a guess and no
    empty guess; the address, the name and the ports are never touched. *)
Theorem maybe_set_os_keeps_os_wellformed (h : Host)
    (us : list (option string * option Z)) :
  os_wellformed h ->
  os_wellformed (apply_guesses h us)
  /\ ip (apply_guesses h us) = ip h
  /\ name (apply_guesses h us) = name h
  /\ ports (apply_guesses h us) = ports h.
Proof.
  revert h. induction us as [|[g a] us IH]; intros h Hh; simpl.
  - now repeat split.
  - destruct (IH (_maybe_set_os h g a) (maybe_set_os_wellformed h g a Hh))
      as (H1 & H2 & H3 & H4).
    destruct (maybe_set_os_other_fields h g a) as (E2 & E3 & E4).
    repeat split; [exact H1 | congruence | congruence | congruence].
Qed.

Definition host_fresh : Host := mkHost "10.0.0.7" None [] None None.

Lemma maybe_set_os_keeps_os_wellformed_witness :
  os_wellformed host_fresh
  /\ os_wellformed
       (apply_guesses host_fresh [(None, Some 90%Z); (Some "Linux", None)])
  /\ ip (apply_guesses host_fresh [(None, Some 90%Z); (Some "Linux", None)])
     = ip host_fresh
  /\ name (apply_guesses host_fresh [(None, Some 90%Z); (Some "Linux", None)])
     = name host_fresh
  /\ ports (apply_guesses host_fresh [(None, Some 90%Z); (Some "Linux", None)])
     = ports host_fresh.
Proof.
  split; [reflexivity|].
  apply (maybe_set_os_keeps_os_wellformed host_fresh). reflexivity.
Defined.

(** X2: an update applied twice in a row has the effect of applying it
    once: a report line that is repeated changes nothing the second
    time. *)
Theorem maybe_set_os_idempotent (h : Host) (guess : option string)
    (acc : option Z) :
  _maybe_set_os (_maybe_set_os h guess acc) guess acc
  = _maybe_set_os h guess acc.
Proof.
  unfold _maybe_set_os.
  destruct (truthy guess) eqn:Hg; simpl; [|reflexivity].
  destruct (os_guess h) as [g0|] eqn:Hg0;
    destruct acc as [a|];
    destruct (os_accuracy h) as [e|] eqn:He;
    try destruct (a >? e)%Z eqn:Hae;
    destruct guess as [g|]; try discriminate; simpl;
    rewrite ?Hg0, ?He, ?Hae, ?Z.gtb_ltb, ?Z.ltb_irrefl; reflexivity.
Qed.

(** ** The merge engine, record by record *)

(** The records of a list that carry the address [a], in list order. *)
Definition records_of (a : string) (hosts : list Host) : list Host :=
  filter (fun h => ip h =? a) hosts.

(** The three updates that a later record [h] makes to the record
    [existing] of its address: the name (lines 375-376), the OS guess in the
    form of [_maybe_set_os] (lines 379-386) and the ports (lines 388-390). *)
Definition merge_record (existing h : Host) : Host :=
  let existing :=
    if negb (truthy (name existing)) && truthy (name h)
    then set_name existing (name h) else existing in
  let existing := _maybe_set_os existing (os_guess h) (os_accuracy h) in
  merge_ports existing (ports h).

Definition absorb (o : option Host) (h : Host) : option Host :=
  match o with
  | None => Some h
  | Some existing => Some (merge_record existing h)
  end.

Lemma dict_get_set_same {V : Type} (k : string) (v : V) (d : PyDict.t V) :
  PyDict.get k (PyDict.set k v d) = Some v.
Proof.
  induction d as [|[k' v'] d IH]; simpl.
  - now rewrite String.eqb_refl.
  - destruct (k =? k') eqn:E; simpl; rewrite E; [reflexivity | exact IH].
Qed.

Lemma dict_get_set_other {V : Type} (a k : string) (v : V) (d : PyDict.t V) :
  a <> k -> PyDict.get a (PyDict.set k v d) = PyDict.get a d.
Proof.
  intros Hne. induction d as [|[k' v'] d IH]; simpl.
  - apply String.eqb_neq in Hne. now rewrite Hne.
  - destruct (String.eqb_spec k k') as [<-|Hk]; simpl.
    + apply String.eqb_neq in Hne. now rewrite Hne.
    + destruct (a =? k'); [reflexivity | exact IH].
Qed.

Lemma dict_in_get {V : Type} (d : PyDict.t V) :
  forall k v, NoDup (PyDict.keys d) -> In (k, v) d -> PyDict.get k d = Some v.
Proof.
  induction d as [|[k' v'] d IH]; intros k v Hnd Hin; [destruct Hin|].
  simpl in *. inversion Hnd as [|? ? Hnotin Hnd']; subst.
  destruct Hin as [[= -> ->]|Hin].
  - now rewrite String.eqb_refl.
  - destruct (String.eqb_spec k k') as [->|Hne]; [|now apply IH].
    exfalso. apply Hnotin. unfold PyDict.keys.
    change k' with (fst (k', v)). now apply in_map.
Qed.

(** The branch of [merge_step] for a repeated address writes back
    [merge_record]: the OS rule written out in the merge loop is the rule
    of [_maybe_set_os]. *)
Lemma merge_step_record (d : PyDict.t Host) (h : Host) :
  merge_step d h =
    match PyDict.get (ip h) d with
    | None => PyDict.set (ip h) h d
    | Some existing => PyDict.set (ip h) (merge_record existing h) d
    end.
Proof.
  unfold merge_step, merge_record, _maybe_set_os.
  destruct (PyDict.get (ip h) d) as [existing|]; [|now destruct h].
  do 2 f_equal.
  destruct (truthy (os_guess h)); reflexivity.
Qed.

Lemma merge_step_get (d : PyDict.t Host) (h : Host) (a : string) :
  PyDict.get a (merge_step d h) =
    if ip h =? a then absorb (PyDict.get a d) h else PyDict.get a d.
Proof.
  rewrite merge_step_record.
  destruct (String.eqb_spec (ip h) a) as [<-|Hne].
  - destruct (PyDict.get (ip h) d); simpl; apply dict_get_set_same.
  - destruct (PyDict.get (ip h) d);
      apply dict_get_set_other; congruence.
Qed.

Lemma merge_fold_get (hosts : list Host) (a : string) :
  forall d,
    PyDict.get a (fold_left merge_step hosts d) =
      fold_left absorb (records_of a hosts) (PyDict.get a d).
Proof.
  induction hosts as [|h hosts IH]; intros d; simpl; [reflexivity|].
  rewrite IH, merge_step_get.
  now destruct (ip h =? a).
Qed.

Lemma absorb_fold_some (rest : list Host) :
  forall e, fold_left absorb rest (Some e) = Some (fold_left merge_record rest e).
Proof.
  induction rest as [|h rest IH]; intros e; simpl; [reflexivity | apply IH].
Qed.

(** Every record of the output is the first input record of its address
    with the later records of that address merged into it one by one. *)
Lemma merge_record_of_address (hosts : list Host) (r : Host) :
  In r (merge_hosts_by_ip hosts) ->
  exists h0 rest,
    records_of (ip r) hosts = h0 :: rest
    /\ r = fold_left merge_record rest h0.
Proof.
  unfold merge_hosts_by_ip. intros Hin.
  set (d := fold_left merge_step hosts PyDict.empty) in *.
  assert (Hkeyed : keyed_by_ip d).
  { apply merge_fold_keyed. intros kv []. }
  assert (Hnd : NoDup (PyDict.keys d)).
  { unfold d. rewrite merge_fold_keys. simpl.
    apply (first_seen_nodup (map ip hosts) []). constructor. }
  unfold PyDict.values in Hin. apply in_map_iff in Hin.
  destruct Hin as ([k v] & Hv & Hkv). simpl in Hv. subst v.
  pose proof (Hkeyed _ Hkv) as Hk. simpl in Hk. subst k.
  apply dict_in_get in Hkv; [|exact Hnd].
  unfold d in Hkv. rewrite merge_fold_get in Hkv. simpl in Hkv.
  destruct (records_of (ip r) hosts) as [|h0 rest]; [discriminate|].
  simpl in Hkv. rewrite absorb_fold_some in Hkv.
  exists h0, rest. split; [reflexivity | congruence].
Qed.

Lemma merge_ports_other_fields (ps : list string) :
  forall e,
    name (merge_ports e ps) = name e
    /\ os_guess (merge_ports e ps) = os_guess e
    /\ os_accuracy (merge_ports e ps) = os_accuracy e.
Proof.
  unfold merge_ports.
  induction ps as [|p ps IH]; intros e; simpl; [now repeat split|].
  destruct (IH (if str_in p (ports e) then e
                else set_ports e (ports e ++ [p]))) as (H1 & H2 & H3).
  rewrite H1, H2, H3. now destruct (str_in p (ports e)).
Qed.

Lemma merge_ports_in (ps : list string) :
  forall e p,
    In p (ports (merge_ports e ps)) <-> In p (ports e) \/ In p ps.
Proof.
  unfold merge_ports.
  induction ps as [|q ps IH]; intros e p; simpl; [tauto|].
  rewrite IH. destruct (str_in q (ports e)) eqn:E; simpl.
  - apply str_in_In in E. split; [tauto|].
    intros [H|[<-|H]]; tauto.
  - rewrite in_app_iff. simpl. tauto.
Qed.

(** The OS fields after an update depend on the OS fields before it
    only. *)
Lemma maybe_set_os_os_fields (e e' : Host) (guess : option string)
    (acc : option Z) :
  os_guess e = os_guess e' -> os_accuracy e = os_accuracy e' ->
  os_guess (_maybe_set_os e guess acc) = os_guess (_maybe_set_os e' guess acc)
  /\ os_accuracy (_maybe_set_os e guess acc)
     = os_accuracy (_maybe_set_os e' guess acc).
Proof.
  intros Hg Ha. unfold _maybe_set_os. rewrite Hg, Ha.
  destruct (negb (truthy guess)); [now split|].
  destruct (os_guess e') eqn:Hg'; [|now split].
  destruct acc as [a|]; [|split; congruence].
  destruct (os_accuracy e') as [v|] eqn:Ha'; [|now split].
  destruct (a >? v)%Z; [now split | split; congruence].
Qed.

Lemma merge_record_os (e e' h : Host) :
  os_guess e = os_guess e' -> os_accuracy e = os_accuracy e' ->
  os_guess (merge_record e h)
    = os_guess (_maybe_set_os e' (os_guess h) (os_accuracy h))
  /\ os_accuracy (merge_record e h)
     = os_accuracy (_maybe_set_os e' (os_guess h) (os_accuracy h)).
Proof.
  intros Hg Ha. unfold merge_record. cbv zeta.
  match goal with
  | |- context [merge_ports ?x ?ps] =>
      destruct (merge_ports_other_fields ps x) as (_ & -> & ->)
  end.
  apply maybe_set_os_os_fields;
    destruct (negb (truthy (name e)) && truthy (name h)); assumption.
Qed.

Lemma merge_records_os (rest : list Host) :
  forall e e',
    os_guess e = os_guess e' -> os_accuracy e = os_accuracy e' ->
    os_guess (fold_left merge_record rest e)
      = os_guess (apply_guesses e'
                    (map (fun h => (os_guess h, os_accuracy h)) rest))
    /\ os_accuracy (fold_left merge_record rest e)
       = os_accuracy (apply_guesses e'
                        (map (fun h => (os_guess h, os_accuracy h)) rest)).
Proof.
  induction rest as [|h rest IH]; intros e e' Hg Ha; simpl; [now split|].
  destruct (merge_record_os e e' h Hg Ha) as (Hg' & Ha').
  now apply IH.
Qed.

(** X3: the OS guess and accuracy of a merged record are those that
    [_maybe_set_os] produces when the first record of the address is
    offered, in input order, the guess and accuracy of every later record
    of that address: the rule written out in the merge loop is the rule of
    [_maybe_set_os]. *)
Theorem merge_os_is_maybe_set_os (hosts : list Host) (r : Host) :
  In r (merge_hosts_by_ip hosts) ->
  exists h0 rest,
    records_of (ip r) hosts = h0 :: rest
    /\ os_guess r
       = os_guess (apply_guesses h0
                     (map (fun h => (os_guess h, os_accuracy h)) rest))
    /\ os_accuracy r
       = os_accuracy (apply_guesses h0
                        (map (fun h => (os_guess h, os_accuracy h)) rest)).
Proof.
  intros Hin.
  destruct (merge_record_of_address hosts r Hin) as (h0 & rest & Hrec & ->).
  exists h0, rest. split; [exact Hrec|].
  now apply merge_records_os.
Qed.

Definition hosts_two_reports : list Host :=
  [ mkHost "10.0.0.5" None ["22/tcp ssh"] (Some "Linux 5.x") (Some 88%Z)
  ; mkHost "10.0.0.9" (Some "printer") ["9100/tcp jetdirect"] None None
  ; mkHost "10.0.0.5" (Some "web01") ["80/tcp http"; "22/tcp ssh"]
           (Some "Linux 5.4") (Some 97%Z) ].

Definition host_merged_5 : Host :=
  mkHost "10.0.0.5" (Some "web01") ["22/tcp ssh"; "80/tcp http"]
         (Some "Linux 5.4") (Some 97%Z).

Lemma merge_os_is_maybe_set_os_witness :
  In host_merged_5 (merge_hosts_by_ip hosts_two_reports)
  /\ exists h0 rest,
       records_of (ip host_merged_5) hosts_two_reports = h0 :: rest
       /\ os_guess host_merged_5
          = os_guess (apply_guesses h0
                        (map (fun h => (os_guess h, os_accuracy h)) rest))
       /\ os_accuracy host_merged_5
          = os_accuracy (apply_guesses h0
                           (map (fun h => (os_guess h, os_accuracy h)) rest)).
Proof.
  assert (Hin : In host_merged_5 (merge_hosts_by_ip hosts_two_reports))
    by (vm_compute; now left).
  split; [exact Hin|].
  exact (merge_os_is_maybe_set_os hosts_two_reports host_merged_5 Hin).
Defined.

Lemma merge_record_ip (e h : Host) : ip (merge_record e h) = ip e.
Proof.
  unfold merge_record. cbv zeta. rewrite merge_ports_ip.
  destruct (maybe_set_os_other_fields
              (if negb (truthy (name e)) && truthy (name h)
               then set_name e (name h) else e)
              (os_guess h) (os_accuracy h)) as (-> & _ & _).
  now destruct (negb (truthy (name e)) && truthy (name h)).
Qed.

Lemma merge_record_ports_in (e h : Host) (p : string) :
  In p (ports (merge_record e h)) <-> In p (ports e) \/ In p (ports h).
Proof.
  unfold merge_record. cbv zeta. rewrite merge_ports_in.
  destruct (maybe_set_os_other_fields
              (if negb (truthy (name e)) && truthy (name h)
               then set_name e (name h) else e)
              (os_guess h) (os_accuracy h)) as (_ & _ & ->).
  now destruct (negb (truthy (name e)) && truthy (name h)).
Qed.

Lemma merge_records_ports_in (rest : list Host) (p : string) :
  forall e,
    In p (ports (fold_left merge_record rest e))
    <-> In p (ports e) \/ exists h, In h rest /\ In p (ports h).
Proof.
  induction rest as [|h rest IH]; intros e; simpl.
  - split; [tauto|]. intros [H|(h & [] & _)]. exact H.
  - rewrite IH, merge_record_ports_in. split.
    + intros [[H|H]|(h' & H1 & H2)]; [tauto | right; exists h; tauto |].
      right. exists h'. tauto.
    + intros [H|(h' & [<-|H1] & H2)]; [tauto | tauto |].
      right. exists h'. tauto.
Qed.

(** X4: a merged record lists exactly the ports that the input records of
    its address list: no port of the address is lost and none is taken from
    another address. *)
Theorem merge_ports_are_union (hosts : list Host) (r : Host) (p : string) :
  In r (merge_hosts_by_ip hosts) ->
  (In p (ports r)
   <-> exists h, In h hosts /\ ip h = ip r /\ In p (ports h)).
Proof.
  intros Hin.
  destruct (merge_record_of_address hosts r Hin) as (h0 & rest & Hrec & Hr).
  assert (Hmem : forall h, In h (h0 :: rest) <-> In h hosts /\ ip h = ip r).
  { intros h. rewrite <- Hrec. unfold records_of. rewrite filter_In.
    now rewrite String.eqb_eq. }
  rewrite Hr at 1. rewrite merge_records_ports_in. split.
  - intros [H|(h & H1 & H2)].
    + exists h0. destruct (proj1 (Hmem h0) (or_introl eq_refl)). tauto.
    + exists h. destruct (proj1 (Hmem h) (or_intror H1)). tauto.
  - intros (h & H1 & H2 & H3).
    destruct (proj2 (Hmem h) (conj H1 H2)) as [<-|H]; [now left|].
    right. now exists h.
Qed.

Lemma merge_ports_are_union_witness :
  In host_merged_5 (merge_hosts_by_ip hosts_two_reports)
  /\ (In "80/tcp http" (ports host_merged_5)
      <-> exists h, In h hosts_two_reports /\ ip h = ip host_merged_5
                    /\ In "80/tcp http" (ports h)).
Proof.
  assert (Hin : In host_merged_5 (merge_hosts_by_ip hosts_two_reports))
    by (vm_compute; now left).
  split; [exact Hin|].
  exact (merge_ports_are_union hosts_two_reports host_merged_5
           "80/tcp http" Hin).
Defined.

Lemma merge_record_name (e h : Host) :
  name (merge_record e h) =
    if negb (truthy (name e)) && truthy (name h) then name h else name e.
Proof.
  unfold merge_record. cbv zeta.
  match goal with
  | |- context [merge_ports ?x ?ps] =>
      destruct (merge_ports_other_fields ps x) as (-> & _ & _)
  end.
  destruct (maybe_set_os_other_fields
              (if negb (truthy (name e)) && truthy (name h)
               then set_name e (name h) else e)
              (os_guess h) (os_accuracy h)) as (_ & -> & _).
  now destruct (negb (truthy (name e)) && truthy (name h)).
Qed.

Lemma merge_records_name (rest : list Host) :
  forall e,
    name (fold_left merge_record rest e) =
      if truthy (name e) then name e
      else match List.find (fun h => truthy (name h)) rest with
           | Some h => name h
           | None => name e
           end.
Proof.
  induction rest as [|h rest IH]; intros e; simpl.
  - now destruct (truthy (name e)).
  - rewrite IH, merge_record_name.
    destruct (truthy (name e)) eqn:He; simpl.
    + now rewrite He.
    + destruct (truthy (name h)) eqn:Hh; [now rewrite Hh|].
      now rewrite He.
Qed.

(** X5: the name of a merged record is the first usable name (neither
    absent nor empty) among the input records of its address, in input
    order; when no record of the address has one, it is the name field of
    the first record.  A usable name, once taken, is never replaced. *)
Theorem merge_name_is_first_usable (hosts : list Host) (r : Host) :
  In r (merge_hosts_by_ip hosts) ->
  exists h0 rest,
    records_of (ip r) hosts = h0 :: rest
    /\ name r =
         match List.find (fun h => truthy (name h)) (h0 :: rest) with
         | Some h => name h
         | None => name h0
         end.
Proof.
  intros Hin.
  destruct (merge_record_of_address hosts r Hin) as (h0 & rest & Hrec & ->).
  exists h0, rest. split; [exact Hrec|].
  rewrite merge_records_name. simpl.
  now destruct (truthy (name h0)).
Qed.

Lemma merge_name_is_first_usable_witness :
  In host_merged_5 (merge_hosts_by_ip hosts_two_reports)
  /\ exists h0 rest,
       records_of (ip host_merged_5) hosts_two_reports = h0 :: rest
       /\ name host_merged_5 =
            match List.find (fun h => truthy (name h)) (h0 :: rest) with
            | Some h => name h
            | None => name h0
            end.
Proof.
  assert (Hin : In host_merged_5 (merge_hosts_by_ip hosts_two_reports))
    by (vm_compute; now left).
  split; [exact Hin|].
  exact (merge_name_is_first_usable hosts_two_reports host_merged_5 Hin).
Defined.

Lemma os_wellformed_fields (h h' : Host) :
  os_guess h = os_guess h' -> os_accuracy h = os_accuracy h' ->
  os_wellformed h' -> os_wellformed h.
Proof. unfold os_wellformed. now intros -> ->. Qed.

Lemma apply_guesses_wellformed (us : list (option string * option Z)) :
  forall h, os_wellformed h -> os_wellformed (apply_guesses h us).
Proof.
  induction us as [|[g a] us IH]; intros h Hh; simpl; [exact Hh|].
  apply IH. now apply maybe_set_os_wellformed.
Qed.

Lemma merge_wellformed (hosts : list Host) :
  (forall h, In h hosts -> os_wellformed h) ->
  forall r, In r (merge_hosts_by_ip hosts) -> os_wellformed r.
Proof.
  intros Hall r Hin.
  destruct (merge_record_of_address hosts r Hin) as (h0 & rest & Hrec & Hr).
  destruct (merge_records_os rest h0 h0 eq_refl eq_refl) as (Hg & Ha).
  rewrite <- Hr in Hg, Ha.
  apply (os_wellformed_fields _ _ Hg Ha).
  apply apply_guesses_wellformed. apply Hall.
  assert (Hin0 : In h0 (records_of (ip r) hosts))
    by (rewrite Hrec; now left).
  unfold records_of in Hin0. apply filter_In in Hin0. tauto.
Qed.

(** X6: merging keeps port lists free of repetitions: when no input record
    lists a port twice, no merged record does. *)
Theorem merge_keeps_ports_distinct (hosts : list Host) :
  (forall h, In h hosts -> NoDup (ports h)) ->
  forall r, In r (merge_hosts_by_ip hosts) -> NoDup (ports r).
Proof. exact (merge_ports_distinct hosts). Qed.

Lemma merge_keeps_ports_distinct_witness :
  (forall h, In h hosts_two_reports -> NoDup (ports h))
  /\ forall r, In r (merge_hosts_by_ip hosts_two_reports) -> NoDup (ports r).
Proof.
  assert (H : forall h, In h hosts_two_reports -> NoDup (ports h)).
  { intros h [<-|[<-|[<-|[]]]]; simpl;
      repeat (constructor; [simpl; intuition discriminate|]);
      constructor. }
  split; [exact H|].
  exact (merge_keeps_ports_distinct hosts_two_reports H).
Defined.

Lemma first_seen_length (l : list string) :
  forall seen, List.length (first_seen seen l) <= List.length l.
Proof.
  induction l as [|a l IH]; intros seen; simpl; [lia|].
  destruct (str_in a seen); simpl.
  - specialize (IH seen). lia.
  - specialize (IH (seen ++ [a])). lia.
Qed.

(** X7: merging never adds records: the output is at most as long as the
    input, and it is empty exactly when the input is. *)
Theorem merge_never_longer (hosts : list Host) :
  List.length (merge_hosts_by_ip hosts) <= List.length hosts
  /\ (merge_hosts_by_ip hosts = [] <-> hosts = []).
Proof.
  split.
  - rewrite <- (length_map ip (merge_hosts_by_ip hosts)), merge_addresses.
    rewrite <- (length_map ip hosts). apply first_seen_length.
  - apply merge_nil_iff.
Qed.

(** ** Escaping of labels and tooltips *)

(** The number of occurrences of a character in a string. *)
Fixpoint count_char (c : ascii) (s : string) : nat :=
  match s with
  | EmptyString => 0
  | String x t => (if Ascii.eqb x c then 1 else 0) + count_char c t
  end.

Lemma count_char_app (c : ascii) (a b : string) :
  count_char c (a ++ b)%string = count_char c a + count_char c b.
Proof.
  induction a as [|x a IH]; simpl; [reflexivity|]. rewrite IH. lia.
Qed.

(** The characters that [html.escape] replaces, the ampersand apart. *)
Definition markup_chars : list ascii :=
  [ascii_of_N 60; ascii_of_N 62; ascii_of_N 34; ascii_of_N 39].

Lemma html_escape_count (c : ascii) (s : string) :
  In c markup_chars -> count_char c (html_escape s) = 0.
Proof.
  intros Hc. induction s as [|x s IH]; [reflexivity|].
  cbn [html_escape].
  destruct (is_code 38 x) eqn:E38;
    [rewrite count_char_app, IH;
     destruct Hc as [<-|[<-|[<-|[<-|[]]]]]; reflexivity|].
  destruct (is_code 60 x) eqn:E60;
    [rewrite count_char_app, IH;
     destruct Hc as [<-|[<-|[<-|[<-|[]]]]]; reflexivity|].
  destruct (is_code 62 x) eqn:E62;
    [rewrite count_char_app, IH;
     destruct Hc as [<-|[<-|[<-|[<-|[]]]]]; reflexivity|].
  destruct (is_code 34 x) eqn:E34;
    [rewrite count_char_app, IH;
     destruct Hc as [<-|[<-|[<-|[<-|[]]]]]; reflexivity|].
  destruct (is_code 39 x) eqn:E39;
    [rewrite count_char_app, IH;
     destruct Hc as [<-|[<-|[<-|[<-|[]]]]]; reflexivity|].
  cbn [count_char]. rewrite IH.
  destruct (Ascii.eqb_spec x c) as [->|Hne]; [|reflexivity].
  destruct Hc as [<-|[<-|[<-|[<-|[]]]]]; discriminate.
Qed.

Lemma html_escape_newlines (s : string) :
  count_char LF (html_escape s) = count_char LF s.
Proof.
  induction s as [|x s IH]; [reflexivity|].
  cbn [html_escape].
  destruct (is_code 38 x) eqn:E38.
  { rewrite count_char_app, IH. cbn [count_char].
    destruct (Ascii.eqb_spec x LF) as [->|Hne]; [discriminate | reflexivity]. }
  destruct (is_code 60 x) eqn:E60.
  { rewrite count_char_app, IH. cbn [count_char].
    destruct (Ascii.eqb_spec x LF) as [->|Hne]; [discriminate | reflexivity]. }
  destruct (is_code 62 x) eqn:E62.
  { rewrite count_char_app, IH. cbn [count_char].
    destruct (Ascii.eqb_spec x LF) as [->|Hne]; [discriminate | reflexivity]. }
  destruct (is_code 34 x) eqn:E34.
  { rewrite count_char_app, IH. cbn [count_char].
    destruct (Ascii.eqb_spec x LF) as [->|Hne]; [discriminate | reflexivity]. }
  destruct (is_code 39 x) eqn:E39.
  { rewrite count_char_app, IH. cbn [count_char].
    destruct (Ascii.eqb_spec x LF) as [->|Hne]; [discriminate | reflexivity]. }
  cbn [count_char]. now rewrite IH.
Qed.

Lemma replace_newlines_count (r : string) (c : ascii) (s : string) :
  c <> LF ->
  count_char c (replace_newlines r s) =
    count_char c s + count_char LF s * count_char c r.
Proof.
  intros Hc. induction s as [|x s IH]; [reflexivity|].
  cbn [replace_newlines count_char].
  destruct (is_code 10 x) eqn:E10.
  - assert (Hx : x = LF).
    { unfold is_code, code in E10. apply N.eqb_eq in E10.
      rewrite <- (ascii_N_embedding x), E10. reflexivity. }
    subst x. rewrite count_char_app, IH.
    destruct (Ascii.eqb_spec LF c) as [<-|_]; [congruence|].
    rewrite Ascii.eqb_refl. lia.
  - cbn [count_char]. rewrite IH.
    destruct (Ascii.eqb_spec x LF) as [->|_]; [discriminate|]. lia.
Qed.

Lemma replace_newlines_none (r : string) (s : string) :
  count_char LF r = 0 -> count_char LF (replace_newlines r s) = 0.
Proof.
  intros Hr. induction s as [|x s IH]; [reflexivity|].
  cbn [replace_newlines].
  destruct (is_code 10 x) eqn:E10.
  - rewrite count_char_app, IH, Hr. reflexivity.
  - cbn [count_char]. rewrite IH.
    destruct (Ascii.eqb_spec x LF) as [->|_]; [discriminate | reflexivity].
Qed.

(** X8: whatever the label and the tooltip, the value that
    [html_label_with_tooltip] builds holds exactly the six double quotes
    of its own attributes, no apostrophe and no line break, and its only
    angle brackets are those of its own four tags and of one [<br/>] per
    line break of the label: no text of a host can close an attribute or
    open a tag. *)
Theorem html_label_markup_is_fixed (label_text tooltip : string) :
  let out := html_label_with_tooltip label_text tooltip in
  count_char (ascii_of_N 34) out = 6
  /\ count_char (ascii_of_N 39) out = 0
  /\ count_char LF out = 0
  /\ count_char (ascii_of_N 60) out = 4 + count_char LF label_text
  /\ count_char (ascii_of_N 62) out = 4 + count_char LF label_text.
Proof.
  cbv zeta. unfold html_label_with_tooltip. cbv zeta.
  repeat split; rewrite !count_char_app.
  - rewrite !replace_newlines_count by discriminate.
    rewrite ?(html_escape_count _ tooltip), ?(html_escape_count _ label_text)
      by (unfold markup_chars; simpl; tauto).
    cbn. lia.
  - rewrite !replace_newlines_count by discriminate.
    rewrite ?(html_escape_count _ tooltip), ?(html_escape_count _ label_text)
      by (unfold markup_chars; simpl; tauto).
    cbn. lia.
  - rewrite !replace_newlines_none by reflexivity. reflexivity.
  - rewrite !replace_newlines_count by discriminate.
    rewrite ?(html_escape_count _ tooltip), ?(html_escape_count _ label_text)
      by (unfold markup_chars; simpl; tauto).
    rewrite !html_escape_newlines. cbn. lia.
  - rewrite !replace_newlines_count by discriminate.
    rewrite ?(html_escape_count _ tooltip), ?(html_escape_count _ label_text)
      by (unfold markup_chars; simpl; tauto).
    rewrite !html_escape_newlines. cbn. lia.
Qed.

(** X9: the branding label escapes its text in the same way: the value
    holds the four double quotes and the four tags of its template and
    nothing of the kind from the text. *)
Theorem branding_html_markup_is_fixed (text : string) :
  count_char (ascii_of_N 34) (branding_html text) = 4
  /\ count_char (ascii_of_N 39) (branding_html text) = 0
  /\ count_char (ascii_of_N 60) (branding_html text) = 4
  /\ count_char (ascii_of_N 62) (branding_html text) = 4.
Proof.
  unfold branding_html. cbv zeta.
  repeat split; rewrite !count_char_app;
    rewrite (html_escape_count _ text) by (unfold markup_chars; simpl; tauto);
    reflexivity.
Qed.

(** ** Identifiers: [str] and [int] on integers *)

Lemma digit_char_digit (m : nat) :
  m < 10 ->
  is_digit (digit_char m) = true /\ digit_val (digit_char m) = Z.of_nat m.
Proof.
  intros H. do 10 (destruct m as [|m]; [split; reflexivity|]). lia.
Qed.

Lemma str_of_nat_aux_step (f n : nat) (acc : string) :
  str_of_nat_aux (S f) n acc =
    match n / 10 with
    | O => String (digit_char (n mod 10)) acc
    | S q => str_of_nat_aux f (S q) (String (digit_char (n mod 10)) acc)
    end.
Proof. cbn [str_of_nat_aux]. now destruct (n / 10). Qed.

Lemma int_digits_digit (a : Z) (b : bool) (m : nat) (rest : string) :
  m < 10 ->
  int_digits a b (String (digit_char m) rest) =
    int_digits (10 * a + Z.of_nat m) true rest.
Proof.
  intros Hm. destruct (digit_char_digit m Hm) as (Hd & Hv).
  cbn [int_digits]. now rewrite Hd, Hv.
Qed.

(** Reading back the digits that [str] writes in front of [rest]. *)
Lemma int_digits_str_of_nat_aux (fuel : nat) :
  forall n rest,
    n < fuel ->
    exists k : nat,
      forall a b,
        int_digits a b (str_of_nat_aux fuel n rest) =
          int_digits (a * 10 ^ Z.of_nat k + Z.of_nat n) true rest.
Proof.
  induction fuel as [|f IH]; intros n rest Hn; [lia|].
  rewrite str_of_nat_aux_step.
  assert (Hmod : n mod 10 < 10) by (apply Nat.mod_upper_bound; lia).
  pose proof (Nat.div_mod_eq n 10) as Hdm.
  destruct (n / 10) as [|q] eqn:Hq.
  - exists 1. intros a b. rewrite int_digits_digit by exact Hmod.
    f_equal. change (10 ^ Z.of_nat 1)%Z with 10%Z.
    lia.
  - destruct (IH (S q) (String (digit_char (n mod 10)) rest)) as (k & Hk);
      [lia|].
    exists (S k). intros a b. rewrite Hk, int_digits_digit by exact Hmod.
    f_equal. rewrite (Nat2Z.inj_succ k), Z.pow_succ_r by lia.
    lia.
Qed.

(** A string made of characters of a class. *)
Fixpoint all_chars (p : ascii -> bool) (s : string) : bool :=
  match s with
  | EmptyString => true
  | String c t => p c && all_chars p t
  end.

Lemma str_of_nat_aux_digits (fuel : nat) :
  forall n acc,
    all_chars is_digit acc = true ->
    all_chars is_digit (str_of_nat_aux fuel n acc) = true.
Proof.
  induction fuel as [|f IH]; intros n acc Hacc; [exact Hacc|].
  rewrite str_of_nat_aux_step.
  assert (Hmod : n mod 10 < 10) by (apply Nat.mod_upper_bound; lia).
  destruct (digit_char_digit _ Hmod) as (Hd & _).
  destruct (n / 10) as [|q]; [|apply IH]; cbn [all_chars];
    now rewrite Hd, Hacc.
Qed.

Lemma str_of_nat_aux_nonempty (fuel : nat) :
  forall n acc, acc <> "" -> str_of_nat_aux fuel n acc <> "".
Proof.
  induction fuel as [|f IH]; intros n acc Hacc; [exact Hacc|].
  rewrite str_of_nat_aux_step.
  destruct (n / 10) as [|q]; [discriminate | apply IH; discriminate].
Qed.

Lemma str_of_nat_shape (n : nat) :
  exists c t,
    str_of_nat n = String c t
    /\ is_digit c = true
    /\ all_chars is_digit t = true.
Proof.
  unfold str_of_nat.
  pose proof (str_of_nat_aux_digits (S n) n "" eq_refl) as Hd.
  assert (Hne : str_of_nat_aux (S n) n "" <> "").
  { rewrite str_of_nat_aux_step.
    destruct (n / 10); [discriminate|].
    apply str_of_nat_aux_nonempty. discriminate. }
  destruct (str_of_nat_aux (S n) n "") as [|c t]; [congruence|].
  cbn [all_chars] in Hd. apply andb_true_iff in Hd.
  exists c, t. tauto.
Qed.

Lemma digit_not_int_space (c : ascii) :
  is_digit c = true ->
  is_int_space c = false /\ is_code 45 c = false /\ is_code 43 c = false.
Proof.
  destruct c as [[] [] [] [] [] [] [] []]; try discriminate;
    intros _; repeat split.
Qed.

Lemma rstrip_by_digits (s : string) :
  all_chars is_digit s = true -> rstrip_by is_int_space s = s.
Proof.
  induction s as [|c t IH]; [reflexivity|].
  cbn [all_chars rstrip_by]. intros H. apply andb_true_iff in H.
  destruct H as (Hc & Ht). rewrite (IH Ht).
  destruct (digit_not_int_space c Hc) as (Hs & _).
  destruct t; [now rewrite Hs | reflexivity].
Qed.

Lemma str_of_nat_value (n : nat) :
  int_digits 0 false (str_of_nat n) = Some (Z.of_nat n).
Proof.
  unfold str_of_nat.
  destruct (int_digits_str_of_nat_aux (S n) n "") as (k & Hk); [lia|].
  rewrite Hk. reflexivity.
Qed.

(** The decimal text of an integer reads back as that integer. *)
Lemma int_literal_str_of_Z (z : Z) : int_literal (str_of_Z z) = Some z.
Proof.
  destruct z as [|p|p].
  - reflexivity.
  - unfold str_of_Z.
    destruct (str_of_nat_shape (Z.to_nat (Zpos p))) as (c & t & Hs & Hc & Ht).
    pose proof (str_of_nat_value (Z.to_nat (Zpos p))) as Hv.
    rewrite Hs in *. unfold int_literal.
    rewrite rstrip_by_digits by (cbn [all_chars]; now rewrite Hc, Ht).
    destruct (digit_not_int_space c Hc) as (H1 & H2 & H3).
    cbn [lstrip_by]. rewrite H1, H2, H3, Hv.
    now rewrite Z2Nat.id by lia.
  - unfold str_of_Z.
    destruct (str_of_nat_shape (Pos.to_nat p)) as (c & t & Hs & Hc & Ht).
    pose proof (str_of_nat_value (Pos.to_nat p)) as Hv.
    rewrite Hs in *. unfold int_literal.
    assert (Hr : rstrip_by is_int_space ("-" ++ String c t)
                 = ("-" ++ String c t)%string).
    { change ("-" ++ String c t)%string with (String "-" (String c t)).
      cbn [rstrip_by].
      pose proof (rstrip_by_digits (String c t)) as Hd.
      cbn [all_chars rstrip_by] in Hd. rewrite Hd by now rewrite Hc, Ht.
      reflexivity. }
    rewrite Hr.
    change ("-" ++ String c t)%string with (String "-" (String c t)).
    cbn [lstrip_by].
    change (is_int_space "-") with false. cbv iota.
    change (is_code 45 "-") with true. cbv iota.
    rewrite Hv. simpl. now rewrite positive_nat_Z.
Qed.

Lemma str_of_Z_inj (a b : Z) : str_of_Z a = str_of_Z b -> a = b.
Proof.
  intros H. apply (f_equal int_literal) in H.
  rewrite !int_literal_str_of_Z in H. congruence.
Qed.

(** [int(str(z))] is [z] whenever [str(z)] returns. *)
Lemma py_int_py_str (z : Z) (s : string) :
  py_str z = Some s -> py_int s = Some z.
Proof.
  unfold py_str, py_int.
  destruct (Nat.ltb int_max_str_digits (count_digits (str_of_Z z))) eqn:E;
    [discriminate|].
  intros [= <-]. rewrite E. apply int_literal_str_of_Z.
Qed.

(** ** What the port pattern captures *)

Lemma run_chr {A : Type} (p : ascii -> bool) (s : mstate)
    (k : mstate -> option A) (x : A) :
  run (Chr p) s k = Some x ->
  exists c t,
    rest s = String c t /\ p c = true
    /\ k (mkMstate (Some c) t (caps s)) = Some x.
Proof.
  simpl. destruct (rest s) as [|c t]; [discriminate|].
  destruct (p c) eqn:E; [|discriminate]. intros H. now exists c, t.
Qed.

(** The loop of a repetition, as [run] writes it. *)
Definition star_loop {A : Type} (greedy : bool) (a : re)
    (k : mstate -> option A) : nat -> mstate -> option A :=
  fix loop (fuel : nat) (s : mstate) {struct fuel} : option A :=
    match fuel with
    | O => k s
    | S f =>
        let again (_ : unit) :=
          run a s (fun s' =>
            if Nat.ltb (String.length (rest s')) (String.length (rest s))
            then loop f s' else None) in
        if greedy then
          match again tt with
          | Some x => Some x
          | None => k s
          end
        else
          match k s with
          | Some x => Some x
          | None => again tt
          end
    end.

Lemma run_star {A : Type} (greedy : bool) (a : re) (s : mstate)
    (k : mstate -> option A) :
  run (Star greedy a) s k
  = star_loop greedy a k (S (String.length (rest s))) s.
Proof. reflexivity. Qed.

(** A repetition of a character class consumes characters of the class
    and leaves the captured groups as they are. *)
Lemma star_loop_chr {A : Type} (greedy : bool) (p : ascii -> bool)
    (k : mstate -> option A) (x : A) :
  forall fuel s,
    star_loop greedy (Chr p) k fuel s = Some x ->
    exists consumed s',
      all_chars p consumed = true
      /\ rest s = (consumed ++ rest s')%string
      /\ caps s' = caps s
      /\ k s' = Some x.
Proof.
  induction fuel as [|f IH]; intros s H.
  - exists "", s. now repeat split.
  - assert (Hstop : k s = Some x ->
                    exists consumed s',
                      all_chars p consumed = true
                      /\ rest s = (consumed ++ rest s')%string
                      /\ caps s' = caps s
                      /\ k s' = Some x).
    { intros Hk. exists "", s. now repeat split. }
    assert (Hmore :
      run (Chr p) s (fun s' =>
        if Nat.ltb (String.length (rest s')) (String.length (rest s))
        then star_loop greedy (Chr p) k f s' else None) = Some x ->
      exists consumed s',
        all_chars p consumed = true
        /\ rest s = (consumed ++ rest s')%string
        /\ caps s' = caps s
        /\ k s' = Some x).
    { intros Hrun. apply run_chr in Hrun.
      destruct Hrun as (c & t & Hr & Hp & Hrun).
      destruct (Nat.ltb _ _); [|discriminate].
      apply IH in Hrun.
      destruct Hrun as (consumed & s' & Hall & Hrest & Hcaps & Hk).
      exists (String c consumed), s'. cbn [all_chars]. rewrite Hp, Hall.
      simpl in Hrest, Hcaps. rewrite Hr, Hrest. now repeat split. }
    cbn [star_loop] in H. cbv zeta in H.
    fold (@star_loop A greedy (Chr p) k) in H.
    destruct greedy.
    + match type of H with
      | match ?a with Some _ => _ | None => _ end = _ =>
          destruct a as [x'|] eqn:Ha
      end.
      * injection H as ->. apply Hmore. reflexivity.
      * auto.
    + destruct (k s) as [x'|] eqn:Hk.
      * auto.
      * apply Hmore. exact H.
Qed.

Lemma take_app_length (a b : string) :
  take (String.length a) (a ++ b) = a.
Proof. induction a as [|c a IH]; simpl; [now destruct b | now rewrite IH]. Qed.

Lemma string_length_app (a b : string) :
  String.length (a ++ b) = String.length a + String.length b.
Proof. induction a as [|c a IH]; simpl; [reflexivity | now rewrite IH]. Qed.

Lemma run_seq {A : Type} (a b : re) (s : mstate) (k : mstate -> option A) :
  run (Seq a b) s k = run a s (fun s' => run b s' k).
Proof. reflexivity. Qed.

Lemma run_group {A : Type} (i : nat) (a : re) (s : mstate)
    (k : mstate -> option A) :
  run (Group i a) s k =
    run a s (fun s' =>
      let n := String.length (rest s) - String.length (rest s') in
      k (mkMstate (prev s') (rest s') ((i, take n (rest s)) :: caps s'))).
Proof. reflexivity. Qed.

Lemma run_bol_start {A : Type} (m : bool) (s : mstate)
    (k : mstate -> option A) :
  prev s = None -> run (Bol m) s k = k s.
Proof. intros H. cbn [run]. now rewrite H. Qed.

(** The group of a match of the port pattern: the digits in front of the
    descriptor. *)
Lemma port_prefix_group (e : string) (cs : list (nat * string)) :
  re_match RE_PORT_PREFIX e = Some cs ->
  exists c digits tail,
    e = String c (digits ++ tail)
    /\ is_digit c = true /\ all_chars is_digit digits = true
    /\ group_str 1 cs = String c digits.
Proof.
  unfold re_match, RE_PORT_PREFIX, plus, digit, ch. cbn [seqs].
  rewrite run_seq, run_bol_start by reflexivity.
  rewrite run_seq, run_group, run_seq.
  intros H. apply run_chr in H. destruct H as (c & t & Hr & Hc & H).
  cbn [rest caps] in Hr, H. subst e.
  rewrite run_star in H. apply star_loop_chr in H.
  destruct H as (digits & s' & Hall & Hrest & Hcaps & Hk).
  cbn [rest caps] in Hrest, Hcaps. cbv zeta in Hk.
  apply run_chr in Hk. destruct Hk as (c2 & t2 & Hr2 & _ & Hk).
  cbn [rest caps] in Hr2, Hk. injection Hk as <-.
  exists c, digits, (String c2 t2). rewrite Hrest, Hr2.
  split; [reflexivity|]. split; [exact Hc|]. split; [exact Hall|].
  rewrite Hcaps. unfold group_str. cbn [group Nat.eqb].
  cbn [String.length]. rewrite string_length_app. cbn [String.length].
  replace (String.length digits + S (String.length t2) - String.length t2)
    with (S (String.length digits)) by lia.
  cbn [take]. now rewrite take_app_length.
Qed.

Lemma int_digits_all_digits (s : string) :
  forall acc b,
    all_chars is_digit s = true ->
    s <> "" \/ b = true ->
    exists v, int_digits acc b s = Some v.
Proof.
  induction s as [|c t IH]; intros acc b Hall Hne.
  - destruct Hne as [Hne| ->]; [congruence|]. now exists acc.
  - cbn [all_chars] in Hall. apply andb_true_iff in Hall.
    destruct Hall as (Hc & Ht). cbn [int_digits]. rewrite Hc.
    apply IH; [exact Ht | now right].
Qed.

Lemma int_literal_digits (c : ascii) (t : string) :
  is_digit c = true -> all_chars is_digit t = true ->
  exists v, int_literal (String c t) = Some v.
Proof.
  intros Hc Ht. unfold int_literal.
  rewrite rstrip_by_digits by (cbn [all_chars]; now rewrite Hc, Ht).
  destruct (digit_not_int_space c Hc) as (H1 & H2 & H3).
  cbn [lstrip_by]. rewrite H1, H2, H3.
  apply int_digits_all_digits; [cbn [all_chars]; now rewrite Hc, Ht|].
  now left.
Qed.

Lemma count_digits_app (a b : string) :
  count_digits (a ++ b) = count_digits a + count_digits b.
Proof.
  induction a as [|c a IH]; simpl; [reflexivity|].
  destruct (is_digit c); simpl; now rewrite IH.
Qed.

(** [int()] at line 421 returns on a descriptor of at most
    [int_max_str_digits] digits. *)
Lemma port_prefix_readable (e : string) (cs : list (nat * string)) :
  count_digits e <= int_max_str_digits ->
  re_match RE_PORT_PREFIX e = Some cs ->
  exists v, py_int (group_str 1 cs) = Some v.
Proof.
  intros Hlim Hm.
  destruct (port_prefix_group e cs Hm)
    as (c & digits & tail & -> & Hc & Hall & ->).
  unfold py_int.
  assert (Hn : Nat.ltb int_max_str_digits (count_digits (String c digits))
               = false).
  { apply Nat.ltb_ge.
    change (String c (digits ++ tail)) with (String c digits ++ tail)%string
      in Hlim.
    rewrite count_digits_app in Hlim. lia. }
  rewrite Hn. now apply int_literal_digits.
Qed.

Lemma has_port_in_returns (es : list string) (p : Z) :
  (forall e, In e es -> count_digits e <= int_max_str_digits) ->
  exists b, has_port_in es p = Some b.
Proof.
  induction es as [|e es IH]; intros Hlim; [now exists false|].
  cbn [has_port_in].
  destruct IH as (b & Hb); [intros e' He'; apply Hlim; now right|].
  destruct (re_match RE_PORT_PREFIX e) as [cs|] eqn:Hm; [|now exists b].
  destruct (port_prefix_readable e cs (Hlim e (or_introl eq_refl)) Hm)
    as (v & ->).
  cbn [bind]. destruct (v =? p)%Z; [now exists true | now exists b].
Qed.

Lemma infer_device_type_returns (host : Host) :
  (forall e, In e (ports host) -> count_digits e <= int_max_str_digits) ->
  exists dev, infer_device_type host = Some dev.
Proof.
  intros Hlim. unfold infer_device_type, or_else, has_port. cbv zeta.
  repeat match goal with
         | |- context [has_port_in (ports host) ?p] =>
             let b := fresh "b" in
             let Hb := fresh "Hb" in
             destruct (has_port_in_returns (ports host) p Hlim) as (b & Hb);
             rewrite Hb; clear Hb; cbn [bind]; destruct b
         | |- context [if ?b then _ else _] => destruct b
         | |- context [bind (Some ?b) _] => cbn [bind]
         end;
    eexists; reflexivity.
Qed.

(** ** Device inference *)

(** X10: whenever [infer_device_type] returns, it answers with a category
    that [SHAPES] knows, and never with the category of the hub: the style
    of a host vertex is never the fallback style of an unknown key.  It
    returns for every host none of whose port descriptors holds more than
    [int_max_str_digits] digits. *)
Theorem infer_device_type_has_shape (host : Host) :
  (forall dev,
      infer_device_type host = Some dev ->
      dev <> "network"
      /\ exists shape,
           PyDict.get dev SHAPES = Some shape
           /\ style_for_device dev =
                ("shape=" ++ shape
                 ++ ";html=1;whiteSpace=wrap;align=center;"
                 ++ "verticalAlign=middle;strokeWidth=1;")%string)
  /\ ((forall e, In e (ports host) -> count_digits e <= int_max_str_digits) ->
      exists dev, infer_device_type host = Some dev).
Proof.
  split; [|apply infer_device_type_returns].
  intros dev H.
  assert (Hin : In dev
            [ "firewall"; "router"; "switch"; "wireless_ap"; "printer"
            ; "ip_phone"; "camera"; "server"; "workstation"; "unknown" ]).
  { unfold infer_device_type in H. cbv zeta in H.
    repeat match type of H with
           | (if ?b then _ else _) = Some _ => destruct b
           | bind _ _ = Some _ =>
               apply bind_some in H; destruct H as (? & _ & H)
           end;
      injection H as <-;
      repeat match goal with
             | |- context [if ?b then _ else _] => destruct b
             end;
      simpl; tauto. }
  simpl in Hin.
  repeat (destruct Hin as [<-|Hin];
          [split; [discriminate | eexists; split; reflexivity]|]).
  destruct Hin.
Qed.

Lemma infer_device_type_has_shape_witness :
  infer_device_type
    (mkHost "10.0.0.9" None ["9100/tcp jetdirect"] None None)
  = Some "printer"
  /\ "printer" <> "network"
  /\ exists shape,
       PyDict.get "printer" SHAPES = Some shape
       /\ style_for_device "printer" =
            ("shape=" ++ shape
             ++ ";html=1;whiteSpace=wrap;align=center;"
             ++ "verticalAlign=middle;strokeWidth=1;")%string.
Proof.
  split; [reflexivity|].
  destruct (infer_device_type_has_shape
              (mkHost "10.0.0.9" None ["9100/tcp jetdirect"] None None))
    as (H & _).
  exact (H "printer" eq_refl).
Defined.

(** The text that the inference reads: [(host.os_guess or "")]. *)
Definition os_text (h : Host) : string :=
  match os_guess h with Some g => g | None => "" end.

(** X11: the inferred category depends on the host through its ports and
    the lower-cased text of its OS guess only: two hosts with the same
    ports whose guesses differ in letter case, or of which one has no
    guess and the other an empty one, get the same category, whatever
    their addresses, names and accuracies. *)
Theorem infer_device_type_ignores_case (h h' : Host) :
  ports h = ports h' -> lower (os_text h) = lower (os_text h') ->
  infer_device_type h = infer_device_type h'.
Proof.
  intros Hp Ho. unfold infer_device_type, has_port, has_service.
  fold (os_text h). fold (os_text h'). now rewrite Hp, Ho.
Qed.

Lemma infer_device_type_ignores_case_witness :
  infer_device_type
    (mkHost "10.0.0.1" None ["22/tcp ssh"] (Some "LINUX 5.4") (Some 90%Z))
  = infer_device_type
      (mkHost "10.0.0.2" (Some "b") ["22/tcp ssh"] (Some "Linux 5.4") None).
Proof.
  apply infer_device_type_ignores_case; reflexivity.
Defined.

(** ** The line-oriented parser, continued *)

Lemma uniq_ports_fold_first_seen (ps : list string) :
  forall acc,
    fold_left (fun uniq p => if str_in p uniq then uniq else uniq ++ [p])
              ps acc
    = acc ++ first_seen acc ps.
Proof.
  induction ps as [|p ps IH]; intros acc; simpl.
  - now rewrite app_nil_r.
  - rewrite IH. destruct (str_in p acc); [reflexivity|].
    now rewrite <- app_assoc.
Qed.

(** X12: the pass that removes repeated ports keeps exactly the distinct
    descriptors of its input, each at the place of its first occurrence;
    a second pass changes nothing. *)
Theorem uniq_ports_first_occurrences (ps : list string) :
  uniq_ports ps = first_seen [] ps
  /\ NoDup (uniq_ports ps)
  /\ (forall p, In p (uniq_ports ps) <-> In p ps)
  /\ uniq_ports (uniq_ports ps) = uniq_ports ps.
Proof.
  assert (Heq : forall l, uniq_ports l = first_seen [] l).
  { intros l. unfold uniq_ports. now rewrite uniq_ports_fold_first_seen. }
  assert (Hnd : NoDup (uniq_ports ps)) by apply uniq_ports_nodup.
  split; [apply Heq|]. split; [exact Hnd|]. split.
  - intros p. rewrite Heq, first_seen_in. simpl. tauto.
  - assert (Hfix : forall l seen,
              NoDup (seen ++ l) -> first_seen seen l = l).
    { induction l as [|a l IH]; intros seen Hl; simpl; [reflexivity|].
      assert (Ha : str_in a seen = false).
      { apply str_in_not_In. intros Hin.
        apply NoDup_remove_2 in Hl. apply Hl, in_or_app. now left. }
      rewrite Ha. f_equal. apply IH. now rewrite <- app_assoc. }
    rewrite (Heq (uniq_ports ps)). now apply Hfix.
Qed.

(** The record started by a line, if the line announces a host
    (lines 182-197). *)
Definition host_line_record (line0 : string) : option Host :=
  match re_match _RE_NORMAL_HOST (rstrip_by (is_code 10) line0) with
  | Some cs => Some (announced_host (group_str 1 cs))
  | None => None
  end.

(** The address announced by a line, if the line announces a host
    (lines 182-197). *)
Definition host_line_address (line0 : string) : option string :=
  match re_match _RE_NORMAL_HOST (rstrip_by (is_code 10) line0) with
  | Some cs => Some (ip (announced_host (group_str 1 cs)))
  | None => None
  end.

(** The records of a state of the loop: [hosts] and then [current]. *)
Definition records (st : list Host * option Host) : list Host :=
  fst st ++ match snd st with Some cur => [cur] | None => [] end.

(** What the merge reads of a record besides its ports and OS guess. *)
Definition ip_name (h : Host) : string * option string := (ip h, name h).

Lemma normal_step_current (hosts : list Host) (cur : Host) (line : string)
    (st' : list Host * option Host) :
  re_match _RE_NORMAL_HOST (rstrip_by (is_code 10) line) = None ->
  normal_step (hosts, Some cur) line = Some st' ->
  exists cur',
    st' = (hosts, Some cur')
    /\ ip cur' = ip cur /\ name cur' = name cur
    /\ (os_wellformed cur -> os_wellformed cur').
Proof.
  intros Hm. unfold normal_step. rewrite Hm.
  set (l := rstrip_by (is_code 10) line).
  assert (Hset : forall g a,
            ip (_maybe_set_os cur g a) = ip cur
            /\ name (_maybe_set_os cur g a) = name cur
            /\ (os_wellformed cur -> os_wellformed (_maybe_set_os cur g a))).
  { intros g a. destruct (maybe_set_os_other_fields cur g a) as (H1 & H2 & _).
    split; [exact H1|]. split; [exact H2|]. apply maybe_set_os_wellformed. }
  destruct (re_match _RE_OS_GUESSES l) as [cs|].
  { destruct (_parse_first_guess_with_accuracy (group_str 2 cs)) as [ga|];
      [|discriminate].
    simpl. intros [= <-]. eexists. split; [reflexivity | apply Hset]. }
  destruct (re_match _RE_OS_DETAILS l) as [cs|].
  { intros [= <-]. eexists. split; [reflexivity | apply Hset]. }
  destruct (re_match _RE_RUNNING l) as [cs|].
  { intros [= <-]. eexists. split; [reflexivity | apply Hset]. }
  set (cur1 :=
         match re_match _RE_SERVICE_INFO l with
         | Some cs =>
             match re_search RE_SERVICE_OS (group_str 1 cs) with
             | Some cs2 =>
                 _maybe_set_os cur (Some (strip (group_str 1 cs2))) None
             | None => cur
             end
         | None => cur
         end).
  assert (H1 : ip cur1 = ip cur /\ name cur1 = name cur
               /\ (os_wellformed cur -> os_wellformed cur1)).
  { unfold cur1. destruct (re_match _RE_SERVICE_INFO l) as [cs|];
      [|now repeat split].
    destruct (re_search RE_SERVICE_OS (group_str 1 cs)) as [cs2|];
      [|now repeat split].
    apply Hset. }
  destruct (re_match _RE_PORT_LINE l) as [cs|]; intros [= <-];
    (eexists; split; [reflexivity | exact H1]).
Qed.

Lemma announced_host_wellformed (g1 : string) :
  os_wellformed (announced_host g1).
Proof.
  unfold announced_host.
  destruct (re_search RE_PAREN_TAIL (strip g1)); [reflexivity|].
  destruct (re_match RE_DOTTED_QUAD (strip g1)); reflexivity.
Qed.

(** An iteration keeps the address and the name of every record, and adds
    the record that the line announces, if it announces one. *)
Lemma normal_step_records (st st' : list Host * option Host)
    (line : string) :
  normal_step st line = Some st' ->
  map ip_name (records st') =
    map ip_name (records st)
    ++ match host_line_record line with
       | Some r => [ip_name r]
       | None => []
       end.
Proof.
  destruct st as [hosts current]. unfold host_line_record.
  destruct (re_match _RE_NORMAL_HOST (rstrip_by (is_code 10) line))
    as [cs|] eqn:Hm.
  - unfold normal_step. rewrite Hm. intros [= <-]. unfold records. simpl.
    destruct current as [cur|]; simpl; rewrite ?map_app; simpl;
      rewrite ?app_nil_r; reflexivity.
  - destruct current as [cur|].
    + intros Hstep.
      destruct (normal_step_current hosts cur line st' Hm Hstep)
        as (cur' & -> & Hip & Hname & _).
      unfold records. simpl. rewrite !map_app. simpl.
      unfold ip_name. now rewrite Hip, Hname, app_nil_r.
    + unfold normal_step. rewrite Hm. intros [= <-]. now rewrite app_nil_r.
Qed.

Lemma normal_step_wellformed (st st' : list Host * option Host)
    (line : string) :
  normal_step st line = Some st' ->
  (forall h, In h (records st) -> os_wellformed h) ->
  forall h, In h (records st') -> os_wellformed h.
Proof.
  destruct st as [hosts current]. intros Hstep Hall h Hin.
  destruct (re_match _RE_NORMAL_HOST (rstrip_by (is_code 10) line))
    as [cs|] eqn:Hm.
  - unfold normal_step in Hstep. rewrite Hm in Hstep.
    injection Hstep as <-.
    unfold records in Hin. simpl in Hin.
    apply in_app_or in Hin. destruct Hin as [Hin|[<-|[]]];
      [|apply announced_host_wellformed].
    apply Hall. unfold records. simpl.
    destruct current as [cur|]; [exact Hin|].
    rewrite app_nil_r. exact Hin.
  - destruct current as [cur|].
    + destruct (normal_step_current hosts cur line st' Hm Hstep)
        as (cur' & -> & _ & _ & Hwf).
      unfold records in Hin. simpl in Hin.
      apply in_app_or in Hin. destruct Hin as [Hin|[<-|[]]].
      * apply Hall. unfold records. simpl. apply in_or_app. now left.
      * apply Hwf, Hall. unfold records. simpl. apply in_or_app.
        right. now left.
    + unfold normal_step in Hstep. rewrite Hm in Hstep.
      injection Hstep as <-. now apply Hall.
Qed.

Lemma normal_loop_records (lines : list string) :
  forall st st',
    for_each lines normal_step st = Some st' ->
    map ip_name (records st') =
      map ip_name (records st)
      ++ map ip_name (filter_map host_line_record lines).
Proof.
  induction lines as [|l lines IH]; intros st st' H.
  - injection H as <-. simpl. now rewrite app_nil_r.
  - rewrite for_each_cons in H. apply bind_some in H.
    destruct H as (st1 & Hstep & Hrest).
    rewrite (IH _ _ Hrest), (normal_step_records _ _ _ Hstep), <- app_assoc.
    simpl. now destruct (host_line_record l).
Qed.

Lemma normal_loop_wellformed (lines : list string) :
  forall st st',
    for_each lines normal_step st = Some st' ->
    (forall h, In h (records st) -> os_wellformed h) ->
    forall h, In h (records st') -> os_wellformed h.
Proof.
  induction lines as [|l lines IH]; intros st st' H Hst.
  - injection H as <-. exact Hst.
  - rewrite for_each_cons in H. apply bind_some in H.
    destruct H as (st1 & Hstep & Hrest).
    apply (IH _ _ Hrest). now apply (normal_step_wellformed st st1 l).
Qed.

(** The records before the merge: those of the last state of the loop,
    each with its ports made distinct. *)
Lemma parse_nmap_normal_records (text : string) (hosts : list Host) :
  parse_nmap_normal text = Some hosts ->
  exists st,
    for_each (splitlines text) normal_step ([], None) = Some st
    /\ hosts =
         merge_hosts_by_ip
           (map (fun h => set_ports h (uniq_ports (ports h))) (records st)).
Proof.
  unfold parse_nmap_normal, records.
  destruct (for_each (splitlines text) normal_step ([], None))
    as [[hs current]|]; [|discriminate].
  simpl. intros [= <-]. exists (hs, current). split; [reflexivity|].
  simpl. destruct current as [cur|]; [reflexivity|].
  now rewrite app_nil_r.
Qed.

Lemma host_line_address_record (line : string) :
  host_line_address line = option_map ip (host_line_record line).
Proof.
  unfold host_line_address, host_line_record.
  now destruct (re_match _RE_NORMAL_HOST (rstrip_by (is_code 10) line)).
Qed.

Lemma filter_map_option_map {A B C : Type} (f : A -> option B) (g : B -> C)
    (l : list A) :
  filter_map (fun x => option_map g (f x)) l = map g (filter_map f l).
Proof.
  induction l as [|x l IH]; simpl; [reflexivity|].
  destruct (f x); simpl; now rewrite IH.
Qed.

(** The addresses and names of the records before the merge are those of
    the announcements, in the order of the lines. *)
Lemma parse_nmap_normal_announced (text : string) (hosts : list Host) :
  parse_nmap_normal text = Some hosts ->
  exists pre,
    hosts = merge_hosts_by_ip pre
    /\ map ip_name pre
       = map ip_name (filter_map host_line_record (splitlines text)).
Proof.
  intros H. destruct (parse_nmap_normal_records text hosts H)
    as (st & Hloop & ->).
  eexists. split; [reflexivity|].
  rewrite map_map. unfold ip_name at 1. simpl.
  exact (normal_loop_records _ _ _ Hloop).
Qed.

Lemma map_ip_of_ip_name (l l' : list Host) :
  map ip_name l = map ip_name l' -> map ip l = map ip l'.
Proof.
  intros H. apply (f_equal (map fst)) in H.
  now rewrite !map_map in H.
Qed.

(** X13: when the line-oriented parser returns, it returns one record for
    every distinct address that a host announcement of the text gives, in
    the order in which the announcements first give them; lines before the
    first announcement, and a text without any announcement, give no
    record.  On a text without an OS-guess line it does return. *)
Theorem parse_nmap_normal_addresses (text : string) :
  (forall hosts,
      parse_nmap_normal text = Some hosts ->
      map ip hosts =
        first_seen [] (filter_map host_line_address (splitlines text))
      /\ (hosts = []
          <-> filter_map host_line_address (splitlines text) = []))
  /\ ((forall line, In line (splitlines text) ->
         re_match _RE_OS_GUESSES (rstrip_by (is_code 10) line) = None) ->
      exists hosts, parse_nmap_normal text = Some hosts).
Proof.
  split.
  - intros hosts H.
    assert (Hips : map ip hosts =
                   first_seen [] (filter_map host_line_address
                                             (splitlines text))).
    { destruct (parse_nmap_normal_announced text hosts H) as (pre & -> & Hpre).
      rewrite merge_addresses, (map_ip_of_ip_name _ _ Hpre).
      f_equal. rewrite <- filter_map_option_map.
      clear. induction (splitlines text) as [|l ls IH]; simpl;
        [reflexivity|].
      rewrite host_line_address_record.
      destruct (host_line_record l); simpl; now rewrite IH. }
    split; [exact Hips|]. split.
    + intros ->. simpl in Hips.
      destruct (filter_map host_line_address (splitlines text)) as [|a l];
        [reflexivity | discriminate Hips].
    + intros Hnil. rewrite Hnil in Hips. simpl in Hips.
      now destruct hosts.
  - intros Hno. unfold parse_nmap_normal.
    assert (Hloop : forall lines st,
              (forall line, In line lines ->
                 re_match _RE_OS_GUESSES (rstrip_by (is_code 10) line)
                 = None) ->
              exists st', for_each lines normal_step st = Some st').
    { induction lines as [|l lines IH]; intros st Hl; [now exists st|].
      rewrite for_each_cons.
      assert (Hstep : exists st1, normal_step st l = Some st1).
      { destruct st as [hs current]. unfold normal_step.
        rewrite (Hl l (or_introl eq_refl)).
        destruct (re_match _RE_NORMAL_HOST _); [eauto|].
        destruct current as [cur|]; [|eauto].
        destruct (re_match _RE_OS_DETAILS _); [eauto|].
        destruct (re_match _RE_RUNNING _); [eauto|].
        destruct (re_match _RE_PORT_LINE _); eauto. }
      destruct Hstep as (st1 & ->). simpl.
      apply IH. intros line Hin. apply Hl. now right. }
    destruct (Hloop (splitlines text) ([], None) Hno) as ([hs current] & ->).
    simpl. eauto.
Qed.

(** X14: every record that the line-oriented parser returns lists no port
    twice, holds an accuracy only together with a guess, and holds no
    empty guess. *)
Theorem parse_nmap_normal_records_wellformed (text : string)
    (hosts : list Host) (r : Host) :
  parse_nmap_normal text = Some hosts ->
  In r hosts ->
  NoDup (ports r) /\ os_wellformed r.
Proof.
  intros H Hin.
  split; [now apply (parse_nmap_normal_ports_distinct text hosts)|].
  destruct (parse_nmap_normal_records text hosts H) as (st & Hloop & ->).
  revert r Hin. apply merge_wellformed. intros h Hh.
  apply in_map_iff in Hh. destruct Hh as (h0 & <- & Hh0).
  assert (Hwf : os_wellformed h0).
  { revert h0 Hh0. apply (normal_loop_wellformed _ _ _ Hloop). intros ? []. }
  exact Hwf.
Qed.

Definition normal_report_two_hosts : string :=
  ("Starting Nmap" ++ NL
   ++ "22/tcp open ssh" ++ NL
   ++ "Nmap scan report for gw.lan (10.0.0.1)" ++ NL
   ++ "22/tcp open ssh OpenSSH 8.2" ++ NL
   ++ "22/tcp open ssh OpenSSH 8.2" ++ NL
   ++ "Aggressive OS guesses: Linux 5.4 (97%), Linux 4.15 (91%)" ++ NL
   ++ "Nmap scan report for 10.0.0.2" ++ NL
   ++ "Nmap scan report for gw.lan (10.0.0.1)" ++ NL
   ++ "80/tcp open http")%string.

Definition normal_report_gateway : Host :=
  mkHost "10.0.0.1" (Some "gw.lan") ["22/tcp ssh OpenSSH 8.2"; "80/tcp http"]
         (Some "Linux 5.4") (Some 97%Z).

Definition normal_report_hosts : list Host :=
  [ normal_report_gateway; mkHost "10.0.0.2" None [] None None ].

Lemma parse_nmap_normal_addresses_witness :
  parse_nmap_normal normal_report_two_hosts = Some normal_report_hosts
  /\ map ip normal_report_hosts =
       first_seen []
         (filter_map host_line_address (splitlines normal_report_two_hosts)).
Proof.
  assert (H : parse_nmap_normal normal_report_two_hosts
              = Some normal_report_hosts) by (vm_compute; reflexivity).
  split; [exact H|].
  destruct (parse_nmap_normal_addresses normal_report_two_hosts)
    as (Hret & _).
  exact (proj1 (Hret normal_report_hosts H)).
Defined.

Lemma parse_nmap_normal_records_wellformed_witness :
  parse_nmap_normal normal_report_two_hosts = Some normal_report_hosts
  /\ In normal_report_gateway normal_report_hosts
  /\ NoDup (ports normal_report_gateway)
  /\ os_wellformed normal_report_gateway.
Proof.
  assert (H : parse_nmap_normal normal_report_two_hosts
              = Some normal_report_hosts) by (vm_compute; reflexivity).
  assert (Hin : In normal_report_gateway normal_report_hosts) by now left.
  split; [exact H|]. split; [exact Hin|].
  exact (parse_nmap_normal_records_wellformed normal_report_two_hosts
           normal_report_hosts normal_report_gateway H Hin).
Defined.

(** ** The raw-text address of the line-oriented parser (C9) *)











(** ** The top-level parser and the XML parser, continued *)

(** X15: whatever the format of the text, a list that [parse_nmap] returns
    holds no address twice, and merging it once more returns it
    unchanged: every path through the parser ends in the merge. *)
Theorem parse_nmap_addresses_unique
    (ET_fromstring : string -> option Element) (text : string)
    (hosts : list Host) :
  parse_nmap ET_fromstring text = Some hosts ->
  NoDup (map ip hosts) /\ merge_hosts_by_ip hosts = hosts.
Proof.
  intros H.
  assert (Hm : exists l, hosts = merge_hosts_by_ip l).
  { unfold parse_nmap, parse_nmap_xml in H.
    destruct (_looks_like_xml (replace_crlf text)).
    - destruct (ET_fromstring (replace_crlf text)) as [root|];
        [|discriminate H].
      simpl in H. apply some_inj in H. subst hosts.
      unfold parse_nmap_xml_tree. eauto.
    - assert (Hn : parse_nmap_normal (replace_crlf text) = Some hosts ->
                   exists l, hosts = merge_hosts_by_ip l).
      { intros Hp.
        destruct (parse_nmap_normal_records _ _ Hp) as (st & _ & ->). eauto. }
      destruct (_looks_like_grepable (replace_crlf text)); [|auto].
      unfold parse_nmap_grepable in H.
      destruct (for_each (splitlines (replace_crlf text)) grepable_step [])
        as [l|]; [|discriminate H].
      simpl in H. destruct (merge_hosts_by_ip l) as [|h0 l0] eqn:Hl; [auto|].
      apply some_inj in H. subst hosts. rewrite <- Hl. eauto. }
  destruct Hm as (l & ->).
  split; [apply merge_addresses_nodup|].
  apply merge_nodup_identity, merge_addresses_nodup.
Qed.

Lemma parse_nmap_addresses_unique_witness :
  parse_nmap (fun _ => None) normal_report_two_hosts
    = Some normal_report_hosts
  /\ NoDup (map ip normal_report_hosts)
  /\ merge_hosts_by_ip normal_report_hosts = normal_report_hosts.
Proof.
  assert (H : parse_nmap (fun _ => None) normal_report_two_hosts
              = Some normal_report_hosts)
    by (vm_compute; reflexivity).
  split; [exact H|].
  exact (parse_nmap_addresses_unique (fun _ => None) normal_report_two_hosts
           normal_report_hosts H).
Defined.

Lemma filter_map_in {A B : Type} (f : A -> option B) (l : list A) (y : B) :
  In y (filter_map f l) <-> exists x, In x l /\ f x = Some y.
Proof.
  induction l as [|a l IH]; simpl.
  - split; [intros [] | intros (x & [] & _)].
  - destruct (f a) as [b|] eqn:Hfa; simpl; rewrite IH; split.
    + intros [<-|(x & Hx & Hfx)]; [exists a; tauto | exists x; tauto].
    + intros (x & [<-|Hx] & Hfx); [left; congruence | right; exists x; tauto].
    + intros (x & Hx & Hfx). exists x. tauto.
    + intros (x & [<-|Hx] & Hfx); [congruence | exists x; tauto].
Qed.

Lemma xml_host_some (e : Element) (h : Host) :
  xml_host e = Some h ->
  xml_host_down e = false /\ xml_host_ip e = Some (ip h) /\ ip h <> "".
Proof.
  unfold xml_host.
  destruct (xml_host_down e); [discriminate|].
  destruct (xml_host_ip e) as [a|]; [|discriminate].
  destruct (String.eqb_spec a "") as [->|Hne]; [discriminate|].
  destruct (xml_host_os e) as [g acc]. intros [= <-]. simpl. tauto.
Qed.

(** X16: every record that the XML parser returns carries a non-empty
    address, and that address is the first ipv4 or ipv6 address of a host
    element of the document whose status is not given as other than
    "up": a host that is down or has no such address never shows in the
    output. *)
Theorem parse_nmap_xml_records_have_address (root : Element) (r : Host) :
  In r (parse_nmap_xml_tree root) ->
  ip r <> ""
  /\ exists e,
       In e (findall "host" root)
       /\ xml_host_down e = false
       /\ xml_host_ip e = Some (ip r).
Proof.
  unfold parse_nmap_xml_tree. intros Hin.
  assert (Hip : In (ip r)
                   (map ip (filter_map xml_host (findall "host" root)))).
  { apply (in_map ip) in Hin. rewrite merge_addresses in Hin.
    apply first_seen_in in Hin. tauto. }
  apply in_map_iff in Hip. destruct Hip as (h & Hh & Hin').
  apply filter_map_in in Hin'. destruct Hin' as (e & He & Hx).
  apply xml_host_some in Hx. destruct Hx as (Hdown & Haddr & Hne).
  rewrite Hh in *. split; [exact Hne|]. exists e. tauto.
Qed.

Definition xml_two_hosts : Element :=
  Elem "nmaprun" []
    [ Elem "host" []
        [ Elem "status" [("state", "down")] []
        ; Elem "address" [("addr", "10.0.0.8"); ("addrtype", "ipv4")] [] ]
    ; Elem "host" []
        [ Elem "status" [("state", "up")] []
        ; Elem "address" [("addr", "00:11:22:33:44:55"); ("addrtype", "mac")]
               []
        ; Elem "address" [("addr", "10.0.0.9"); ("addrtype", "ipv4")] [] ] ].

Lemma parse_nmap_xml_records_have_address_witness :
  parse_nmap_xml_tree xml_two_hosts = [mkHost "10.0.0.9" None [] None None]
  /\ ip (mkHost "10.0.0.9" None [] None None) <> ""
  /\ exists e,
       In e (findall "host" xml_two_hosts)
       /\ xml_host_down e = false
       /\ xml_host_ip e = Some (ip (mkHost "10.0.0.9" None [] None None)).
Proof.
  split; [reflexivity|].
  apply (parse_nmap_xml_records_have_address xml_two_hosts).
  vm_compute. now left.
Defined.

(** ** The best OS match of the XML parser (C8) *)

(** The name of a candidate as the parser records it: trimmed, and absent
    when nothing is left. *)
Definition osmatch_name (m : Element) : option string :=
  or_none (strip (attr_default "name" "" m)).

Definition best_step (st : option Element * Z) (m : Element)
    : option Element * Z :=
  let acc := osmatch_accuracy m in
  if (acc >? snd st)%Z then (Some m, acc) else st.

Lemma best_fold_unchanged (l : list Element) :
  forall b a,
    (forall m, In m l -> (osmatch_accuracy m <= a)%Z) ->
    fold_left best_step l (b, a) = (b, a).
Proof.
  induction l as [|m l IH]; intros b a H; simpl; [reflexivity|].
  unfold best_step at 2. simpl.
  pose proof (H m (or_introl eq_refl)) as Hm.
  destruct (Z.gtb_spec (osmatch_accuracy m) a); [lia|].
  apply IH. intros m' Hm'. apply H. now right.
Qed.

Lemma best_fold_below (l : list Element) :
  forall b a bound,
    (a < bound)%Z ->
    (forall m, In m l -> (osmatch_accuracy m < bound)%Z) ->
    exists b' a', fold_left best_step l (b, a) = (b', a') /\ (a' < bound)%Z.
Proof.
  induction l as [|m l IH]; intros b a bound Ha H; simpl.
  - now exists b, a.
  - unfold best_step at 2. simpl.
    pose proof (H m (or_introl eq_refl)) as Hm.
    destruct (Z.gtb_spec (osmatch_accuracy m) a).
    + apply IH; [exact Hm|]. intros m' Hm'. apply H. now right.
    + apply IH; [exact Ha|]. intros m' Hm'. apply H. now right.
Qed.

(** The loop selects the first candidate of highest accuracy, provided that
    accuracy is not negative. *)
Lemma best_osmatch_first_max (before after : list Element) (best : Element) :
  (0 <= osmatch_accuracy best)%Z ->
  (forall m, In m before -> (osmatch_accuracy m < osmatch_accuracy best)%Z) ->
  (forall m, In m after -> (osmatch_accuracy m <= osmatch_accuracy best)%Z) ->
  best_osmatch (before ++ best :: after) = (Some best, osmatch_accuracy best).
Proof.
  intros Hpos Hbefore Hafter. unfold best_osmatch.
  change (fold_left best_step (before ++ best :: after) (None, (-1)%Z) =
          (Some best, osmatch_accuracy best)).
  rewrite fold_left_app.
  destruct (best_fold_below before None (-1)%Z (osmatch_accuracy best))
    as (b' & a' & -> & Ha'); [lia | exact Hbefore |].
  simpl. unfold best_step at 2. simpl.
  destruct (Z.gtb_spec (osmatch_accuracy best) a'); [|lia].
  now apply best_fold_unchanged.
Qed.

Lemma best_osmatch_all_negative (ms : list Element) :
  (forall m, In m ms -> (osmatch_accuracy m < 0)%Z) ->
  best_osmatch ms = (None, (-1)%Z).
Proof.
  intros H. unfold best_osmatch.
  change (fold_left best_step ms (None, (-1)%Z) = (None, (-1)%Z)).
  apply best_fold_unchanged. intros m Hm. specialize (H m Hm). lia.
Qed.

Lemma xml_host_os_first_max (h os_el : Element)
    (before after : list Element) (best : Element) :
  find "os" h = Some os_el ->
  findall "osmatch" os_el = before ++ best :: after ->
  (0 <= osmatch_accuracy best)%Z ->
  (forall m, In m before -> (osmatch_accuracy m < osmatch_accuracy best)%Z) ->
  (forall m, In m after -> (osmatch_accuracy m <= osmatch_accuracy best)%Z) ->
  xml_host_os h = (osmatch_name best, Some (osmatch_accuracy best)).
Proof.
  intros Hos Hms Hpos Hbefore Hafter. unfold xml_host_os.
  rewrite Hos, Hms, best_osmatch_first_max by assumption.
  destruct (Z.geb_spec (osmatch_accuracy best) 0); [reflexivity | lia].
Qed.

(** An accuracy that [int()] refuses counts as 0, as does a missing one:
    a text that is no decimal literal, and a text of more than
    [int_max_str_digits] digits (lines 326-329). *)
Lemma osmatch_accuracy_cases (m : Element) :
  (attr "accuracy" m = None -> osmatch_accuracy m = 0%Z)
  /\ (forall s v, attr "accuracy" m = Some s -> py_int s = Some v ->
                  osmatch_accuracy m = v)
  /\ (forall s, attr "accuracy" m = Some s -> py_int s = None ->
                osmatch_accuracy m = 0%Z)
  /\ (forall s, attr "accuracy" m = Some s ->
                int_max_str_digits < count_digits s ->
                osmatch_accuracy m = 0%Z).
Proof.
  unfold osmatch_accuracy, attr_default. repeat split.
  - now intros ->.
  - now intros s v -> ->.
  - now intros s -> ->.
  - intros s -> Hlim. unfold py_int.
    apply Nat.ltb_lt in Hlim. now rewrite Hlim.
Qed.

(** The text of [n] characters [c]. *)
Fixpoint string_of_char (c : ascii) (n : nat) : string :=
  match n with
  | O => ""
  | S n' => String c (string_of_char c n')
  end.

(** A candidate whose accuracy has 4301 digits loses against one of
    accuracy 5. *)
Lemma osmatch_accuracy_beyond_limit :
  xml_host_os
    (Elem "host" []
       [ Elem "os" []
           [ Elem "osmatch" [("name", "A"); ("accuracy", "5")] []
           ; Elem "osmatch"
               [("name", "B"); ("accuracy", string_of_char "9" 4301)] [] ] ])
  = (Some "A", Some 5%Z).
Proof. vm_compute. reflexivity. Qed.

(** The first line of the tooltip of a host with a guess and an accuracy. *)
Lemma tooltip_with_accuracy (h : Host) (g : string) (a : Z)
    (digits : string) :
  os_guess h = Some g -> (g =? "") = false -> os_accuracy h = Some a ->
  py_str a = Some digits ->
  exists rest,
    tooltip_text h
    = Some ("OS: " ++ g ++ " (" ++ digits ++ "%)" ++ rest)%string.
Proof.
  intros Hg Hne Ha Hd. unfold tooltip_text. rewrite Hg, Hne, Ha, Hd.
  cbn [bind].
  set (port_lines := match ports h with
                     | [] => ["No open ports parsed"]
                     | p :: ps => "Open ports:" :: p :: ps
                     end).
  assert (Hpl : exists x xs, port_lines = x :: xs).
  { subst port_lines. destruct (ports h); eauto. }
  destruct Hpl as (x & xs & ->).
  exists (NL ++ join NL (x :: xs))%string.
  change (join NL (?l :: x :: xs)) with (l ++ NL ++ join NL (x :: xs))%string.
  now rewrite !string_app_assoc.
Qed.

(** A record that is the only one of its address is returned as it is. *)
Lemma merge_keeps_single_record (hosts : list Host) (r : Host) :
  records_of (ip r) hosts = [r] -> In r (merge_hosts_by_ip hosts).
Proof.
  intros Hrec.
  assert (Hin : In (ip r) (map ip (merge_hosts_by_ip hosts))).
  { rewrite merge_addresses. apply first_seen_in. split; [|intros []].
    apply in_map.
    assert (Hr : In r (records_of (ip r) hosts))
      by (rewrite Hrec; now left).
    unfold records_of in Hr. now apply filter_In in Hr. }
  apply in_map_iff in Hin. destruct Hin as (out & Hip & Hout).
  destruct (merge_record_of_address hosts out Hout)
    as (h0 & rest & Hrec' & Heq).
  rewrite Hip, Hrec in Hrec'. injection Hrec' as <- <-.
  simpl in Heq. now subst out.
Qed.

(** The claim as the specification states it, for one document: for every
    host element that the parser keeps and that has an [os] element, the
    record returned for its address holds as guess the name of the first
    candidate of highest accuracy. *)
Definition os_guess_is_best_name (root : Element) : Prop :=
  forall h r os_el before best after,
    In h (findall "host" root) ->
    xml_host h = Some r ->
    find "os" h = Some os_el ->
    findall "osmatch" os_el = before ++ best :: after ->
    (forall m, In m before ->
               (osmatch_accuracy m < osmatch_accuracy best)%Z) ->
    (forall m, In m after ->
               (osmatch_accuracy m <= osmatch_accuracy best)%Z) ->
    exists out,
      In out (parse_nmap_xml_tree root)
      /\ ip out = ip r
      /\ os_guess out = osmatch_name best.

(** A host whose only candidate carries a negative accuracy. *)
Definition xml_host_negative_accuracy : Element :=
  Elem "host" []
    [ Elem "status" [("state", "up")] []
    ; Elem "address" [("addr", "10.0.0.7"); ("addrtype", "ipv4")] []
    ; Elem "os" []
        [Elem "osmatch" [("name", "Linux 5.4"); ("accuracy", "-1")] []] ].

(** A document that reports the address 10.0.0.5 in two host elements. *)
Definition xml_host_windows : Element :=
  Elem "host" []
    [ Elem "status" [("state", "up")] []
    ; Elem "address" [("addr", "10.0.0.5"); ("addrtype", "ipv4")] []
    ; Elem "os" []
        [Elem "osmatch" [("name", "Windows 10"); ("accuracy", "96")] []] ].

Definition xml_host_linux : Element :=
  Elem "host" []
    [ Elem "status" [("state", "up")] []
    ; Elem "address" [("addr", "10.0.0.5"); ("addrtype", "ipv4")] []
    ; Elem "os" []
        [Elem "osmatch" [("name", "Linux 5.4"); ("accuracy", "90")] []] ].

Definition xml_same_address_twice : Element :=
  Elem "nmaprun" [] [xml_host_windows; xml_host_linux].

(** The claim fails on a candidate of negative accuracy, which is never
    recorded, and on the second host element of an address, whose guess
    the merge drops when its accuracy is not the higher one. *)
Lemma os_guess_is_best_name_fails :
  ~ os_guess_is_best_name (Elem "nmaprun" [] [xml_host_negative_accuracy])
  /\ ~ os_guess_is_best_name xml_same_address_twice.
Proof.
  split; intros H.
  - destruct (H xml_host_negative_accuracy
                (mkHost "10.0.0.7" None [] None None)
                (Elem "os" []
                   [Elem "osmatch"
                      [("name", "Linux 5.4"); ("accuracy", "-1")] []])
                [] (Elem "osmatch"
                      [("name", "Linux 5.4"); ("accuracy", "-1")] []) []
                (or_introl eq_refl) eq_refl eq_refl eq_refl)
      as (out & [<-|[]] & _ & Hg); [intros m [] | intros m [] |].
    discriminate Hg.
  - destruct (H xml_host_linux
                (mkHost "10.0.0.5" None [] (Some "Linux 5.4") (Some 90%Z))
                (Elem "os" []
                   [Elem "osmatch"
                      [("name", "Linux 5.4"); ("accuracy", "90")] []])
                [] (Elem "osmatch"
                      [("name", "Linux 5.4"); ("accuracy", "90")] []) []
                (or_intror (or_introl eq_refl)) eq_refl eq_refl eq_refl)
      as (out & [<-|[]] & _ & Hg); [intros m [] | intros m [] |].
    discriminate Hg.
Qed.

(** C8, amended: for a host element that the parser keeps and that has an
    [os] element, the record of the element holds the trimmed name (absent
    when blank) and the accuracy of the first osmatch candidate of highest
    accuracy, provided that accuracy is not negative, a missing accuracy
    and one that [int()] refuses counting as 0; when every candidate has a
    negative accuracy nothing is recorded.  With two candidates of
    accuracies 80 and 92, in either order, the record holds the name of the
    candidate of accuracy 92 together with that accuracy, and its tooltip
    starts with that name followed by (92%).  The parser returns this
    record as it is when no other kept host element has its address;
    otherwise it returns for the address the first record of the address
    updated by the later ones under the rule of [_maybe_set_os]. *)
Theorem xml_os_first_highest_accuracy (root h os_el : Element) (r : Host) :
  In h (findall "host" root) ->
  xml_host h = Some r ->
  find "os" h = Some os_el ->
  let recs := filter_map xml_host (findall "host" root) in
  (records_of (ip r) recs = [r] -> In r (parse_nmap_xml_tree root))
  /\
  (forall before best after,
      findall "osmatch" os_el = before ++ best :: after ->
      (0 <= osmatch_accuracy best)%Z ->
      (forall m, In m before ->
                 (osmatch_accuracy m < osmatch_accuracy best)%Z) ->
      (forall m, In m after ->
                 (osmatch_accuracy m <= osmatch_accuracy best)%Z) ->
      os_guess r = osmatch_name best
      /\ os_accuracy r = Some (osmatch_accuracy best))
  /\
  ((forall m, In m (findall "osmatch" os_el) ->
              (osmatch_accuracy m < 0)%Z) ->
   os_guess r = None /\ os_accuracy r = None)
  /\
  (forall m80 m92 n,
      findall "osmatch" os_el = [m80; m92]
      \/ findall "osmatch" os_el = [m92; m80] ->
      attr "accuracy" m80 = Some "80" ->
      attr "accuracy" m92 = Some "92" ->
      osmatch_name m92 = Some n ->
      os_guess r = Some n /\ os_accuracy r = Some 92%Z
      /\ exists rest,
           tooltip_text r = Some ("OS: " ++ n ++ " (92%)" ++ rest)%string)
  /\
  (exists out h0 rest,
      In out (parse_nmap_xml_tree root)
      /\ ip out = ip r
      /\ records_of (ip r) recs = h0 :: rest
      /\ In r (h0 :: rest)
      /\ os_guess out
         = os_guess (apply_guesses h0
                       (map (fun x => (os_guess x, os_accuracy x)) rest))
      /\ os_accuracy out
         = os_accuracy (apply_guesses h0
                          (map (fun x => (os_guess x, os_accuracy x)) rest))).
Proof.
  intros Hin Hhost Hos recs.
  assert (Hr : os_guess r = fst (xml_host_os h)
               /\ os_accuracy r = snd (xml_host_os h)).
  { unfold xml_host in Hhost.
    destruct (xml_host_down h); [discriminate|].
    destruct (xml_host_ip h) as [addr|]; [|discriminate].
    destruct (addr =? ""); [discriminate|].
    destruct (xml_host_os h) as [g a]. injection Hhost as <-. now split. }
  destruct Hr as (Hg & Ha).
  assert (Hfirst : forall before best after,
            findall "osmatch" os_el = before ++ best :: after ->
            (0 <= osmatch_accuracy best)%Z ->
            (forall m, In m before ->
                       (osmatch_accuracy m < osmatch_accuracy best)%Z) ->
            (forall m, In m after ->
                       (osmatch_accuracy m <= osmatch_accuracy best)%Z) ->
            os_guess r = osmatch_name best
            /\ os_accuracy r = Some (osmatch_accuracy best)).
  { intros before best after Hms Hpos Hb Hafter.
    rewrite Hg, Ha,
      (xml_host_os_first_max h os_el before after best) by assumption.
    now split. }
  assert (Hrecs : In r recs).
  { apply filter_map_in. now exists h. }
  split; [|split; [exact Hfirst|split; [|split]]].
  - apply merge_keeps_single_record.
  - intros Hneg. rewrite Hg, Ha. unfold xml_host_os.
    now rewrite Hos, best_osmatch_all_negative.
  - intros m80 m92 n Hms H80 H92 Hn.
    assert (A80 : osmatch_accuracy m80 = 80%Z).
    { unfold osmatch_accuracy, attr_default. now rewrite H80. }
    assert (A92 : osmatch_accuracy m92 = 92%Z).
    { unfold osmatch_accuracy, attr_default. now rewrite H92. }
    assert (Hosr : os_guess r = Some n /\ os_accuracy r = Some 92%Z).
    { rewrite <- Hn, <- A92. destruct Hms as [Hms|Hms].
      - apply (Hfirst [m80] m92 []); try assumption; try lia.
        + intros m [<-|[]]. lia.
        + intros m [].
      - apply (Hfirst [] m92 [m80]); try assumption; try lia.
        + intros m [].
        + intros m [<-|[]]. lia. }
    destruct Hosr as (Hgr & Har).
    split; [exact Hgr|]. split; [exact Har|].
    apply (tooltip_with_accuracy r n 92%Z "92"); try assumption;
      [|reflexivity].
    now apply (or_none_some _ _ Hn).
  - assert (Hip : In (ip r) (map ip (merge_hosts_by_ip recs))).
    { rewrite merge_addresses. apply first_seen_in. split; [|intros []].
      now apply in_map. }
    apply in_map_iff in Hip. destruct Hip as (out & Hip & Hout).
    destruct (merge_record_of_address recs out Hout)
      as (h0 & rest & Hrec & Heq).
    exists out, h0, rest. split; [exact Hout|]. split; [exact Hip|].
    rewrite Hip in Hrec. split; [exact Hrec|]. split.
    + rewrite <- Hrec. unfold records_of. apply filter_In.
      split; [exact Hrecs | apply String.eqb_refl].
    + subst out. now apply merge_records_os.
Qed.

(** Scenario A of the specification: an "up" host with three open ports and
    two OS candidates of accuracies 80 and 92, and a second "up" host. *)
Definition xml_host_scenario_a : Element :=
  Elem "host" []
    [ Elem "status" [("state", "up")] []
    ; Elem "address" [("addr", "10.0.0.5"); ("addrtype", "ipv4")] []
    ; Elem "ports" []
        [ Elem "port" [("protocol", "tcp"); ("portid", "22")]
            [ Elem "state" [("state", "open")] []
            ; Elem "service" [("name", "ssh")] [] ]
        ; Elem "port" [("protocol", "tcp"); ("portid", "80")]
            [ Elem "state" [("state", "open")] []
            ; Elem "service" [("name", "http")] [] ]
        ; Elem "port" [("protocol", "tcp"); ("portid", "443")]
            [ Elem "state" [("state", "open")] []
            ; Elem "service" [("name", "https")] [] ] ]
    ; Elem "os" []
        [ Elem "osmatch" [("name", "Linux 4.15"); ("accuracy", "80")] []
        ; Elem "osmatch" [("name", "Linux 5.4"); ("accuracy", "92")] [] ] ].

Definition xml_scenario_a : Element :=
  Elem "nmaprun" []
    [ xml_host_scenario_a
    ; Elem "host" []
        [ Elem "status" [("state", "up")] []
        ; Elem "address" [("addr", "10.0.0.6"); ("addrtype", "ipv4")] [] ] ].

Definition host_scenario_a : Host :=
  mkHost "10.0.0.5" None ["22/tcp ssh"; "80/tcp http"; "443/tcp https"]
         (Some "Linux 5.4") (Some 92%Z).

Lemma xml_os_first_highest_accuracy_witness :
  parse_nmap_xml_tree xml_scenario_a
    = [host_scenario_a; mkHost "10.0.0.6" None [] None None]
  /\ In host_scenario_a (parse_nmap_xml_tree xml_scenario_a)
  /\ os_guess host_scenario_a = Some "Linux 5.4"
  /\ os_accuracy host_scenario_a = Some 92%Z
  /\ exists rest,
       tooltip_text host_scenario_a
       = Some ("OS: Linux 5.4 (92%)" ++ rest)%string.
Proof.
  split; [vm_compute; reflexivity|].
  destruct (xml_os_first_highest_accuracy xml_scenario_a xml_host_scenario_a
              (Elem "os" []
                 [ Elem "osmatch"
                     [("name", "Linux 4.15"); ("accuracy", "80")] []
                 ; Elem "osmatch"
                     [("name", "Linux 5.4"); ("accuracy", "92")] [] ])
              host_scenario_a (or_introl eq_refl) eq_refl eq_refl)
    as (Hout & _ & _ & H & _).
  split; [apply Hout; vm_compute; reflexivity|].
  exact (H (Elem "osmatch" [("name", "Linux 4.15"); ("accuracy", "80")] [])
           (Elem "osmatch" [("name", "Linux 5.4"); ("accuracy", "92")] [])
           "Linux 5.4" (or_introl eq_refl) eq_refl eq_refl eq_refl).
Defined.

(** ** The diagram builder, continued *)

(** The cells under [root] when the hub is disabled. *)
Lemma build_drawio_emitted_no_hub (logo did : string) (hosts : list Host)
    (page : string) (doc : Element) :
  build_drawio logo did hosts page false = Some doc ->
  exists w ht geoms cells,
    List.length geoms = List.length hosts
    /\ host_cells w ht (ids_from 3 (List.length hosts)) geoms hosts
       = Some cells
    /\ List.length cells = List.length hosts
    /\ emitted doc =
         [ Elem "mxCell" [("id", "0")] []
         ; Elem "mxCell" [("id", "1"); ("parent", "0")] [] ]
         ++ [brand_cell logo "2"]
         ++ cells.
Proof.
  intros H. unfold build_drawio in H. cbv zeta in H.
  do 7 (apply bind_some in H; destruct H as (? & _ & H)).
  cbv beta iota delta [next_id root host_id_map host_geom_map] in H.
  apply bind_some in H. destruct H as (b1 & Hb1 & H).
  apply allocate_loop in Hb1. destruct Hb1 as (geoms & Hlen & ->).
  rewrite enumerate_length in *.
  change (2 + 1)%Z with 3%Z in H.
  change (str_of_Z 2) with "2" in H.
  cbv beta iota delta [next_id root host_id_map host_geom_map] in H.
  rewrite !app_nil_l in H.
  apply bind_some in H. destruct H as (b2 & Hb2 & H).
  apply some_inj in Hb2. subst b2.
  apply bind_some in H. destruct H as (b3 & Hb3 & H).
  apply some_inj in Hb3. subst b3.
  apply bind_some in H. destruct H as (b4 & Hb4 & H).
  apply add_host_loop in Hb4.
  destruct Hb4 as (w & ht & cells & Hcells & -> & Hclen).
  unfold emit in H, Hcells.
  cbv beta iota delta [next_id root host_id_map host_geom_map] in H, Hcells.
  apply some_inj in H. subst doc.
  exists w, ht, geoms, cells. split; [exact Hlen|].
  split; [exact Hcells|]. split; [exact Hclen|].
  cbv beta iota delta [emitted]. now rewrite <- !app_assoc.
Qed.

(** The vertex that [host_cell] returns. *)
Lemma host_cell_some (id : string) (h : Host) (x y w ht : Z) (c : Element) :
  host_cell id h x y w ht = Some c ->
  exists dev_type tooltip,
    infer_device_type h = Some dev_type
    /\ tooltip_text h = Some tooltip
    /\ c = mxCell
             [ ("id", id)
             ; ("value", html_label_with_tooltip (display_label h) tooltip)
             ; ("style", style_for_device dev_type)
             ; ("vertex", "1"); ("parent", "1") ]
             [ ("x", str_of_Z x); ("y", str_of_Z y); ("width", str_of_Z w)
             ; ("height", str_of_Z ht); ("as", "geometry") ].
Proof.
  unfold host_cell. intros H.
  apply bind_some in H. destruct H as (dev & Hdev & H).
  apply bind_some in H. destruct H as (tip & Htip & H).
  injection H as <-. now exists dev, tip.
Qed.

Lemma host_cells_cons (w ht : Z) (id : string) (ids : list string)
    (g : Z * Z) (geoms : list (Z * Z)) (h : Host) (hosts : list Host)
    (cells : list Element) :
  host_cells w ht (id :: ids) (g :: geoms) (h :: hosts) = Some cells ->
  exists c cs,
    host_cell id h (fst g) (snd g) w ht = Some c
    /\ host_cells w ht ids geoms hosts = Some cs
    /\ cells = c :: cs.
Proof.
  destruct g as [x y]. cbn [host_cells]. intros H.
  apply bind_some in H. destruct H as (c & Hc & H).
  apply bind_some in H. destruct H as (cs & Hcs & H).
  injection H as <-. now exists c, cs.
Qed.

Lemma host_cells_no_edge (w ht : Z) (ids : list string) :
  forall geoms hosts cells c,
    host_cells w ht ids geoms hosts = Some cells ->
    In c cells -> attr "edge" c = None.
Proof.
  induction ids as [|id ids IH]; intros geoms hosts cells c Hcells Hc.
  { injection Hcells as <-. destruct Hc. }
  destruct geoms as [|g geoms]; [injection Hcells as <-; destruct Hc|].
  destruct hosts as [|h hosts];
    [destruct g; injection Hcells as <-; destruct Hc|].
  apply host_cells_cons in Hcells.
  destruct Hcells as (c0 & cs & Hc0 & Hcs & ->).
  destruct Hc as [<-|Hc]; [|now apply (IH geoms hosts cs)].
  apply host_cell_some in Hc0. destruct Hc0 as (dev & tip & _ & _ & ->).
  reflexivity.
Qed.

(** X17: in a document that [build_drawio] produces with the hub disabled,
    the children of [root] are the two layer cells "0" and "1", the
    branding cell "2" and then one vertex per host, in the order of the
    host list, numbered from "3": no hub and no edge is written. *)
Theorem build_drawio_without_hub (logo did : string) (hosts : list Host)
    (page : string) (doc : Element) :
  build_drawio logo did hosts page false = Some doc ->
  let n := List.length hosts in
  let cells := emitted doc in
  List.length cells = n + 3
  /\ nth_error cells 0 = Some (Elem "mxCell" [("id", "0")] [])
  /\ nth_error cells 1 = Some (Elem "mxCell" [("id", "1"); ("parent", "0")] [])
  /\ nth_error cells 2 = Some (brand_cell logo "2")
  /\ (forall j h,
        nth_error hosts j = Some h ->
        exists x y w ht cell,
          host_cell (str_of_Z (3 + Z.of_nat j)) h x y w ht = Some cell
          /\ nth_error cells (3 + j) = Some cell)
  /\ (forall c, In c cells -> attr "edge" c = None).
Proof.
  intros H n cells.
  destruct (build_drawio_emitted_no_hub logo did hosts page doc H)
    as (w & ht & geoms & V & Hgeoms & HV & Hcells & Heq).
  fold n in Hgeoms, HV, Hcells, Heq. fold cells in Heq.
  rewrite Heq. repeat split.
  - rewrite !length_app. simpl. lia.
  - intros j h Hh.
    assert (Hj : j < n) by (apply nth_error_Some; congruence).
    destruct (nth_error geoms j) as [g|] eqn:Hg;
      [|apply nth_error_None in Hg; lia].
    destruct (host_cells_nth w ht (ids_from 3 n) geoms hosts V j
                (str_of_Z (3 + Z.of_nat j)) g h HV
                (ids_from_nth n 3 j Hj) Hg Hh) as (cell & Hcell & Hnth).
    exists (fst g), (snd g), w, ht, cell. split; [exact Hcell|].
    change (3 + j) with (S (S (S j))). cbn [app nth_error]. exact Hnth.
  - intros c Hc. cbn [app] in Hc.
    destruct Hc as [<-|[<-|[<-|Hc]]]; try reflexivity.
    exact (host_cells_no_edge _ _ _ _ _ _ _ HV Hc).
Qed.

Lemma build_drawio_without_hub_witness :
  exists doc,
    build_drawio "LOGO" "diagram-1" two_hosts "Page-1" false = Some doc
    /\ List.length (emitted doc) = 5
    /\ nth_error (emitted doc) 2 = Some (brand_cell "LOGO" "2")
    /\ (forall c, In c (emitted doc) -> attr "edge" c = None).
Proof.
  destruct (build_drawio "LOGO" "diagram-1" two_hosts "Page-1" false)
    as [doc|] eqn:Hdoc; [|vm_compute in Hdoc; discriminate Hdoc].
  exists doc. split; [reflexivity|].
  destruct (build_drawio_without_hub "LOGO" "diagram-1" two_hosts
              "Page-1" doc Hdoc)
    as (Hlen & _ & _ & Hbrand & _ & Hedge).
  split; [exact Hlen|]. split; [exact Hbrand | exact Hedge].
Defined.

(** *** Identifiers of the cells *)

Lemma ids_from_in (n : nat) :
  forall s x,
    In x (ids_from s n)
    <-> exists z, (s <= z < s + Z.of_nat n)%Z /\ x = str_of_Z z.
Proof.
  induction n as [|n IH]; intros s x.
  - simpl. split; [intros [] | intros (z & Hz & _); lia].
  - cbn [ids_from In]. rewrite IH. split.
    + intros [<-|(z & Hz & ->)]; [exists s | exists z]; split;
        try reflexivity; lia.
    + intros (z & Hz & ->).
      destruct (Z.eq_dec z s) as [->|Hne]; [now left|].
      right. exists z. split; [lia | reflexivity].
Qed.

Lemma ids_from_nodup (n : nat) : forall s, NoDup (ids_from s n).
Proof.
  induction n as [|n IH]; intros s; cbn [ids_from]; constructor.
  - intros Hin. apply ids_from_in in Hin. destruct Hin as (z & Hz & Heq).
    apply str_of_Z_inj in Heq. lia.
  - apply IH.
Qed.

Lemma edge_cells_ids (nid : string) (targets : list string) :
  forall eid,
    map (attr "id") (edge_cells nid eid targets)
    = map Some (ids_from eid (List.length targets)).
Proof.
  induction targets as [|t ts IH]; intros eid; [reflexivity|].
  cbn [edge_cells map List.length ids_from]. now rewrite IH.
Qed.

Lemma host_cells_ids (w ht : Z) (ids : list string) :
  forall geoms hosts cells,
    host_cells w ht ids geoms hosts = Some cells ->
    List.length geoms = List.length ids ->
    List.length hosts = List.length ids ->
    map (attr "id") cells = map Some ids.
Proof.
  induction ids as [|id ids IH]; intros geoms hosts cells Hcells Hg Hh.
  - now injection Hcells as <-.
  - destruct geoms as [|g geoms]; [discriminate|].
    destruct hosts as [|h hosts]; [discriminate|].
    apply host_cells_cons in Hcells.
    destruct Hcells as (c0 & cs & Hc0 & Hcs & ->).
    apply host_cell_some in Hc0. destruct Hc0 as (dev & tip & _ & _ & ->).
    cbn [map]. rewrite (IH geoms hosts cs Hcs) by (simpl in *; lia).
    reflexivity.
Qed.

Lemma nodup_map_some {A : Type} (l : list A) :
  NoDup l -> NoDup (map Some l).
Proof.
  induction 1 as [|a l Hnotin Hnd IH]; simpl; constructor; [|exact IH].
  intros Hin. apply in_map_iff in Hin.
  destruct Hin as (b & [= ->] & Hb). contradiction.
Qed.

(** X18: in every document that [build_drawio] produces, with or without
    the hub, each cell under [root] has an identifier and no two cells
    have the same one. *)
Theorem build_drawio_ids_unique (logo did : string) (hosts : list Host)
    (page : string) (hub : bool) (doc : Element) :
  build_drawio logo did hosts page hub = Some doc ->
  NoDup (map (attr "id") (emitted doc))
  /\ (forall c, In c (emitted doc) -> attr "id" c <> None).
Proof.
  intros H.
  assert (Hids : exists ids,
             map (attr "id") (emitted doc) = map Some ids /\ NoDup ids).
  { destruct hub.
    - destruct (build_drawio_emitted logo did hosts page doc H)
        as (hub_x & w & ht & geoms & V & Hgeoms & HV & _ & ->).
      set (n := List.length hosts) in *.
      exists (["0"; "1"] ++ ids_from (4 + Z.of_nat n) n ++ ["2"; "3"]
              ++ ids_from 4 n).
      split.
      + rewrite !map_app, edge_cells_ids, ids_from_length.
        rewrite (host_cells_ids _ _ _ _ _ _ HV)
          by (rewrite ids_from_length; [exact Hgeoms || reflexivity]).
        reflexivity.
      + change ["0"; "1"] with (ids_from 0 2).
        change ["2"; "3"] with (ids_from 2 2).
        repeat apply NoDup_app; try apply ids_from_nodup;
          intros a Ha Hb; rewrite ?in_app_iff in Hb;
          repeat match goal with
                 | Hx : In _ (ids_from _ _) |- _ =>
                     apply ids_from_in in Hx; destruct Hx as (? & ? & ?)
                 | Hx : ?v = str_of_Z _ |- _ => is_var v; subst v
                 | Hx : _ \/ _ |- _ => destruct Hx as [Hx|Hx]
                 | Hx : str_of_Z _ = str_of_Z _ |- _ =>
                     apply str_of_Z_inj in Hx
                 end; lia.
    - destruct (build_drawio_emitted_no_hub logo did hosts page doc H)
        as (w & ht & geoms & V & Hgeoms & HV & _ & ->).
      set (n := List.length hosts) in *.
      exists (["0"; "1"] ++ ["2"] ++ ids_from 3 n).
      split.
      + rewrite !map_app.
        rewrite (host_cells_ids _ _ _ _ _ _ HV)
          by (rewrite ids_from_length; [exact Hgeoms || reflexivity]).
        reflexivity.
      + change ["0"; "1"] with (ids_from 0 2).
        change ["2"] with (ids_from 2 1).
        repeat apply NoDup_app; try apply ids_from_nodup;
          intros a Ha Hb; rewrite ?in_app_iff in Hb;
          repeat match goal with
                 | Hx : In _ (ids_from _ _) |- _ =>
                     apply ids_from_in in Hx; destruct Hx as (? & ? & ?)
                 | Hx : ?v = str_of_Z _ |- _ => is_var v; subst v
                 | Hx : _ \/ _ |- _ => destruct Hx as [Hx|Hx]
                 | Hx : str_of_Z _ = str_of_Z _ |- _ =>
                     apply str_of_Z_inj in Hx
                 end; lia. }
  destruct Hids as (ids & Hmap & Hnd). split.
  - rewrite Hmap. now apply nodup_map_some.
  - intros c Hc Hnone. apply (in_map (attr "id")) in Hc.
    rewrite Hnone, Hmap in Hc. apply in_map_iff in Hc.
    destruct Hc as (x & Hx & _). discriminate.
Qed.

Lemma build_drawio_ids_unique_witness :
  exists doc,
    build_drawio "LOGO" "diagram-1" two_hosts "Page-1" true = Some doc
    /\ NoDup (map (attr "id") (emitted doc))
    /\ (forall c, In c (emitted doc) -> attr "id" c <> None).
Proof.
  destruct (build_drawio "LOGO" "diagram-1" two_hosts "Page-1" true)
    as [doc|] eqn:Hdoc; [|vm_compute in Hdoc; discriminate Hdoc].
  exists doc. split; [reflexivity|].
  exact (build_drawio_ids_unique "LOGO" "diagram-1" two_hosts "Page-1" true
           doc Hdoc).
Defined.

(** ** When the diagram builder returns *)

Definition scales : list float := [f_1_0; f_0_85; f_0_7; f_0_6].

(** The layout with [c] columns and [r] rows at the scale [s]. *)
Definition layout_of (s : float) (c r : Z) : Layout :=
  mkLayout c r (fmul (round_int 160) s) (fmul (round_int 70) s)
           (fmul (round_int 40) s) (fmul (round_int 40) s).

Definition is_some {A : Type} (o : option A) : bool :=
  match o with Some _ => true | None => false end.

(** The canvas arithmetic of [build_drawio] succeeds for [k] columns and
    for [k] rows. *)
Definition canvas_ok (hub : bool) (s : float) (k : Z) : bool :=
  let lay := layout_of s k k in
  let top_extra := if hub then 130%Z else 40%Z in
  is_some
    (cw <- int_mul_float (cols lay) (node_w lay) ;;
     cg <- int_mul_float (cols lay - 1) (h_gap lay) ;;
     let width := fadd (fadd (round_int (50 * 2)) cw) cg in
     page_w <- fceil width ;;
     hub_x <- ftrunc (fsub (fdiv width (round_int 2)) (round_int 45)) ;;
     Some tt)
  && is_some
       (rh <- int_mul_float (rows lay) (node_h lay) ;;
        rg <- int_mul_float (rows lay - 1) (v_gap lay) ;;
        let height := fadd (fadd (round_int (50 * 2 + top_extra)) rh) rg in
        page_h <- fceil height ;;
        Some tt).

(** The position arithmetic of the first loop succeeds for the column [k]
    and for the row [k], and the node sizes convert to integers. *)
Definition position_ok (hub : bool) (s : float) (k : Z) : bool :=
  let lay := layout_of s 1 1 in
  let start_y := (50 + (if hub then 90 else 0) + 40)%Z in
  is_some
    (cx <- int_mul_float k (fadd (node_w lay) (h_gap lay)) ;;
     x <- int_add_float 50 cx ;;
     xi <- ftrunc x ;;
     Some tt)
  && is_some
       (ry <- int_mul_float k (fadd (node_h lay) (v_gap lay)) ;;
        y <- int_add_float start_y ry ;;
        yi <- ftrunc y ;;
        Some tt)
  && is_some (ftrunc (node_w lay)) && is_some (ftrunc (node_h lay)).

Lemma arithmetic_checked (hub : bool) (s : float) :
  In s scales ->
  holds_from (canvas_ok hub s) 1 256 = true
  /\ holds_from (position_ok hub s) 0 256 = true.
Proof.
  intros [<-|[<-|[<-|[<-|[]]]]]; destruct hub; split; vm_compute;
    reflexivity.
Qed.

Lemma scale_spec_in (n : Z) : In (scale_spec n) scales.
Proof.
  unfold scale_spec, scales.
  destruct (n <=? 30)%Z; [simpl; tauto|].
  destruct (n <=? 80)%Z; [simpl; tauto|].
  destruct (n <=? 150)%Z; simpl; tauto.
Qed.

Lemma is_some_true {A : Type} (o : option A) :
  is_some o = true -> exists a, o = Some a.
Proof. destruct o as [a|]; [eauto | discriminate]. Qed.

Lemma checked_canvas (hub : bool) (s : float) (k : Z) :
  In s scales -> (1 <= k <= 256)%Z -> canvas_ok hub s k = true.
Proof.
  intros Hs Hk. destruct (arithmetic_checked hub s Hs) as [H _].
  apply (holds_from_sound _ 256 1 H). lia.
Qed.

Lemma checked_position (hub : bool) (s : float) (k : Z) :
  In s scales -> (0 <= k <= 255)%Z -> position_ok hub s k = true.
Proof.
  intros Hs Hk. destruct (arithmetic_checked hub s Hs) as [_ H].
  apply (holds_from_sound _ 256 0 H). lia.
Qed.

Lemma for_each_total {S A : Type} (xs : list A) (body : S -> A -> option S) :
  (forall x, In x xs -> forall s, exists s', body s x = Some s') ->
  forall s, exists s', for_each xs body s = Some s'.
Proof.
  induction xs as [|x xs IH]; intros H s.
  - exists s. reflexivity.
  - rewrite for_each_cons.
    destruct (H x (or_introl eq_refl) s) as (s1 & ->). simpl bind.
    apply IH. intros y Hy. apply H. now right.
Qed.

Lemma enumerate_in {A : Type} (xs : list A) (i : Z) (x : A) :
  In (i, x) (enumerate xs) -> (0 <= i < Z.of_nat (List.length xs))%Z.
Proof.
  unfold enumerate. intros H. apply in_combine_l in H.
  apply in_map_iff in H. destruct H as (k & <- & Hk).
  apply in_seq in Hk. lia.
Qed.

Ltac chain H :=
  repeat
    match type of H with
    | is_some (bind ?o ?f) = true =>
        let v := fresh "v" in
        let E := fresh "E" in
        destruct o as [v|] eqn:E;
        [unfold bind at 1 in H; cbv beta iota in H | discriminate H]
    end.

Lemma allocate_succeeds (hub : bool) (s : float) (c r i : Z) (h : Host)
    (b : Builder) :
  In s scales -> (1 <= c <= 256)%Z -> (0 <= i)%Z -> (i / c <= 255)%Z ->
  exists b',
    allocate (layout_of s c r) 50 (50 + (if hub then 90 else 0) + 40) b (i, h)
    = Some b'.
Proof.
  intros Hs Hc Hi Hr.
  assert (Hx : position_ok hub s (i mod c) = true).
  { apply checked_position; [exact Hs|].
    pose proof (Z.mod_pos_bound i c). lia. }
  assert (Hy : position_ok hub s (i / c) = true).
  { apply checked_position; [exact Hs|].
    pose proof (Z.div_pos i c). lia. }
  unfold position_ok in Hx, Hy. cbv zeta in Hx, Hy.
  cbv beta iota delta [layout_of node_w node_h h_gap v_gap] in Hx, Hy.
  apply andb_prop in Hx. destruct Hx as [Hx _].
  apply andb_prop in Hx. destruct Hx as [Hx _].
  apply andb_prop in Hx. destruct Hx as [Hx _].
  apply andb_prop in Hy. destruct Hy as [Hy _].
  apply andb_prop in Hy. destruct Hy as [Hy _].
  apply andb_prop in Hy. destruct Hy as [_ Hy].
  chain Hx. chain Hy.
  unfold allocate. cbv zeta.
  cbv beta iota delta [layout_of node_w node_h h_gap v_gap cols fst].
  rewrite E, E2. unfold bind at 1. cbv beta iota.
  rewrite E0. unfold bind at 1. cbv beta iota.
  unfold bind at 1. cbv beta iota.
  rewrite E3. unfold bind at 1. cbv beta iota.
  rewrite E1. unfold bind at 1. cbv beta iota.
  rewrite E4. unfold bind at 1. cbv beta iota.
  eauto.
Qed.

(** A host on which neither [int()] at line 421 nor the formatting of the
    accuracy at line 141 meets more than [int_max_str_digits] digits: no
    port descriptor holds more digits, and neither does the accuracy. *)
Definition within_digit_limit (h : Host) : Prop :=
  (forall e, In e (ports h) -> count_digits e <= int_max_str_digits)
  /\ (forall a, os_accuracy h = Some a ->
                count_digits (str_of_Z a) <= int_max_str_digits).

Lemma tooltip_text_returns (h : Host) :
  (forall a, os_accuracy h = Some a ->
             count_digits (str_of_Z a) <= int_max_str_digits) ->
  exists t, tooltip_text h = Some t.
Proof.
  intros Hacc. unfold tooltip_text.
  destruct (os_guess h) as [g|]; [|simpl; eauto].
  destruct (g =? ""); [simpl; eauto|].
  destruct (os_accuracy h) as [a|]; [|simpl; eauto].
  unfold py_str.
  assert (Hn : Nat.ltb int_max_str_digits (count_digits (str_of_Z a))
               = false) by (apply Nat.ltb_ge, Hacc; reflexivity).
  rewrite Hn. simpl. eauto.
Qed.

Lemma host_cell_returns (id : string) (h : Host) (x y w ht : Z) :
  within_digit_limit h -> exists c, host_cell id h x y w ht = Some c.
Proof.
  intros (Hports & Hacc). unfold host_cell.
  destruct (infer_device_type_returns h Hports) as (dev & ->).
  destruct (tooltip_text_returns h Hacc) as (tip & ->).
  simpl. eauto.
Qed.

Lemma add_host_total (lay : Layout) (w ht : Z) (hosts : list Host) :
  ftrunc (node_w lay) = Some w -> ftrunc (node_h lay) = Some ht ->
  (forall h, In h hosts -> within_digit_limit h) ->
  forall k b,
    k + List.length hosts <= List.length (host_id_map b) ->
    k + List.length hosts <= List.length (host_geom_map b) ->
    exists b',
      for_each (combine (map Z.of_nat (seq k (List.length hosts))) hosts)
               (add_host lay) b = Some b'.
Proof.
  intros Hw Hht. induction hosts as [|h hosts IH]; intros Hlim k b Hi Hg.
  - exists b. reflexivity.
  - simpl List.length in *. simpl seq. simpl map. simpl combine.
    rewrite for_each_cons. unfold add_host at 1. simpl fst. simpl snd.
    rewrite Nat2Z.id, Hw, Hht.
    destruct (nth_error (host_id_map b) k) as [id|] eqn:E1;
      [|apply nth_error_None in E1; lia].
    destruct (nth_error (host_geom_map b) k) as [xy|] eqn:E2;
      [|apply nth_error_None in E2; lia].
    destruct (host_cell_returns id h (fst xy) (snd xy) w ht
                (Hlim h (or_introl eq_refl))) as (cell & Hcell).
    simpl bind. rewrite Hcell. simpl bind.
    apply IH; [intros h' Hh'; apply Hlim; now right | |];
      unfold emit; simpl; lia.
Qed.

Lemma compute_layout_bounded (n : Z) :
  (0 <= n <= 65536)%Z ->
  exists s c r,
    In s scales /\ (1 <= c <= 256)%Z /\ (1 <= r <= 256)%Z
    /\ (n <= r * c)%Z
    /\ compute_layout n = Some (layout_of s c r).
Proof.
  intros Hn. destruct (Z.eq_dec n 0) as [->|Hne].
  - exists f_1_0, 1%Z, 1%Z.
    split; [simpl; tauto|]. split; [lia|]. split; [lia|].
    split; [lia | reflexivity].
  - destruct (compute_layout_grid n ltac:(lia)) as (lay & Hlay & Hgrid).
    destruct (compute_layout_sizes n lay ltac:(lia) Hlay)
      as (Hw & Hh & Hhg & Hvg).
    destruct lay as [c r w h hg vg]. simpl in Hw, Hh, Hhg, Hvg. subst.
    unfold grid_exact in Hgrid. simpl in Hgrid.
    exists (scale_spec n), c, r.
    split; [apply scale_spec_in|].
    split; [nia|]. split; [nia|]. split; [lia|]. exact Hlay.
Qed.

(** X19: for a list of up to 65536 hosts none of which holds more than
    [int_max_str_digits] digits in a port descriptor or in its accuracy,
    with or without the hub, [build_drawio] builds its document tree: none
    of its conversions between integers, floats and text and none of its
    look-ups raises. *)
Theorem build_drawio_total (logo did : string) (hosts : list Host)
    (page : string) (hub : bool) :
  (Z.of_nat (List.length hosts) <= 65536)%Z ->
  (forall h, In h hosts -> within_digit_limit h) ->
  exists doc, build_drawio logo did hosts page hub = Some doc.
Proof.
  intros Hn Hlim. apply is_some_true.
  destruct (compute_layout_bounded (Z.of_nat (List.length hosts)))
    as (s & c & r & Hs & Hc & Hr & Hcap & Hlay);
    [lia|].
  pose proof (checked_canvas hub s c Hs Hc) as Hcw.
  pose proof (checked_canvas hub s r Hs Hr) as Hch.
  pose proof (checked_position hub s 0 Hs ltac:(lia)) as Hsz.
  assert (Hall : forall x, In x (enumerate hosts) ->
            forall b, exists b',
              allocate (layout_of s c r) 50
                       (50 + (if hub then 90 else 0) + 40) b x = Some b').
  { intros [i h] Hin b. apply enumerate_in in Hin.
    apply allocate_succeeds; [exact Hs | exact Hc | lia |].
    assert (i / c < r)%Z by (apply Z.div_lt_upper_bound; nia). lia. }
  unfold canvas_ok in Hcw, Hch. unfold position_ok in Hsz.
  cbv zeta in Hcw, Hch, Hsz.
  cbv beta iota delta [layout_of node_w node_h h_gap v_gap cols rows]
    in Hcw, Hch, Hsz.
  apply andb_prop in Hcw. destruct Hcw as [Hcw _].
  apply andb_prop in Hch. destruct Hch as [_ Hch].
  apply andb_prop in Hsz. destruct Hsz as [Hsz Hht].
  apply andb_prop in Hsz. destruct Hsz as [_ Hw].
  apply is_some_true in Hw. destruct Hw as (w & Hw).
  apply is_some_true in Hht. destruct Hht as (ht & Hht).
  chain Hcw. chain Hch.
  unfold build_drawio. cbv zeta. rewrite Hlay.
  unfold bind at 1. cbv beta iota.
  cbv beta iota delta [layout_of node_w node_h h_gap v_gap cols rows].
  rewrite E. unfold bind at 1. cbv beta iota.
  rewrite E0. unfold bind at 1. cbv beta iota.
  rewrite E3. unfold bind at 1. cbv beta iota.
  rewrite E4. unfold bind at 1. cbv beta iota.
  rewrite E1. unfold bind at 1. cbv beta iota.
  rewrite E5. unfold bind at 1. cbv beta iota.
  cbv beta iota delta [next_id root host_id_map host_geom_map].
  fold (layout_of s c r).
  match goal with
  | |- context [for_each (enumerate hosts) ?body ?b0] =>
      destruct (for_each_total (enumerate hosts) body Hall b0) as (b1 & Hb1)
  end.
  destruct (allocate_loop _ _ _ _ _ _ Hb1) as (geoms & Hlen & Hshape).
  rewrite enumerate_length in Hlen, Hshape.
  cbv beta iota delta [next_id root host_id_map host_geom_map] in Hshape.
  rewrite Hb1. unfold bind at 1. cbv beta iota.
  assert (Hids : List.length (host_id_map b1) = List.length hosts).
  { rewrite Hshape. destruct hub; simpl; apply ids_from_length. }
  assert (Hgeo : List.length (host_geom_map b1) = List.length hosts).
  { rewrite Hshape. destruct hub; simpl; exact Hlen. }
  clear Hshape Hb1.
  assert (Hhosts : forall b,
            List.length (host_id_map b) = List.length hosts ->
            List.length (host_geom_map b) = List.length hosts ->
            exists b',
              for_each (enumerate hosts) (add_host (layout_of s c r)) b
              = Some b').
  { intros b H1 H2. unfold enumerate.
    apply (add_host_total (layout_of s c r) w ht hosts Hw Hht Hlim 0 b);
      lia. }
  destruct hub.
  - unfold range. rewrite add_edge_loop by lia.
    unfold bind at 1. cbv beta iota.
    rewrite E2. unfold bind at 1. cbv beta iota.
    unfold bind at 1. cbv beta iota.
    match goal with
    | |- context [for_each (enumerate hosts) _ ?b] =>
        destruct (Hhosts b) as (b4 & ->);
        [exact Hids | exact Hgeo | reflexivity]
    end.
  - unfold bind at 1. cbv beta iota.
    unfold bind at 1. cbv beta iota.
    match goal with
    | |- context [for_each (enumerate hosts) _ ?b] =>
        destruct (Hhosts b) as (b4 & ->);
        [exact Hids | exact Hgeo | reflexivity]
    end.
Qed.

Lemma two_hosts_within_digit_limit :
  forall h, In h two_hosts -> within_digit_limit h.
Proof.
  intros h [<-|[<-|[]]]; split; simpl.
  - intros e [<-|[]]. vm_compute. lia.
  - intros a [= <-]. vm_compute. lia.
  - intros e [].
  - intros a [=].
Qed.

Lemma build_drawio_total_witness :
  (Z.of_nat (List.length two_hosts) <= 65536)%Z
  /\ (forall h, In h two_hosts -> within_digit_limit h)
  /\ exists doc,
       build_drawio "LOGO" "diagram-1" two_hosts "Page-1" true = Some doc.
Proof.
  assert (H : (Z.of_nat (List.length two_hosts) <= 65536)%Z)
    by (simpl; lia).
  split; [exact H|]. split; [exact two_hosts_within_digit_limit|].
  exact (build_drawio_total "LOGO" "diagram-1" two_hosts "Page-1" true H
           two_hosts_within_digit_limit).
Defined.

(** A host whose port descriptor starts with 4301 digits, as the
    line-oriented parser returns it for such a port line: [int()] raises in
    [infer_device_type], and so does [build_drawio]. *)
Definition host_long_port : Host :=
  mkHost "10.0.0.1" None
         [(string_of_char "9" 4301 ++ "/tcp http")%string] None None.

Lemma build_drawio_raises_on_long_port :
  parse_nmap_normal
    ("Nmap scan report for 10.0.0.1" ++ NL
     ++ string_of_char "9" 4301 ++ "/tcp open http")%string
    = Some [host_long_port]
  /\ infer_device_type host_long_port = None
  /\ build_drawio "LOGO" "diagram-1" [host_long_port] "Page-1" true = None.
Proof. repeat split; vm_compute; reflexivity. Qed.

(** *** The page of the document *)

(** X20: every document that [build_drawio] produces is an [mxfile] with
    one [diagram], which carries the given identifier and page name and
    holds one graph model; the page of the model is never smaller than
    850 by 1100. *)
Theorem build_drawio_page (logo did : string) (hosts : list Host)
    (page : string) (hub : bool) (doc : Element) :
  build_drawio logo did hosts page hub = Some doc ->
  tag_of doc = "mxfile"
  /\ exists diagram model page_w page_h,
       children_of doc = [diagram]
       /\ tag_of diagram = "diagram"
       /\ attr "id" diagram = Some did
       /\ attr "name" diagram = Some page
       /\ children_of diagram = [model]
       /\ tag_of model = "mxGraphModel"
       /\ attr "pageWidth" model = Some (str_of_Z page_w)
       /\ attr "pageHeight" model = Some (str_of_Z page_h)
       /\ (850 <= page_w)%Z /\ (1100 <= page_h)%Z.
Proof.
  intros H. unfold build_drawio in H. cbv zeta in H.
  repeat (apply bind_some in H; destruct H as (? & _ & H)).
  apply some_inj in H. subst doc.
  split; [reflexivity|].
  do 2 eexists.
  match goal with
  | |- context [Z.max 850 ?pw] => exists (Z.max 850 pw)
  end.
  match goal with
  | |- context [Z.max 1100 ?ph] => exists (Z.max 1100 ph)
  end.
  repeat split; try reflexivity; lia.
Qed.

Lemma build_drawio_page_witness :
  exists doc,
    build_drawio "LOGO" "diagram-1" two_hosts "Page-1" true = Some doc
    /\ tag_of doc = "mxfile"
    /\ exists diagram model page_w page_h,
         children_of doc = [diagram]
         /\ tag_of diagram = "diagram"
         /\ attr "id" diagram = Some "diagram-1"
         /\ attr "name" diagram = Some "Page-1"
         /\ children_of diagram = [model]
         /\ tag_of model = "mxGraphModel"
         /\ attr "pageWidth" model = Some (str_of_Z page_w)
         /\ attr "pageHeight" model = Some (str_of_Z page_h)
         /\ (850 <= page_w)%Z /\ (1100 <= page_h)%Z.
Proof.
  destruct (build_drawio "LOGO" "diagram-1" two_hosts "Page-1" true)
    as [doc|] eqn:Hdoc; [|vm_compute in Hdoc; discriminate Hdoc].
  exists doc. split; [reflexivity|].
  exact (build_drawio_page "LOGO" "diagram-1" two_hosts "Page-1" true doc
           Hdoc).
Defined.

(** ** The first OS candidate *)

Lemma split_aux_hd_prefix (sep : ascii) (a : string) :
  forall cur b,
    count_char sep a = 0 ->
    hd "" (split_aux sep cur (a ++ String sep b))
    = hd "" (split_aux sep cur a).
Proof.
  induction a as [|x a IH]; intros cur b Ha.
  - cbn [append split_aux]. now rewrite Ascii.eqb_refl.
  - cbn [append split_aux]. cbn [count_char] in Ha.
    destruct (Ascii.eqb x sep); [discriminate Ha|].
    apply IH. exact Ha.
Qed.

(** X21: [_parse_first_guess_with_accuracy] reads the first candidate of a
    comma-separated list only: whatever follows the first comma has no
    effect on the guess and the accuracy returned. *)
Theorem parse_first_guess_reads_first_candidate (a b : string) :
  count_char "," a = 0 ->
  _parse_first_guess_with_accuracy (a ++ String "," b)
  = _parse_first_guess_with_accuracy a.
Proof.
  intros Ha. unfold _parse_first_guess_with_accuracy.
  unfold split. rewrite split_aux_hd_prefix by exact Ha.
  destruct a as [|x a]; [reflexivity|].
  reflexivity.
Qed.

Lemma parse_first_guess_reads_first_candidate_witness :
  _parse_first_guess_with_accuracy
    ("Linux 5.4 (97%)" ++ String "," " Linux 4.15 (91%)")
  = Some (Some "Linux 5.4", Some 97%Z)
  /\ _parse_first_guess_with_accuracy "Linux 5.4 (97%)"
     = Some (Some "Linux 5.4", Some 97%Z).
Proof.
  assert (H : _parse_first_guess_with_accuracy "Linux 5.4 (97%)"
              = Some (Some "Linux 5.4", Some 97%Z)) by reflexivity.
  split; [|exact H].
  rewrite <- H.
  apply (parse_first_guess_reads_first_candidate "Linux 5.4 (97%)").
  reflexivity.
Defined.

(** ** The tooltip of a host *)

Lemma digits_no_newline (s : string) :
  all_chars is_digit s = true -> count_char LF s = 0.
Proof.
  induction s as [|c s IH]; [reflexivity|].
  cbn [all_chars count_char]. intros H. apply andb_true_iff in H.
  destruct H as (Hc & Hs). rewrite (IH Hs).
  destruct (Ascii.eqb_spec c LF) as [->|_]; [discriminate Hc | reflexivity].
Qed.

Lemma str_of_Z_no_newline (z : Z) : count_char LF (str_of_Z z) = 0.
Proof.
  assert (Hn : forall n, count_char LF (str_of_nat n) = 0).
  { intros n. destruct (str_of_nat_shape n) as (c & t & -> & Hc & Ht).
    apply digits_no_newline. cbn [all_chars]. now rewrite Hc, Ht. }
  destruct z as [|p|p]; unfold str_of_Z; [reflexivity | apply Hn |].
  rewrite count_char_app, Hn. reflexivity.
Qed.

Lemma join_newlines (xs : list string) :
  (forall x, In x xs -> count_char LF x = 0) ->
  count_char LF (join NL xs) = pred (List.length xs).
Proof.
  induction xs as [|x xs IH]; intros H; [reflexivity|].
  destruct xs as [|y zs].
  - cbn [join]. apply H. now left.
  - change (join NL (x :: y :: zs))
      with (x ++ NL ++ join NL (y :: zs))%string.
    rewrite !count_char_app, IH by (intros z Hz; apply H; now right).
    rewrite (H x) by now left. reflexivity.
Qed.

(** X22: when neither the OS guess nor a port descriptor of a host holds a
    line break, the tooltip of the host has one line for the OS, one
    heading line and one line per port: it holds as many line breaks as
    the host has ports plus one, and exactly one when the host has no
    port. *)
Theorem tooltip_text_lines (h : Host) (tooltip : string) :
  (forall g, os_guess h = Some g -> count_char LF g = 0) ->
  (forall p, In p (ports h) -> count_char LF p = 0) ->
  tooltip_text h = Some tooltip ->
  count_char LF tooltip =
    match ports h with
    | [] => 1
    | ps => 1 + List.length ps
    end.
Proof.
  intros Hg Hp Ht. unfold tooltip_text in Ht.
  apply bind_some in Ht. destruct Ht as (os_line & Hos & Ht).
  apply some_inj in Ht. subst tooltip.
  rewrite join_newlines.
  - destruct (ports h); reflexivity.
  - intros x [<-|Hx].
    + destruct (os_guess h) as [g|];
        [|apply some_inj in Hos; now subst os_line].
      destruct (g =? ""); [apply some_inj in Hos; now subst os_line|].
      apply bind_some in Hos. destruct Hos as (acc & Hacc & Hos).
      apply some_inj in Hos. subst os_line.
      rewrite !count_char_app, (Hg g eq_refl).
      destruct (os_accuracy h) as [a|];
        [|apply some_inj in Hacc; now subst acc].
      apply bind_some in Hacc. destruct Hacc as (digits & Hd & Hacc).
      apply some_inj in Hacc. subst acc.
      unfold py_str in Hd. destruct (Nat.ltb _ _); [discriminate|].
      apply some_inj in Hd. subst digits.
      rewrite !count_char_app, str_of_Z_no_newline. reflexivity.
    + destruct (ports h) as [|p ps] eqn:Hps.
      * destruct Hx as [<-|[]]. reflexivity.
      * destruct Hx as [<-|Hx]; [reflexivity|]. now apply Hp.
Qed.

Lemma tooltip_text_lines_witness :
  exists tooltip,
    tooltip_text normal_report_gateway = Some tooltip
    /\ count_char LF tooltip = 3.
Proof.
  destruct (tooltip_text normal_report_gateway) as [tooltip|] eqn:Ht;
    [|vm_compute in Ht; discriminate Ht].
  exists tooltip. split; [reflexivity|].
  apply (tooltip_text_lines normal_report_gateway tooltip).
  - intros g [= <-]. reflexivity.
  - intros p [<-|[<-|[]]]; reflexivity.
  - exact Ht.
Defined.

(** ** Format detection *)

Lemma lstrip_leading_space (ws s : string) :
  all_chars is_space ws = true -> lstrip (ws ++ s) = lstrip s.
Proof.
  unfold lstrip. induction ws as [|c ws IH]; [reflexivity|].
  cbn [all_chars append lstrip_by]. intros H. apply andb_true_iff in H.
  destruct H as (Hc & Hws). rewrite Hc. now apply IH.
Qed.

(** X23: white space in front of a text has no effect on its detection as
    XML. *)
Theorem looks_like_xml_ignores_leading_space (ws s : string) :
  all_chars is_space ws = true ->
  _looks_like_xml (ws ++ s) = _looks_like_xml s.
Proof.
  intros H. unfold _looks_like_xml. cbv zeta.
  now rewrite lstrip_leading_space.
Qed.

Lemma looks_like_xml_ignores_leading_space_witness :
  _looks_like_xml (String LF (String TAB "  ") ++ "<nmaprun>") = true.
Proof.
  rewrite (looks_like_xml_ignores_leading_space
             (String LF (String TAB "  ")) "<nmaprun>"); reflexivity.
Defined.
